(** * Camera export module of the Maya-to-Lux exporter

    Shallow embedding of [Plugin/Lux/LuxExportModules/Camera.py] and the
    properties its specification states about it.

    Numbers are IEEE 754 binary64 values, as Python's [float]: the
    type [spec_float] of the Standard Library at precision 53 and maximal
    exponent 1024.  The exporter's mutable state (the [self.scale] field,
    the output buffer) and the host's script log are threaded through a
    small state-and-exception monad in which a raised exception keeps
    the state reached so far. *)

From Stdlib Require Import ZArith List String Ascii Bool Lia.
From Stdlib Require Import DecimalString.
From Stdlib Require Import Floats.SpecFloat.
Import ListNotations.

Local Open Scope string_scope.
Local Open Scope Z_scope.

(** List concatenation where [++] joins strings. *)
Infix "+++" := app (right associativity, at level 60).

(** ** Python floats *)

Module PyFloat.

Definition prec : Z := 53.
Definition emax : Z := 1024.

Definition float : Type := spec_float.

Definition add : float -> float -> float := SFadd prec emax.
Definition sub : float -> float -> float := SFsub prec emax.
Definition mul : float -> float -> float := SFmul prec emax.
Definition div : float -> float -> float := SFdiv prec emax.
Definition sqrt : float -> float := SFsqrt prec emax.
Definition opp : float -> float := SFopp.
Definition eqb : float -> float -> bool := SFeqb.
Definition ltb : float -> float -> bool := SFltb.

(** A well-formed binary64 value: what a Python float can hold. *)
Definition valid (x : float) : bool := valid_binary prec emax x.

Definition is_finite (x : float) : bool :=
  match x with
  | S754_zero _ | S754_finite _ _ _ => true
  | _ => false
  end.

Definition is_zero (x : float) : bool :=
  match x with
  | S754_zero _ => true
  | _ => false
  end.

Definition is_nan (x : float) : bool :=
  match x with
  | S754_nan => true
  | _ => false
  end.

(** Below zero: a negative number or minus infinity (not [-0.0]). *)
Definition is_negative (x : float) : bool :=
  match x with
  | S754_finite true _ _ | S754_infinity true => true
  | _ => false
  end.

Definition zero : float := S754_zero false.

(** The nearest float of an integer (ties to even); infinite when the
    integer is out of range. *)
Definition of_Z (z : Z) : float := binary_normalize prec emax z 0 false.

Definition one : float := Eval cbv in of_Z 1.

(** [math.pi], 0x1.921fb54442d18p+1. *)
Definition pi : float := S754_finite false 7074237752028440 (-51).

End PyFloat.

Import PyFloat.

Declare Scope pyfloat_scope.
Delimit Scope pyfloat_scope with F.
Infix "+" := PyFloat.add : pyfloat_scope.
Infix "-" := PyFloat.sub : pyfloat_scope.
Infix "*" := PyFloat.mul : pyfloat_scope.

(** ** Exceptions and the exporter monad *)

Inductive exn : Type :=
  | ZeroDivisionError
  | ValueError
  | OverflowError
  | RuntimeError (msg : string).

Inductive result (A : Type) : Type :=
  | Ok (a : A)
  | Raise (e : exn).
Arguments Ok {A} a.
Arguments Raise {A} e.

Definition result_bind {A B} (r : result A) (k : A -> result B) : result B :=
  match r with
  | Ok a => k a
  | Raise e => Raise e
  end.

Notation "'let?' x := r 'in' k" := (result_bind r (fun x => k))
  (at level 10, x name, r at level 200, k at level 200).

(** [float(n)] for a Python int. *)
Definition float_of_int (n : Z) : result float :=
  let f := of_Z n in
  if is_finite f then Ok f else Raise OverflowError.

(** Python's true division of floats: a zero divisor of either sign
    raises, anything else is the IEEE quotient. *)
Definition float_div (x y : float) : result float :=
  if is_zero y then Raise ZeroDivisionError else Ok (PyFloat.div x y).

(** [math.sqrt]: a domain error where the IEEE root of a number is not
    a number. *)
Definition math_sqrt (x : float) : result float :=
  match x with
  | S754_nan => Ok S754_nan
  | _ => match PyFloat.sqrt x with
         | S754_nan => Raise ValueError
         | r => Ok r
         end
  end.

(** [math.degrees]: the product with the constant [180.0 / pi]. *)
Definition radToDeg : float := Eval cbv in PyFloat.div (of_Z 180) pi.
Definition math_degrees (x : float) : float := (x * radToDeg)%F.

(** ** Text: the ['%f'] conversion *)

Definition TAB : string := String "009"%char EmptyString.
Definition DQ : string := String "034"%char EmptyString.
Definition LF : string := String "010"%char EmptyString.

(** [n / d] rounded to the nearest integer, ties to even ([0 < d]). *)
Definition round_half_even (n d : Z) : Z :=
  let q := n / d in
  match (2 * (n mod d)) ?= d with
  | Lt => q
  | Gt => q + 1
  | Eq => if Z.even q then q else q + 1
  end.

(** The magnitude [m * 2^e] in millionths, correctly rounded. *)
Definition millionths (m : positive) (e : Z) : Z :=
  match e with
  | Zneg p => round_half_even (Zpos m * 1000000) (2 ^ Zpos p)
  | _ => Zpos m * 2 ^ e * 1000000
  end.

Definition decimal (n : Z) : string := NilZero.string_of_uint (N.to_uint (Z.to_N n)).

Definition six_digits (n : Z) : string :=
  match decimal (1000000 + n) with
  | String _ s => s
  | EmptyString => EmptyString
  end.

Definition sign_string (s : bool) : string := if s then "-" else EmptyString.

(** ['%f' % x] as CPython 3 computes it: the exact value rounded, ties to
    even, to six digits after the point.  (CPython 2 writes magnitudes
    from 1e50 on in exponent form; nothing below depends on the digits
    of such a value.) *)
Definition fmt_f (x : float) : string :=
  match x with
  | S754_nan => "nan"
  | S754_infinity s => sign_string s ++ "inf"
  | S754_zero s => sign_string s ++ "0.000000"
  | S754_finite s m e =>
      let n := millionths m e in
      sign_string s ++ decimal (n / 1000000) ++ "." ++ six_digits (n mod 1000000)
  end.

(** ** The host: Maya's API as far as the module uses it *)

Inductive MSpace : Type := kTransform | kObject | kWorld.

(** [MPoint] and [MVector]: the module reads the [x], [y], [z]
    attributes only. *)
Record MVector : Type := mkVector { x : float; y : float; z : float }.

Record MRow : Type := mkRow { c0 : float; c1 : float; c2 : float; c3 : float }.
Record MMatrix : Type := mkMatrix { r0 : MRow; r1 : MRow; r2 : MRow; r3 : MRow }.

Definition identityMatrix : MMatrix :=
  mkMatrix (mkRow one zero zero zero) (mkRow zero one zero zero)
           (mkRow zero zero one zero) (mkRow zero zero zero one).

(** [MTransformationMatrix]: a transformation whose translation is the
    last row of its matrix. *)
Record MTransformationMatrix : Type := mkTM { asMatrix : MMatrix }.

Definition newTM : MTransformationMatrix := mkTM identityMatrix.

Definition setTranslation (tm : MTransformationMatrix) (v : MVector) (_ : MSpace)
  : MTransformationMatrix :=
  let m := asMatrix tm in
  mkTM (mkMatrix (r0 m) (r1 m) (r2 m) (mkRow (x v) (y v) (z v) (c3 (r3 m)))).

Definition getTranslation (tm : MTransformationMatrix) (_ : MSpace) : MVector :=
  let r := r3 (asMatrix tm) in mkVector (c0 r) (c1 r) (c2 r).

(** [MFnCamera]: the attribute reads of a camera node.  The three
    world-space queries may fail; the others are plain reads. *)
Record MFnCamera : Type := mkFnCamera {
  isOrtho : bool;
  focalLength : float;
  fStop : float;
  filmTranslateH : float;
  filmTranslateV : float;
  orthoWidth : float;
  horizontalFieldOfView : float;
  verticalFieldOfView : float;
  horizontalFilmAperture : float;
  verticalFilmAperture : float;
  centerOfInterest : float;
  eyePoint : MSpace -> result MVector;
  upDirection : MSpace -> result MVector;
  centerOfInterestPoint : MSpace -> result MVector
}.

(** The [lux_settings] node read through [cmds.getAttr]. *)
Record LuxSettings : Type := mkSettings {
  camera_persptype : string;
  camera_infinite_focus : Z;
  camera_exposuretime : float;
  camera_autofocus : Z
}.

(** The scene the export runs in; nothing in it changes during a call. *)
Record Scene : Type := mkScene {
  fnCamera : string -> MFnCamera;
  lux_settings : LuxSettings;
  isYAxisUp : bool;
  basisRemap : MMatrix -> MMatrix;
  sceneScaleFactor : float
}.

(** ** The exporter object and the monad of its methods *)

Record Camera : Type := mkCamera {
  dagPath : string;
  camera : MFnCamera;
  outWidth : Z;
  outHeight : Z;
  scale : float;
  sceneScale : float;
  DOF_CONST : Z;
  outputString : list string
}.

(** The mutable world of a call: the exporter object and the lines the
    host's [displayError] has shown. *)
Record World : Type := mkWorld { self : Camera; errorLog : list string }.

Definition M (A : Type) : Type := World -> result A * World.

Definition ret {A} (a : A) : M A := fun w => (Ok a, w).
Definition raise {A} (e : exn) : M A := fun w => (Raise e, w).
Definition bind {A B} (c : M A) (k : A -> M B) : M B :=
  fun w => match c w with
           | (Ok a, w') => k a w'
           | (Raise e, w') => (Raise e, w')
           end.

(** [try: body  except: handler]: the handler runs in the state the
    body reached. *)
Definition try_except {A} (body : M A) (handler : exn -> M A) : M A :=
  fun w => match body w with
           | (Ok a, w') => (Ok a, w')
           | (Raise e, w') => handler e w'
           end.

Definition lift {A} (r : result A) : M A := fun w => (r, w).
Definition getSelf : M Camera := fun w => (Ok (self w), w).

Notation "x <- c ;; k" := (bind c (fun x => k))
  (at level 61, c at next level, right associativity).
Notation "c ;; k" := (bind c (fun _ => k))
  (at level 61, right associativity).

Definition set_scale (s : float) : M unit :=
  fun w =>
    let c := self w in
    (Ok tt, mkWorld (mkCamera (dagPath c) (camera c) (outWidth c) (outHeight c)
                              s (sceneScale c) (DOF_CONST c) (outputString c))
                    (errorLog w)).

(** [OpenMaya.MGlobal.displayError]. *)
Definition displayError (msg : string) : M unit :=
  fun w => (Ok tt, mkWorld (self w) (errorLog w ++ [msg])).

(** ** The [ExportModule] base class *)

(** Modelled from the spec: [ExportModule.addToOutput] is not part of
    the module's file.  The output buffer is "an ordered sequence of
    text lines" to which "this module only appends". *)
Definition addToOutput (line : string) : M unit :=
  fun w =>
    let c := self w in
    (Ok tt, mkWorld (mkCamera (dagPath c) (camera c) (outWidth c) (outHeight c)
                              (scale c) (sceneScale c) (DOF_CONST c)
                              (outputString c ++ [line]))
                    (errorLog w)).

(** Modelled from the spec: [ExportModule.intToBoolString] is not part
    of the module's file.  It gives "an autofocus boolean translated
    from an integer flag". *)
Definition intToBoolString (n : Z) : string :=
  if n =? 0 then "false" else "true".

(** Modelled from the spec: [ExportModule.checkUpAxis] is not part of
    the module's file.  It converts between the host's up-axis convention
    and the renderer's "when they differ", by "applying a fixed
    basis-remapping transform"; the renderer is Z-up. *)
Definition checkUpAxis (sc : Scene) (m : MMatrix) : MMatrix :=
  if isYAxisUp sc then basisRemap sc m else m.

(** Modelled from the spec: [ExportModule.getSceneScaleFactor] is not
    part of the module's file.  It is "a unit-conversion multiplier
    (scene-to-renderer units)" of the scene. *)
Definition getSceneScaleFactor (sc : Scene) : float := sceneScaleFactor sc.

(** ** The [Camera] export module *)

Definition two : float := Eval cbv in of_Z 2.

(** [Camera.__init__]; [buffer] is the output buffer the base class
    starts the object with. *)
Definition init (sc : Scene) (path : string) (width height : Z)
                (buffer : list string) : Camera :=
  mkCamera path (fnCamera sc path) width height one
           (getSceneScaleFactor sc) 1000 buffer.

(** The four bounds of the screen window, as [InsertCommon] computes
    them from the shifts, the aspect ratio, its inverse and the scale. *)
Definition screenwindow (shiftX shiftY ratio invRatio scale : float)
  : float * float * float * float :=
  if ltb one ratio then
    ((two * shiftX - one) * scale,
     (two * shiftX + one) * scale,
     (two * shiftY - invRatio) * scale,
     (two * shiftY + invRatio) * scale)%F
  else
    ((two * shiftX - ratio) * scale,
     (two * shiftX + ratio) * scale,
     (two * shiftY - one) * scale,
     (two * shiftY + one) * scale)%F.

Definition screenwindow_line (sw : float * float * float * float) : string :=
  let '(a, b, c, d) := sw in
  TAB ++ "scene.camera.screenwindow = "
      ++ fmt_f a ++ " " ++ fmt_f b ++ " " ++ fmt_f c ++ " " ++ fmt_f d.

Definition InsertCommon (sc : Scene) : M unit :=
  me <- getSelf ;;
  lens_radius <-
    (if camera_infinite_focus (lux_settings sc) =? 0 then
       dof <- lift (float_of_int (DOF_CONST me)) ;;
       focal_length <- lift (float_div (focalLength (camera me)) dof) ;;
       lift (float_div focal_length (two * fStop (camera me))%F)
     else ret zero) ;;
  let shiftX := filmTranslateH (camera me) in
  let shiftY := filmTranslateV (camera me) in
  w <- lift (float_of_int (outWidth me)) ;;
  h <- lift (float_of_int (outHeight me)) ;;
  ratio <- lift (float_div w h) ;;
  invRatio <- lift (float_div one ratio) ;;
  addToOutput (screenwindow_line (screenwindow shiftX shiftY ratio invRatio (scale me))) ;;
  addToOutput (TAB ++ "scene.camera.shutteropen = " ++ fmt_f zero) ;;
  let exposure_time := camera_exposuretime (lux_settings sc) in
  addToOutput (TAB ++ "scene.camera.shutterclose = " ++ fmt_f exposure_time).

Definition pointCheckUpAxis (sc : Scene) (point : MVector) : MVector :=
  let pointTM := setTranslation newTM (mkVector (x point) (y point) (z point)) kWorld in
  let pointM := asMatrix pointTM in
  let pointM := checkUpAxis sc pointM in
  let pointTM := mkTM pointM in
  getTranslation pointTM kWorld.

Definition fmt_f3 (v : MVector) : string :=
  fmt_f (x v) ++ " " ++ fmt_f (y v) ++ " " ++ fmt_f (z v).

Definition InsertLookat (sc : Scene) : M unit :=
  me <- getSelf ;;
  eye <- try_except (lift (eyePoint (camera me) kWorld))
           (fun e => displayError ("Failed to get camera.eyePoint" ++ LF) ;; raise e) ;;
  up <- try_except (lift (upDirection (camera me) kWorld))
          (fun e => displayError ("Failed to get camera.upDirection" ++ LF) ;; raise e) ;;
  at_ <- try_except (lift (centerOfInterestPoint (camera me) kWorld))
           (fun e => displayError ("Failed to get camera.centerOfInterestPoint" ++ LF) ;;
                     raise e) ;;
  let eye := pointCheckUpAxis sc eye in
  let at_ := pointCheckUpAxis sc at_ in
  let up := pointCheckUpAxis sc up in
  addToOutput (TAB ++ "scene.camera.lookat.orig = " ++ fmt_f3 eye) ;;
  addToOutput (TAB ++ "scene.camera.lookat.target = " ++ fmt_f3 at_) ;;
  addToOutput (TAB ++ "scene.camera.up = " ++ fmt_f3 up) ;;
  addToOutput EmptyString.

Definition InsertEnvironment (sc : Scene) : M unit :=
  addToOutput (TAB ++ "scene.camera.type = environment") ;;
  InsertCommon sc.

(** The field of view both lens branches start from. *)
Definition fieldOfView (me : Camera) : float :=
  if outHeight me <? outWidth me
  then math_degrees (horizontalFieldOfView (camera me))
  else math_degrees (verticalFieldOfView (camera me)).

Definition specfile : string := "E:/dev/luxrender/lux/cameras/realistic/wide.22mm.dat".

Definition InsertRealistic (sc : Scene) : M unit :=
  me <- getSelf ;;
  let cFOV := fieldOfView me in
  filmdiag <- lift (math_sqrt (horizontalFilmAperture (camera me)
                               * verticalFilmAperture (camera me))%F) ;;
  let fstop := fStop (camera me) in
  let dofdist := centerOfInterest (camera me) in
  dof <- lift (float_of_int (DOF_CONST me)) ;;
  focal <- lift (float_div (focalLength (camera me)) dof) ;;
  aperture_diameter <- lift (float_div focal fstop) ;;
  filmdistance <- lift (float_div (dofdist * focal)%F (dofdist - focal)%F) ;;
  addToOutput (TAB ++ "scene.camera.type = realistic") ;;
  addToOutput (TAB ++ DQ ++ "string specfile" ++ DQ ++ " [" ++ DQ ++ specfile ++ DQ ++ "]") ;;
  addToOutput (TAB ++ DQ ++ "float filmdistance" ++ DQ ++ " [" ++ fmt_f filmdistance ++ "]") ;;
  addToOutput (TAB ++ DQ ++ "float aperture_diameter" ++ DQ ++ " ["
                   ++ fmt_f aperture_diameter ++ "]") ;;
  addToOutput (TAB ++ DQ ++ "float filmdiag" ++ DQ ++ " [" ++ fmt_f filmdiag ++ "]") ;;
  InsertCommon sc.

Definition InsertPerspective (sc : Scene) : M unit :=
  addToOutput (TAB ++ "scene.camera.type = perspective") ;;
  me <- getSelf ;;
  let cFOV := fieldOfView me in
  let auto_focus := intToBoolString (camera_autofocus (lux_settings sc)) in
  addToOutput (TAB ++ "scene.camera.autofocus.enable = " ++ auto_focus) ;;
  addToOutput (TAB ++ "scene.camera.fieldofview = " ++ fmt_f cFOV) ;;
  InsertCommon sc.

Definition InsertOrtho (sc : Scene) : M unit :=
  me <- getSelf ;;
  s <- lift (float_div (orthoWidth (camera me)) two) ;;
  set_scale s ;;
  addToOutput (TAB ++ "scene.camera.type = orthographic") ;;
  InsertCommon sc.

Definition getOutput (sc : Scene) : M unit :=
  me <- getSelf ;;
  (if isOrtho (camera me) then
     InsertOrtho sc
   else
     let ptype := camera_persptype (lux_settings sc) in
     addToOutput "#Camera" ;;
     if String.eqb ptype "Perspective" then InsertPerspective sc
     else if String.eqb ptype "Environment" then InsertEnvironment sc
     else InsertRealistic sc) ;;
  InsertLookat sc.

(** ** Describing a call *)

(** The world after [lines] have been appended to the buffer. *)
Definition emit (w : World) (lines : list string) : World :=
  let c := self w in
  mkWorld (mkCamera (dagPath c) (camera c) (outWidth c) (outHeight c)
                    (scale c) (sceneScale c) (DOF_CONST c)
                    (outputString c ++ lines))
          (errorLog w).

(** The world after [self.scale] has been assigned. *)
Definition rescale (w : World) (s : float) : World :=
  let c := self w in
  mkWorld (mkCamera (dagPath c) (camera c) (outWidth c) (outHeight c)
                    s (sceneScale c) (DOF_CONST c) (outputString c))
          (errorLog w).

(** The world after the host has shown [msg] as an error. *)
Definition logged (w : World) (msg : string) : World :=
  mkWorld (self w) (errorLog w ++ [msg]).

(** The world whose exporter has [s] in its [sceneScale] field. *)
Definition withSceneScale (w : World) (s : float) : World :=
  let c := self w in
  mkWorld (mkCamera (dagPath c) (camera c) (outWidth c) (outHeight c)
                    (scale c) s (DOF_CONST c) (outputString c))
          (errorLog w).

Definition output (w : World) : list string := outputString (self w).

(** The aspect ratio of the output, [float(outWidth) / float(outHeight)]. *)
Definition aspect (me : Camera) : float :=
  PyFloat.div (of_Z (outWidth me)) (of_Z (outHeight me)).

(** The lens radius [InsertCommon] computes first (and does not emit),
    as a value or the exception raised on the way. *)
Definition lensRadius (sc : Scene) (me : Camera) : result float :=
  if camera_infinite_focus (lux_settings sc) =? 0 then
    let? dof := float_of_int (DOF_CONST me) in
    let? focal_length := float_div (focalLength (camera me)) dof in
    float_div focal_length (two * fStop (camera me))%F
  else Ok zero.

(** The derived quantities [InsertRealistic] computes before it emits
    anything (film distance, aperture diameter, film diagonal), or the
    exception raised on the way. *)
Definition realisticOptics (me : Camera) : result (float * float * float) :=
  let? filmdiag := math_sqrt (horizontalFilmAperture (camera me)
                              * verticalFilmAperture (camera me))%F in
  let fstop := fStop (camera me) in
  let dofdist := centerOfInterest (camera me) in
  let? dof := float_of_int (DOF_CONST me) in
  let? focal := float_div (focalLength (camera me)) dof in
  let? aperture_diameter := float_div focal fstop in
  let? filmdistance := float_div (dofdist * focal)%F (dofdist - focal)%F in
  Ok (filmdistance, aperture_diameter, filmdiag).

Definition realisticLines (optics : float * float * float) : list string :=
  let '(filmdistance, aperture_diameter, filmdiag) := optics in
  [ TAB ++ "scene.camera.type = realistic";
    TAB ++ DQ ++ "string specfile" ++ DQ ++ " [" ++ DQ ++ specfile ++ DQ ++ "]";
    TAB ++ DQ ++ "float filmdistance" ++ DQ ++ " [" ++ fmt_f filmdistance ++ "]";
    TAB ++ DQ ++ "float aperture_diameter" ++ DQ ++ " [" ++ fmt_f aperture_diameter ++ "]";
    TAB ++ DQ ++ "float filmdiag" ++ DQ ++ " [" ++ fmt_f filmdiag ++ "]" ].

(** The conditions under which nothing in the common block raises: the
    lens radius can be computed (or infinite focus is set), both sizes
    convert to floats, the height is not zero and the ratio is not
    zero. *)
Definition common_ok (sc : Scene) (me : Camera) : bool :=
  ((if camera_infinite_focus (lux_settings sc) =? 0
    then is_finite (of_Z (DOF_CONST me))
         && negb (DOF_CONST me =? 0)
         && negb (is_zero (two * fStop (camera me))%F)
    else true)
   && is_finite (of_Z (outWidth me))
   && is_finite (of_Z (outHeight me))
   && negb (outHeight me =? 0)
   && negb (is_zero (aspect me)))%bool.

(** The three lines of the common block. *)
Definition commonLines (sc : Scene) (me : Camera) : list string :=
  [ screenwindow_line
      (screenwindow (filmTranslateH (camera me)) (filmTranslateV (camera me))
                    (aspect me) (PyFloat.div one (aspect me)) (scale me));
    TAB ++ "scene.camera.shutteropen = " ++ fmt_f zero;
    TAB ++ "scene.camera.shutterclose = " ++ fmt_f (camera_exposuretime (lux_settings sc)) ].

(** The four lines of the look-at block for the three query results. *)
Definition lookatLines (sc : Scene) (eye at_ up : MVector) : list string :=
  [ TAB ++ "scene.camera.lookat.orig = " ++ fmt_f3 (pointCheckUpAxis sc eye);
    TAB ++ "scene.camera.lookat.target = " ++ fmt_f3 (pointCheckUpAxis sc at_);
    TAB ++ "scene.camera.up = " ++ fmt_f3 (pointCheckUpAxis sc up);
    EmptyString ].

(** The first statement of [getOutput]: the dispatch on the camera
    type. *)
Definition insertTypeBlock (sc : Scene) : M unit :=
  me <- getSelf ;;
  if isOrtho (camera me) then
    InsertOrtho sc
  else
    let ptype := camera_persptype (lux_settings sc) in
    addToOutput "#Camera" ;;
    if String.eqb ptype "Perspective" then InsertPerspective sc
    else if String.eqb ptype "Environment" then InsertEnvironment sc
    else InsertRealistic sc.

(** The four camera types of the dispatch. *)
Inductive CameraType : Type := Orthographic | Perspective | Environment | Realistic.

Definition cameraType (sc : Scene) (me : Camera) : CameraType :=
  if isOrtho (camera me) then Orthographic
  else if String.eqb (camera_persptype (lux_settings sc)) "Perspective" then Perspective
  else if String.eqb (camera_persptype (lux_settings sc)) "Environment" then Environment
  else Realistic.

Definition perspectiveLines (sc : Scene) (me : Camera) : list string :=
  [ TAB ++ "scene.camera.type = perspective";
    TAB ++ "scene.camera.autofocus.enable = "
        ++ intToBoolString (camera_autofocus (lux_settings sc));
    TAB ++ "scene.camera.fieldofview = " ++ fmt_f (fieldOfView me) ].

(** The lines a call appends before it enters the common block. *)
Definition headLines (sc : Scene) (me : Camera) : list string :=
  match cameraType sc me with
  | Orthographic => [ TAB ++ "scene.camera.type = orthographic" ]
  | Perspective => "#Camera" :: perspectiveLines sc me
  | Environment => [ "#Camera"; TAB ++ "scene.camera.type = environment" ]
  | Realistic =>
      "#Camera" :: match realisticOptics me with
                   | Ok optics => realisticLines optics
                   | Raise _ => []
                   end
  end.

(** The scale the common block works with: an orthographic camera
    replaces it by half its width. *)
Definition scaleFor (sc : Scene) (me : Camera) : float :=
  if isOrtho (camera me) then PyFloat.div (orthoWidth (camera me)) two else scale me.

(** The world in which the common block starts. *)
Definition afterHead (sc : Scene) (w : World) : World :=
  emit (rescale w (scaleFor sc (self w))) (headLines sc (self w)).

Definition eyePointMessage : string := "Failed to get camera.eyePoint" ++ LF.

Definition upDirectionMessage : string := "Failed to get camera.upDirection" ++ LF.

Definition centerOfInterestPointMessage : string :=
  "Failed to get camera.centerOfInterestPoint" ++ LF.

Inductive LookatQuery : Type := EyePoint | UpDirection | CenterOfInterestPoint.

Definition runQuery (q : LookatQuery) (cam : MFnCamera) : result MVector :=
  match q with
  | EyePoint => eyePoint cam kWorld
  | UpDirection => upDirection cam kWorld
  | CenterOfInterestPoint => centerOfInterestPoint cam kWorld
  end.

(** The name of the query in the host's API. *)
Definition queryName (q : LookatQuery) : string :=
  match q with
  | EyePoint => "eyePoint"
  | UpDirection => "upDirection"
  | CenterOfInterestPoint => "centerOfInterestPoint"
  end.

(** The place of the query in the order [InsertLookat] makes them. *)
Definition queryOrder (q : LookatQuery) : nat :=
  match q with
  | EyePoint => 0
  | UpDirection => 1
  | CenterOfInterestPoint => 2
  end.

Definition failureMessage (q : LookatQuery) : string :=
  "Failed to get camera." ++ queryName q ++ LF.

(** The world a call leaves when all of its steps succeed. *)
Definition exported (sc : Scene) (w : World) (eye at_ up : MVector) : World :=
  emit (afterHead sc w)
       (commonLines sc (self (afterHead sc w)) +++ lookatLines sc eye at_ up).

(** The type-specific block succeeds exactly when the lens arithmetic of
    a realistic camera and the arithmetic of the common block do. *)
Definition type_block_ok (sc : Scene) (me : Camera) : bool :=
  match cameraType sc me, realisticOptics me with
  | Realistic, Raise _ => false
  | _, _ => common_ok sc me
  end.

(** ** Classifying emitted lines *)

(** [line] begins with [start]. *)
Fixpoint begins_with (start line : string) : bool :=
  match start with
  | EmptyString => true
  | String a start' =>
      match line with
      | EmptyString => false
      | String b line' => Ascii.eqb a b && begins_with start' line'
      end
  end.

(** [line] assigns to [key]: it reads [<tab>key = ...]. *)
Definition has_key (key line : string) : bool :=
  begins_with (TAB ++ key ++ " = ") line.

(** [line] is a parameter in the quoted form [<tab>"type name" [...]]. *)
Definition has_quoted_param (decl line : string) : bool :=
  begins_with (TAB ++ DQ ++ decl ++ DQ ++ " [") line.

Definition is_lookat_line (line : string) : bool :=
  has_key "scene.camera.lookat.orig" line
  || has_key "scene.camera.lookat.target" line
  || has_key "scene.camera.up" line
  || String.eqb line EmptyString.

(** The three keys of the common block. *)
Definition is_common_line (line : string) : bool :=
  has_key "scene.camera.screenwindow" line
  || has_key "scene.camera.shutteropen" line
  || has_key "scene.camera.shutterclose" line.

(** Field-of-view, focus and lens parameters. *)
Definition is_lens_line (line : string) : bool :=
  has_key "scene.camera.fieldofview" line
  || has_key "scene.camera.autofocus.enable" line
  || has_quoted_param "string specfile" line
  || has_quoted_param "float filmdistance" line
  || has_quoted_param "float aperture_diameter" line
  || has_quoted_param "float filmdiag" line.

(** The keys the specification lists. *)
Definition cameraKeys : list string :=
  [ "scene.camera.type";
    "scene.camera.screenwindow";
    "scene.camera.shutteropen";
    "scene.camera.shutterclose";
    "scene.camera.autofocus.enable";
    "scene.camera.fieldofview";
    "scene.camera.lookat.orig";
    "scene.camera.lookat.target";
    "scene.camera.up" ].

(** [line] assigns to one of the listed keys. *)
Definition assigns_camera_key (line : string) : bool :=
  existsb (fun key => has_key key line) cameraKeys.

(** [line] is one of the four quoted parameters of the realistic block. *)
Definition is_realistic_param (line : string) : bool :=
  has_quoted_param "string specfile" line
  || has_quoted_param "float filmdistance" line
  || has_quoted_param "float aperture_diameter" line
  || has_quoted_param "float filmdiag" line.

Definition is_marker (line : string) : bool := String.eqb line "#Camera".

Definition is_blank (line : string) : bool := String.eqb line EmptyString.

(** The perspective-only keys. *)
Definition is_perspective_key_line (line : string) : bool :=
  has_key "scene.camera.autofocus.enable" line
  || has_key "scene.camera.fieldofview" line.

Definition is_listed (line : string) : bool :=
  assigns_camera_key line || is_marker line || is_blank line || is_realistic_param line.

(** A screen-window assignment carries four formatted floats. *)
Definition four_floats (line : string) : Prop :=
  has_key "scene.camera.screenwindow" line = true ->
  exists a b c d : float,
    line = TAB ++ "scene.camera.screenwindow = "
               ++ fmt_f a ++ " " ++ fmt_f b ++ " " ++ fmt_f c ++ " " ++ fmt_f d.

(** ** Sample scenes *)

Definition origin : MVector := mkVector zero zero zero.

Definition unitY : MVector := mkVector zero one zero.

Definition ahead : MVector := mkVector zero zero (of_Z (-5)).

(** A 35 mm lens at f/5.6 with no film offset, looking from the origin
    at a point 5 units ahead. *)
Definition sampleCamera (ortho : bool) (width : float) : MFnCamera :=
  mkFnCamera ortho (of_Z 35) (PyFloat.div (of_Z 56) (of_Z 10)) zero zero width
             one (PyFloat.div one two) (PyFloat.div (of_Z 14) (of_Z 10)) one (of_Z 5)
             (fun _ => Ok origin) (fun _ => Ok unitY) (fun _ => Ok ahead).

(** A Z-up scene with finite focus, an exposure of 1/100 and autofocus
    set. *)
Definition sampleScene (cam : MFnCamera) (ptype : string) : Scene :=
  mkScene (fun _ => cam) (mkSettings ptype 0 (PyFloat.div one (of_Z 100)) 1)
          false (fun m => m) one.

Definition hostFailure : exn := RuntimeError "(kFailure): Unexpected Internal Failure".

(** [cam] with its three world-space queries replaced. *)
Definition withQueries (cam : MFnCamera) (eye up at_ : result MVector) : MFnCamera :=
  mkFnCamera (isOrtho cam) (focalLength cam) (fStop cam) (filmTranslateH cam)
             (filmTranslateV cam) (orthoWidth cam) (horizontalFieldOfView cam)
             (verticalFieldOfView cam) (horizontalFilmAperture cam)
             (verticalFilmAperture cam) (centerOfInterest cam)
             (fun _ => eye) (fun _ => up) (fun _ => at_).

(** [cam] with its horizontal film aperture replaced. *)
Definition withFilmWidth (cam : MFnCamera) (aperture : float) : MFnCamera :=
  mkFnCamera (isOrtho cam) (focalLength cam) (fStop cam) (filmTranslateH cam)
             (filmTranslateV cam) (orthoWidth cam) (horizontalFieldOfView cam)
             (verticalFieldOfView cam) aperture
             (verticalFilmAperture cam) (centerOfInterest cam)
             (eyePoint cam) (upDirection cam) (centerOfInterestPoint cam).

(** [cam] with the lens values the realistic branch reads replaced. *)
Definition withLens (cam : MFnCamera) (focal fstop coi : float) : MFnCamera :=
  mkFnCamera (isOrtho cam) focal fstop (filmTranslateH cam)
             (filmTranslateV cam) (orthoWidth cam) (horizontalFieldOfView cam)
             (verticalFieldOfView cam) (horizontalFilmAperture cam)
             (verticalFilmAperture cam) coi
             (eyePoint cam) (upDirection cam) (centerOfInterestPoint cam).

(** A fresh exporter for the camera of [sc] at the given resolution. *)
Definition freshWorld (sc : Scene) (width height : Z) : World :=
  mkWorld (init sc "perspShape" width height []) [].

Definition perspectiveScene : Scene :=
  sampleScene (sampleCamera false (of_Z 10)) "Perspective".

Definition orthoScene : Scene :=
  sampleScene (sampleCamera true (of_Z 10)) "Perspective".

Definition realisticScene : Scene :=
  sampleScene (sampleCamera false (of_Z 10)) "Realistic".

(** A perspective scene whose camera fails to give its eye point. *)
Definition blindScene : Scene :=
  sampleScene (withQueries (sampleCamera false (of_Z 10))
                           (Raise hostFailure) (Ok unitY) (Ok ahead))
              "Perspective".

(** The realistic sample scene with a film four units wide. *)
Definition wideFilmScene : Scene :=
  sampleScene (withFilmWidth (sampleCamera false (of_Z 10)) (of_Z 4)) "Realistic".

(** A realistic scene whose camera looks at a point exactly one focal
    length (35 mm, in scene units 35/1000) away. *)
Definition focusAtLensScene : Scene :=
  sampleScene (withLens (sampleCamera false (of_Z 10)) (of_Z 35)
                        (PyFloat.div (of_Z 56) (of_Z 10))
                        (PyFloat.div (of_Z 35) (of_Z 1000)))
              "Realistic".

Definition environmentScene : Scene :=
  sampleScene (sampleCamera false (of_Z 10)) "Environment".

(** The sample scene with the lens stopped down to zero. *)
Definition zeroStopScene (ptype : string) : Scene :=
  sampleScene (withLens (sampleCamera false (of_Z 10)) (of_Z 35) zero (of_Z 5)) ptype.

(** The realistic sample scene with a film of negative width. *)
Definition negativeFilmScene : Scene :=
  sampleScene (withFilmWidth (sampleCamera false (of_Z 10)) (of_Z (-4))) "Realistic".

(** ** Tactics for lines with symbolic values *)

Ltac hide_values :=
  repeat match goal with
         | |- context [fmt_f ?v] => generalize (fmt_f v); intro
         | |- context [fmt_f3 ?v] => generalize (fmt_f3 v); intro
         | |- context [intToBoolString ?v] => generalize (intToBoolString v); intro
         end.

(** Decides a boolean test on lines whose values are left symbolic. *)
Ltac line_test :=
  unfold screenwindow_line;
  repeat match goal with
         | |- context [screenwindow ?a ?b ?c ?d ?e] =>
             destruct (screenwindow a b c d e) as [[[? ?] ?] ?]
         end;
  hide_values; reflexivity.

Ltac all_lines :=
  repeat first [apply Forall_nil | apply Forall_cons]; try line_test.

Ltac not_screenwindow :=
  let H := fresh in
  intros H; exfalso; revert H; hide_values;
  let H' := fresh in intros H'; discriminate H'.

(** ** Facts about binary64 arithmetic *)

Section Rounding.

Abbreviation emin := (emin prec emax).
Abbreviation fexp := (fexp prec emax).

Lemma emin_value : emin = -1074.
Proof. reflexivity. Qed.

Lemma fexp_value (e : Z) : fexp e = Z.max (e - 53) (-1074).
Proof. reflexivity. Qed.

Lemma digits2_pos_log2 (p : positive) : Zpos (digits2_pos p) = Z.log2 (Zpos p) + 1.
Proof.
  induction p as [p IH | p IH |]; cbn [digits2_pos]; try reflexivity.
  - rewrite Pos2Z.inj_succ, IH.
    change (Zpos p~1) with (2 * Zpos p + 1).
    rewrite Z.log2_succ_double by reflexivity. lia.
  - rewrite Pos2Z.inj_succ, IH.
    change (Zpos p~0) with (2 * Zpos p).
    rewrite Z.log2_double by reflexivity. lia.
Qed.

Lemma Zdigits2_log2 (m : Z) : 0 < m -> Zdigits2 m = Z.log2 m + 1.
Proof. destruct m; try easy. intros _. apply digits2_pos_log2. Qed.

(** One step of [shr] halves a mantissa that is not negative. *)
Lemma shr_1_m (r : shr_record) : 0 <= shr_m r -> shr_m (shr_1 r) = shr_m r / 2.
Proof.
  destruct r as [m rb sb]. cbn [shr_m]. intros Hm.
  destruct m as [|p|p]; [reflexivity| |lia].
  destruct p as [p|p|]; cbn [shr_1 shr_m].
  - change (Zpos p~1) with (2 * Zpos p + 1). symmetry.
    rewrite Z.mul_comm. apply Z.div_add_l. lia. 
  - change (Zpos p~0) with (2 * Zpos p). symmetry.
    rewrite Z.mul_comm. now apply Z.div_mul.
  - reflexivity.
Qed.

Lemma iter_pos_shr_1_m (p : positive) (r : shr_record) :
  0 <= shr_m r -> shr_m (iter_pos shr_1 p r) = shr_m r / 2 ^ Zpos p.
Proof.
  revert r. induction p as [p IH | p IH |]; intros r Hr; cbn [iter_pos].
  - assert (H1 : 0 <= shr_m (shr_1 r)).
    { rewrite shr_1_m by assumption. apply Z.div_pos; lia. }
    assert (H2 : 0 <= shr_m (iter_pos shr_1 p (shr_1 r))).
    { rewrite IH by assumption. apply Z.div_pos; [assumption|]. apply Z.pow_pos_nonneg; lia. }
    rewrite IH, IH, shr_1_m by assumption.
    rewrite !Z.div_div by (try apply Z.pow_pos_nonneg; lia).
    f_equal. rewrite (Pos2Z.inj_xI p).
    replace (2 * Zpos p + 1) with (1 + Zpos p + Zpos p) by lia.
    rewrite !Z.pow_add_r by lia. lia.
  - assert (H2 : 0 <= shr_m (iter_pos shr_1 p r)).
    { rewrite IH by assumption. apply Z.div_pos; [assumption|]. apply Z.pow_pos_nonneg; lia. }
    rewrite IH, IH by assumption.
    rewrite !Z.div_div by (try apply Z.pow_pos_nonneg; lia).
    f_equal. rewrite (Pos2Z.inj_xO p).
    replace (2 * Zpos p) with (Zpos p + Zpos p) by lia.
    rewrite !Z.pow_add_r by lia. lia.
  - rewrite shr_1_m by assumption. reflexivity.
Qed.

Lemma shr_m_of_loc (m : Z) (l : location) : shr_m (shr_record_of_loc m l) = m.
Proof. destruct l as [|[| |]]; reflexivity. Qed.

(** [shr_fexp] divides the mantissa by [2 ^ n] and adds [n] to the
    exponent, where [n] is the number of digits in excess, if any. *)
Lemma shr_fexp_spec (m e : Z) (l : location) :
  0 <= m ->
  let n := Z.max (fexp (Zdigits2 m + e) - e) 0 in
  shr_m (fst (shr_fexp prec emax m e l)) = m / 2 ^ n
  /\ snd (shr_fexp prec emax m e l) = e + n.
Proof.
  intros Hm n. unfold shr_fexp, shr. subst n.
  destruct (fexp (Zdigits2 m + e) - e) as [|p|p] eqn:Hn; cbn [fst snd].
  - rewrite shr_m_of_loc, Z.max_id. change (2 ^ 0) with 1. rewrite Z.div_1_r. lia.
  - rewrite iter_pos_shr_1_m by now rewrite shr_m_of_loc.
    rewrite shr_m_of_loc, Z.max_l by lia. split; reflexivity.
  - rewrite shr_m_of_loc, Z.max_r by lia. change (2 ^ 0) with 1.
    rewrite Z.div_1_r. lia.
Qed.

(** At or above the least exponent, [shr_fexp] keeps a positive mantissa
    positive. *)
Lemma shr_fexp_pos (m e : Z) (l : location) :
  0 < m -> emin <= e ->
  0 < shr_m (fst (shr_fexp prec emax m e l))
  /\ emin <= snd (shr_fexp prec emax m e l).
Proof.
  intros Hm He.
  destruct (shr_fexp_spec m e l) as [-> ->]; [lia|].
  rewrite Zdigits2_log2 by assumption. rewrite fexp_value, emin_value in *.
  split; [|lia].
  apply Z.div_str_pos. split; [apply Z.pow_pos_nonneg; lia|].
  transitivity (2 ^ Z.log2 m).
  - apply Z.pow_le_mono_r; [lia|].
    pose proof (Z.log2_nonneg m). lia.
  - now apply Z.log2_spec.
Qed.

Lemma round_nearest_even_pos (m : Z) (l : location) :
  0 < m -> 0 < round_nearest_even m l.
Proof.
  intros Hm. destruct l as [|[| |]]; cbn [round_nearest_even]; try lia.
  destruct (Z.even m); lia.
Qed.

(** Rounding a positive mantissa at or above the least exponent gives a
    finite non-zero number or an infinity. *)
Lemma binary_round_aux_pos (s : bool) (m e : Z) (l : location) :
  0 < m -> emin <= e ->
  is_zero (binary_round_aux prec emax s m e l) = false
  /\ is_nan (binary_round_aux prec emax s m e l) = false.
Proof.
  intros Hm He. unfold binary_round_aux.
  destruct (shr_fexp_pos m e l Hm He) as [Hm1 He1].
  destruct (shr_fexp prec emax m e l) as [r1 e1]. cbn [fst snd] in Hm1, He1.
  pose proof (round_nearest_even_pos (shr_m r1) (loc_of_shr_record r1) Hm1) as Hr.
  destruct (shr_fexp_pos _ e1 loc_Exact Hr He1) as [Hm2 _].
  destruct (shr_fexp prec emax _ e1 loc_Exact) as [r2 e2]. cbn [fst] in Hm2.
  destruct (shr_m r2) as [|p|p]; try lia.
  now destruct (e2 <=? emax - prec).
Qed.

Lemma binary_round_pos (s : bool) (m : positive) (e : Z) :
  emin <= e ->
  is_zero (binary_round prec emax s m e) = false.
Proof.
  intros He. unfold binary_round, shl_align.
  destruct (fexp (Zpos (digits2_pos m) + e) - e) as [|p|p] eqn:Hn;
    apply binary_round_aux_pos; try lia.
  rewrite fexp_value, emin_value in *. lia.
Qed.

(** Normalizing a non-zero integer at or above the least exponent never
    gives zero. *)
Lemma binary_normalize_nonzero (m e : Z) (sz : bool) :
  m <> 0 -> emin <= e ->
  is_zero (binary_normalize prec emax m e sz) = false.
Proof.
  intros Hm He. destruct m as [|p|p]; [easy| |]; now apply binary_round_pos.
Qed.

Lemma of_Z_zero_iff (n : Z) : is_zero (of_Z n) = true <-> n = 0.
Proof.
  split.
  - intros H. destruct (Z.eq_dec n 0) as [|Hn]; [assumption|].
    unfold of_Z in H. rewrite binary_normalize_nonzero in H; [discriminate|assumption|].
    rewrite emin_value. lia.
  - now intros ->.
Qed.

(** *** Subtraction cancels exactly for equal operands only *)

Lemma pos_iter_xO (m d : positive) : Zpos (Pos.iter xO m d) = Zpos m * 2 ^ Zpos d.
Proof.
  induction d as [|d IH] using Pos.peano_ind.
  - cbn [Pos.iter]. lia.
  - rewrite Pos.iter_succ, Pos2Z.inj_xO, IH, Pos2Z.inj_succ, Z.pow_succ_r by lia. lia.
Qed.

Lemma shl_align_value (mx : positive) (ex ez : Z) :
  ez <= ex -> Zpos (fst (shl_align mx ex ez)) = Zpos mx * 2 ^ (ex - ez).
Proof.
  intros Hle. unfold shl_align.
  destruct (ez - ex) as [|d|d] eqn:Hd; cbn [fst].
  - replace (ex - ez) with 0 by lia. lia.
  - lia.
  - rewrite pos_iter_xO. f_equal. f_equal. lia.
Qed.

Lemma valid_finite (s : bool) (m : positive) (e : Z) :
  valid (S754_finite s m e) = true ->
  e = fexp (Zpos (digits2_pos m) + e) /\ e <= emax - prec.
Proof.
  unfold valid, valid_binary, bounded, canonical_mantissa.
  rewrite andb_true_iff, Z.eqb_eq, Z.leb_le. intros [H1 H2]. now split.
Qed.

(** Two canonical mantissas of one value are the same. *)
Lemma canonical_unique (m1 m2 : positive) (e1 e2 : Z) :
  e1 = fexp (Zpos (digits2_pos m1) + e1) ->
  e2 = fexp (Zpos (digits2_pos m2) + e2) ->
  Zpos m1 * 2 ^ (e1 - Z.min e1 e2) = Zpos m2 * 2 ^ (e2 - Z.min e1 e2) ->
  m1 = m2 /\ e1 = e2.
Proof.
  rewrite !digits2_pos_log2, !fexp_value. intros H1 H2 Hv.
  assert (He : e1 = e2).
  { apply (f_equal Z.log2) in Hv.
    rewrite !Z.log2_mul_pow2 in Hv by lia. lia. }
  subst e2. split; [|reflexivity].
  rewrite Z.min_id, Z.sub_diag in Hv. change (2 ^ 0) with 1 in Hv. lia.
Qed.

Lemma cond_Zopp_sub_zero (s1 s2 : bool) (a b : positive) :
  cond_Zopp s1 (Zpos a) - cond_Zopp s2 (Zpos b) = 0 -> s1 = s2 /\ a = b.
Proof. destruct s1, s2; cbn [cond_Zopp]; intros H; split; try reflexivity; lia. Qed.

Lemma eqb_finite_refl (s : bool) (m : positive) (e : Z) :
  eqb (S754_finite s m e) (S754_finite s m e) = true.
Proof.
  unfold eqb, SFeqb, SFcompare.
  destruct s; now rewrite Z.compare_refl, Pos.compare_cont_refl.
Qed.

Lemma eqb_finite_eq (s1 s2 : bool) (m1 m2 : positive) (e1 e2 : Z) :
  eqb (S754_finite s1 m1 e1) (S754_finite s2 m2 e2) = true ->
  s1 = s2 /\ m1 = m2 /\ e1 = e2.
Proof.
  unfold eqb, SFeqb, SFcompare.
  destruct s1, s2; try discriminate;
    destruct (Z.compare_spec e1 e2) as [He|He|He]; try discriminate;
    destruct (Pos.compare_cont Eq m1 m2) eqn:Hm; try discriminate;
    intros _; apply Pos.compare_eq in Hm; now repeat split.
Qed.

(** The difference of two floats is a zero exactly when both are finite
    and compare equal. *)
Lemma sub_zero_iff (a b : float) :
  valid a = true -> valid b = true ->
  is_zero (sub a b) = true <-> is_finite a = true /\ eqb a b = true.
Proof.
  intros Ha Hb.
  destruct a as [[|]|[|]| |sa ma ea], b as [[|]|[|]| |sb mb eb];
    try solve [unfold sub, eqb, SFeqb; cbn; intuition (discriminate || auto)];
    try solve [destruct sb; unfold sub, eqb, SFeqb; cbn; intuition (discriminate || auto)];
    try solve [destruct sa; unfold sub, eqb, SFeqb; cbn; intuition (discriminate || auto)].
  apply valid_finite in Ha, Hb. destruct Ha as [Ha _], Hb as [Hb _].
  unfold sub, SFsub. split.
  - intros Hz. split; [reflexivity|].
    assert (Hd : cond_Zopp sa (Zpos (fst (shl_align ma ea (Z.min ea eb))))
                 - cond_Zopp sb (Zpos (fst (shl_align mb eb (Z.min ea eb)))) = 0).
    { match goal with |- ?d = 0 => destruct (Z.eq_dec d 0) as [|Hne] end;
        [assumption|].
      rewrite binary_normalize_nonzero in Hz; [discriminate|assumption|].
      rewrite fexp_value in Ha, Hb. rewrite emin_value. lia. }
    apply cond_Zopp_sub_zero in Hd. destruct Hd as [-> Hm].
    apply (f_equal Zpos) in Hm. rewrite !shl_align_value in Hm by lia.
    destruct (canonical_unique ma mb ea eb Ha Hb Hm) as [-> ->].
    apply eqb_finite_refl.
  - intros [_ He]. apply eqb_finite_eq in He. destruct He as (-> & -> & ->).
    now rewrite Z.sub_diag.
Qed.

(** *** Rounding gives well-formed numbers *)

Lemma Zdigits2_nonneg (m : Z) : 0 <= Zdigits2 m.
Proof. destruct m; cbn; lia. Qed.

Lemma Zdigits2_le (a b : Z) : 0 <= a <= b -> Zdigits2 a <= Zdigits2 b.
Proof.
  intros [Ha Hab]. destruct (Z.eq_dec a 0) as [->|Hne].
  - apply Zdigits2_nonneg.
  - rewrite !Zdigits2_log2 by lia. pose proof (Z.log2_le_mono a b Hab). lia.
Qed.

Lemma Zdigits2_div_pow2 (m n : Z) :
  0 < m -> 0 <= n -> 0 < m / 2 ^ n -> Zdigits2 (m / 2 ^ n) = Zdigits2 m - n.
Proof.
  intros Hm Hn Hq. rewrite !Zdigits2_log2 by assumption.
  rewrite <- Z.shiftr_div_pow2 in * by assumption.
  rewrite Z.log2_shiftr by assumption.
  assert (0 <= Z.log2 m - n); [|lia].
  destruct (Z.le_gt_cases n (Z.log2 m)) as [|Hlt]; [lia|].
  rewrite Z.shiftr_eq_0 in Hq; lia.
Qed.

Lemma div_pow2_zero_digits (m n : Z) :
  0 < m -> 0 <= n -> m / 2 ^ n = 0 -> Zdigits2 m <= n.
Proof.
  intros Hm Hn Hq. rewrite Zdigits2_log2 by assumption.
  destruct (Z.le_gt_cases n (Z.log2 m)) as [Hle|]; [|lia].
  exfalso.
  assert (0 < m / 2 ^ n); [|lia].
  apply Z.div_str_pos. split; [apply Z.pow_pos_nonneg; lia|].
  transitivity (2 ^ Z.log2 m); [now apply Z.pow_le_mono_r | now apply Z.log2_spec].
Qed.

(** A mantissa with enough digits for its exponent comes out of
    [shr_fexp] canonical. *)
Lemma shr_fexp_canonical (m e : Z) (l : location) :
  0 <= m -> e <= fexp (Zdigits2 m + e) ->
  0 <= shr_m (fst (shr_fexp prec emax m e l))
  /\ snd (shr_fexp prec emax m e l)
     = fexp (Zdigits2 (shr_m (fst (shr_fexp prec emax m e l)))
             + snd (shr_fexp prec emax m e l)).
Proof.
  intros Hm He.
  destruct (shr_fexp_spec m e l Hm) as [-> ->].
  rewrite Z.max_l by lia.
  set (n := fexp (Zdigits2 m + e) - e) in *.
  assert (Hn : 0 <= n) by (subst n; lia).
  assert (Hq : 0 <= m / 2 ^ n) by (apply Z.div_pos; [lia | apply Z.pow_pos_nonneg; lia]).
  split; [exact Hq|].
  destruct (Z.eq_dec m 0) as [->|Hm0].
  - rewrite Z.div_0_l by (apply Z.pow_nonzero; lia).
    subst n. cbn [Zdigits2] in *. rewrite !fexp_value in *. lia.
  - destruct (Z.eq_dec (m / 2 ^ n) 0) as [H0|H0].
    + rewrite H0. cbn [Zdigits2].
      pose proof (div_pow2_zero_digits m n ltac:(lia) Hn H0).
      subst n. rewrite !fexp_value in *. lia.
    + rewrite Zdigits2_div_pow2 by lia.
      subst n. rewrite !fexp_value in *. lia.
Qed.

Lemma round_nearest_even_bounds (m : Z) (l : location) :
  m <= round_nearest_even m l <= m + 1.
Proof.
  destruct l as [|[| |]]; cbn [round_nearest_even]; try lia.
  destruct (Z.even m); lia.
Qed.

Lemma fexp_le (a b : Z) : a <= b -> fexp a <= fexp b.
Proof. rewrite !fexp_value. lia. Qed.

(** Rounding a mantissa that is not negative and has enough digits for
    its exponent gives a well-formed number. *)
Lemma binary_round_aux_valid (s : bool) (m e : Z) (l : location) :
  0 <= m -> e <= fexp (Zdigits2 m + e) ->
  valid (binary_round_aux prec emax s m e l) = true.
Proof.
  intros Hm He. unfold binary_round_aux.
  destruct (shr_fexp_canonical m e l Hm He) as [Hm1 He1].
  destruct (shr_fexp prec emax m e l) as [r1 e1]. cbn [fst snd] in Hm1, He1.
  pose proof (round_nearest_even_bounds (shr_m r1) (loc_of_shr_record r1)) as Hr.
  set (m1 := round_nearest_even (shr_m r1) (loc_of_shr_record r1)) in *.
  assert (He1' : e1 <= fexp (Zdigits2 m1 + e1)).
  { rewrite He1 at 1. apply fexp_le.
    pose proof (Zdigits2_le (shr_m r1) m1 ltac:(lia)). lia. }
  destruct (shr_fexp_canonical m1 e1 loc_Exact ltac:(lia) He1') as [Hm2 He2].
  destruct (shr_fexp prec emax m1 e1 loc_Exact) as [r2 e2]. cbn [fst snd] in Hm2, He2.
  destruct (shr_m r2) as [|p|p]; try reflexivity.
  destruct (e2 <=? emax - prec) eqn:Hb; [|reflexivity].
  unfold valid, valid_binary, bounded, canonical_mantissa.
  rewrite Hb, andb_true_r. apply Z.eqb_eq. cbn [Zdigits2] in He2. now symmetry.
Qed.

Lemma binary_round_aux_not_nan (s : bool) (m e : Z) (l : location) :
  0 <= m -> is_nan (binary_round_aux prec emax s m e l) = false.
Proof.
  intros Hm. unfold binary_round_aux.
  destruct (shr_fexp_spec m e l Hm) as [Hm1 _].
  destruct (shr_fexp prec emax m e l) as [r1 e1]. cbn [fst] in Hm1.
  assert (H1 : 0 <= shr_m r1).
  { rewrite Hm1. apply Z.div_pos; [lia | apply Z.pow_pos_nonneg; lia]. }
  pose proof (round_nearest_even_bounds (shr_m r1) (loc_of_shr_record r1)) as Hr.
  set (m1 := round_nearest_even (shr_m r1) (loc_of_shr_record r1)) in *.
  destruct (shr_fexp_spec m1 e1 loc_Exact ltac:(lia)) as [Hm2 _].
  destruct (shr_fexp prec emax m1 e1 loc_Exact) as [r2 e2]. cbn [fst] in Hm2.
  assert (H2 : 0 <= shr_m r2).
  { rewrite Hm2. apply Z.div_pos; [lia | apply Z.pow_pos_nonneg; lia]. }
  destruct (shr_m r2) as [|p|p]; try reflexivity; [|lia].
  now destruct (e2 <=? emax - prec).
Qed.

(** *** Division and square root *)

Lemma log2_div_lower (a b : Z) :
  0 < b -> 0 < a / b -> Z.log2 a - Z.log2 b - 1 <= Z.log2 (a / b).
Proof.
  intros Hb Hq.
  assert (Ha : 0 < a).
  { destruct (Z.lt_ge_cases 0 a) as [|Hle]; [assumption|].
    pose proof (Z.div_le_upper_bound a b 0 Hb). lia. }
  destruct (Z.le_gt_cases 0 (Z.log2 a - Z.log2 b - 1)) as [Hk|Hk];
    [|pose proof (Z.log2_nonneg (a / b)); lia].
  rewrite <- (Z.log2_pow2 (Z.log2 a - Z.log2 b - 1)) at 1 by assumption.
  apply Z.log2_le_mono, Z.div_le_lower_bound; [assumption|].
  pose proof (Z.log2_spec a Ha) as [Hlo _].
  pose proof (Z.log2_spec b Hb) as [_ Hhi].
  assert (Hp : 0 < 2 ^ (Z.log2 a - Z.log2 b - 1)) by (apply Z.pow_pos_nonneg; lia).
  replace (Z.log2 a) with ((Z.log2 a - Z.log2 b - 1) + Z.succ (Z.log2 b)) in Hlo at 1 by lia.
  rewrite Z.pow_add_r in Hlo by (pose proof (Z.log2_nonneg b); lia).
  nia.
Qed.

(** The quotient the division core hands to the rounding has enough
    digits for its exponent. *)
Lemma SFdiv_core_binary_digits (m1 m2 : positive) (e1 e2 : Z) :
  let '(q, e', _) := SFdiv_core_binary prec emax (Zpos m1) e1 (Zpos m2) e2 in
  0 <= q /\ e' <= fexp (Zdigits2 q + e').
Proof.
  unfold SFdiv_core_binary.
  rewrite !Zdigits2_log2 by lia.
  set (X := Z.log2 (Zpos m1) + 1 + e1 - (Z.log2 (Zpos m2) + 1 + e2)).
  set (e' := Z.min (fexp X) (e1 - e2)).
  set (s := e1 - e2 - e').
  assert (Hs : 0 <= s) by (subst s e'; lia).
  set (m' := match s with
             | 0 => Zpos m1
             | Zpos _ => Z.shiftl (Zpos m1) s
             | Zneg _ => 0
             end).
  assert (Hm' : m' = Zpos m1 * 2 ^ s).
  { subst m'. destruct s as [|p|p] eqn:Hsv; [lia| |lia].
    now rewrite Z.shiftl_mul_pow2. }
  assert (Hlog : Z.log2 m' = Z.log2 (Zpos m1) + s).
  { rewrite Hm', Z.log2_mul_pow2 by lia. lia. }
  assert (Hpos : 0 < m').
  { rewrite Hm'. apply Z.mul_pos_pos; [lia | apply Z.pow_pos_nonneg; lia]. }
  assert (Hq : fst (Z.div_eucl m' (Zpos m2)) = m' / Zpos m2) by reflexivity.
  destruct (Z.div_eucl m' (Zpos m2)) as [q r]. cbn [fst] in Hq. subst q.
  assert (Hq0 : 0 <= m' / Zpos m2) by (apply Z.div_pos; lia).
  split; [exact Hq0|].
  destruct (Z.eq_dec (m' / Zpos m2) 0) as [H0|H0].
  - rewrite H0. cbn [Zdigits2].
    assert (Hlt : m' < Zpos m2).
    { destruct (Z.lt_ge_cases m' (Zpos m2)) as [|Hge]; [assumption|].
      pose proof (Z.div_le_lower_bound m' (Zpos m2) 1 ltac:(lia) ltac:(lia)). lia. }
    pose proof (Z.log2_le_mono m' (Zpos m2) ltac:(lia)) as Hmono.
    subst s e' X. rewrite !fexp_value in *. lia.
  - rewrite Zdigits2_log2 by lia.
    pose proof (log2_div_lower m' (Zpos m2) ltac:(lia) ltac:(lia)) as Hlow.
    transitivity (fexp X); [subst e'; lia|].
    apply fexp_le. subst X s. lia.
Qed.

(** The quotient of two floats is a well-formed float. *)
Lemma div_valid (a b : float) : valid (div a b) = true.
Proof.
  destruct a as [sa|sa| |sa ma ea], b as [sb|sb| |sb mb eb]; try reflexivity.
  unfold div, SFdiv.
  pose proof (SFdiv_core_binary_digits ma mb ea eb) as H.
  destruct (SFdiv_core_binary prec emax (Zpos ma) ea (Zpos mb) eb) as [[q e'] l].
  destruct H as [Hq He]. now apply binary_round_aux_valid.
Qed.

(** The square root of a float that is not negative is a number. *)
Lemma sqrt_not_nan (a : float) :
  match a with
  | S754_zero _ | S754_finite false _ _ | S754_infinity false => True
  | _ => False
  end ->
  is_nan (sqrt a) = false.
Proof.
  destruct a as [sa|[|]| |[|] ma ea]; try easy. intros _.
  unfold sqrt, SFsqrt, SFsqrt_core_binary.
  set (e' := Z.min _ _). set (s := ea - 2 * e').
  set (m' := match s with
             | 0 => Zpos ma
             | Zpos _ => Z.shiftl (Zpos ma) s
             | Zneg _ => 0
             end).
  assert (Hm' : 0 <= m').
  { subst m'. destruct s as [|p|p]; try lia. apply Z.shiftl_nonneg. lia. }
  pose proof (Z.sqrtrem_spec m' Hm') as H.
  destruct (Z.sqrtrem m') as [q r].
  apply binary_round_aux_not_nan. lia.
Qed.

(** *** The magnitude of a rounded number *)

Lemma shr_fexp_mag (m e : Z) (l : location) :
  0 < m -> emin < Zdigits2 m + e ->
  0 < shr_m (fst (shr_fexp prec emax m e l))
  /\ Zdigits2 (shr_m (fst (shr_fexp prec emax m e l))) + snd (shr_fexp prec emax m e l)
     = Zdigits2 m + e.
Proof.
  intros Hm He.
  destruct (shr_fexp_spec m e l) as [-> ->]; [lia|].
  set (n := Z.max (fexp (Zdigits2 m + e) - e) 0).
  assert (Hn : 0 <= n <= Z.log2 m).
  { subst n. rewrite Zdigits2_log2, fexp_value, emin_value in * by assumption.
    pose proof (Z.log2_nonneg m). lia. }
  assert (Hq : 0 < m / 2 ^ n).
  { apply Z.div_str_pos. split; [apply Z.pow_pos_nonneg; lia|].
    transitivity (2 ^ Z.log2 m); [apply Z.pow_le_mono_r; lia | now apply Z.log2_spec]. }
  split; [exact Hq|].
  rewrite Zdigits2_div_pow2 by lia. lia.
Qed.

Lemma Zdigits2_succ (m : Z) : 0 < m -> Zdigits2 (m + 1) <= Zdigits2 m + 1.
Proof.
  intros Hm. rewrite !Zdigits2_log2 by lia.
  replace (m + 1) with (Z.succ m) by lia.
  pose proof (Z.log2_succ_le m). lia.
Qed.

(** Rounding a positive mantissa whose value is above the least
    magnitude gives a non-zero number, finite or infinite; a finite result
    has the magnitude of the mantissa or one more. *)
Lemma binary_round_aux_mag (s : bool) (m e : Z) (l : location) :
  0 < m -> emin < Zdigits2 m + e ->
  match binary_round_aux prec emax s m e l with
  | S754_finite s' m' e' =>
      s' = s /\ Zdigits2 m + e <= Zpos (digits2_pos m') + e' <= Zdigits2 m + e + 1
  | S754_infinity s' => s' = s
  | _ => False
  end.
Proof.
  intros Hm He. unfold binary_round_aux.
  destruct (shr_fexp_mag m e l Hm He) as [Hm1 Hmag1].
  destruct (shr_fexp prec emax m e l) as [r1 e1]. cbn [fst snd] in *.
  pose proof (round_nearest_even_bounds (shr_m r1) (loc_of_shr_record r1)) as Hr.
  set (m1 := round_nearest_even (shr_m r1) (loc_of_shr_record r1)) in *.
  assert (Hd1 : Zdigits2 (shr_m r1) <= Zdigits2 m1 <= Zdigits2 (shr_m r1) + 1).
  { split; [apply Zdigits2_le; lia|].
    destruct (Z.eq_dec m1 (shr_m r1)) as [->|Hne]; [lia|].
    replace m1 with (shr_m r1 + 1) by lia. now apply Zdigits2_succ. }
  destruct (shr_fexp_mag m1 e1 loc_Exact) as [Hm2 Hmag2]; [lia|lia|].
  destruct (shr_fexp prec emax m1 e1 loc_Exact) as [r2 e2]. cbn [fst snd] in *.
  destruct (shr_m r2) as [|p|p] eqn:Hp; try lia.
  cbn [Zdigits2] in *.
  destruct (e2 <=? emax - prec); split; try reflexivity; lia.
Qed.

(** Below the greatest magnitude, rounding a mantissa with enough digits
    for its exponent does not overflow. *)
Lemma binary_round_aux_finite (s : bool) (m e : Z) (l : location) :
  0 < m -> emin < Zdigits2 m + e -> e <= fexp (Zdigits2 m + e) ->
  Zdigits2 m + e + 1 <= emax ->
  is_finite (binary_round_aux prec emax s m e l) = true.
Proof.
  intros Hm He Hc Hmax.
  pose proof (binary_round_aux_mag s m e l Hm He) as Hmag.
  pose proof (binary_round_aux_valid s m e l ltac:(lia) Hc) as Hv.
  destruct (binary_round_aux prec emax s m e l) as [s'|s'| |s' m' e'] eqn:Hr;
    try reflexivity; try contradiction.
  exfalso. revert Hr. unfold binary_round_aux.
  destruct (shr_fexp_mag m e l Hm He) as [Hm1 Hmag1].
  destruct (shr_fexp_canonical m e l ltac:(lia) Hc) as [_ Hc1].
  destruct (shr_fexp prec emax m e l) as [r1 e1]. cbn [fst snd] in *.
  pose proof (round_nearest_even_bounds (shr_m r1) (loc_of_shr_record r1)) as Hb.
  set (m1 := round_nearest_even (shr_m r1) (loc_of_shr_record r1)) in *.
  assert (Hd1 : Zdigits2 (shr_m r1) <= Zdigits2 m1 <= Zdigits2 (shr_m r1) + 1).
  { split; [apply Zdigits2_le; lia|].
    destruct (Z.eq_dec m1 (shr_m r1)) as [->|Hne]; [lia|].
    replace m1 with (shr_m r1 + 1) by lia. now apply Zdigits2_succ. }
  assert (Hc1' : e1 <= fexp (Zdigits2 m1 + e1)).
  { rewrite Hc1 at 1. apply fexp_le. lia. }
  destruct (shr_fexp_mag m1 e1 loc_Exact) as [Hm2 Hmag2]; [lia|lia|].
  destruct (shr_fexp_canonical m1 e1 loc_Exact ltac:(lia) Hc1') as [_ Hc2].
  destruct (shr_fexp prec emax m1 e1 loc_Exact) as [r2 e2]. cbn [fst snd] in *.
  destruct (shr_m r2) as [|p|p] eqn:Hp; try discriminate.
  destruct (e2 <=? emax - prec) eqn:Hle; [discriminate|].
  apply Z.leb_gt in Hle. rewrite fexp_value in Hc2. unfold emax, prec in *. lia.
Qed.


(** *** Floats of integers *)

Lemma shl_align_ready (m : positive) (e : Z) :
  let '(mz, ez) := shl_align m e (fexp (Zpos (digits2_pos m) + e)) in
  ez <= fexp (Zpos (digits2_pos mz) + ez)
  /\ Zpos (digits2_pos mz) + ez = Zpos (digits2_pos m) + e.
Proof.
  unfold shl_align.
  destruct (fexp (Zpos (digits2_pos m) + e) - e) as [|d|d] eqn:Hd.
  - split; lia.
  - split; lia.
  - assert (Hdig : Zpos (digits2_pos (Pos.iter xO m d)) = Zpos (digits2_pos m) + Zpos d).
    { rewrite !digits2_pos_log2, pos_iter_xO, Z.log2_mul_pow2 by lia. lia. }
    rewrite Hdig. split; [|lia].
    replace (Zpos (digits2_pos m) + Zpos d + fexp (Zpos (digits2_pos m) + e))
      with (Zpos (digits2_pos m) + e) by lia.
    lia.
Qed.

(** [float(n)] for an integer that is not zero and below [2^1023] in
    absolute value: a well-formed finite number with the sign of [n] and
    a magnitude between 1 and 1024. *)
Lemma of_Z_finite (n : Z) :
  n <> 0 -> Z.abs n < 2 ^ 1023 ->
  exists m e,
    of_Z n = S754_finite (n <? 0) m e
    /\ valid (of_Z n) = true
    /\ 1 <= Zpos (digits2_pos m) + e <= 1024.
Proof.
  intros Hn Hb.
  assert (H : forall (s : bool) (p : positive),
             Zpos p < 2 ^ 1023 ->
             exists m e,
               binary_round prec emax s p 0 = S754_finite s m e
               /\ valid (binary_round prec emax s p 0) = true
               /\ 1 <= Zpos (digits2_pos m) + e <= 1024).
  { intros s p Hp. unfold binary_round.
    pose proof (shl_align_ready p 0) as Hready.
    destruct (shl_align p 0 (fexp (Zpos (digits2_pos p) + 0))) as [mz ez].
    destruct Hready as [Hc Hmag].
    assert (Hdig : 1 <= Zpos (digits2_pos p) <= 1023).
    { rewrite digits2_pos_log2. pose proof (Z.log2_nonneg (Zpos p)).
      pose proof (proj1 (Z.log2_lt_pow2 (Zpos p) 1023 ltac:(lia)) Hp). lia. }
    assert (Hmin : emin < Zdigits2 (Zpos mz) + ez)
      by (cbn [Zdigits2]; rewrite emin_value; lia).
    pose proof (binary_round_aux_mag s (Zpos mz) ez loc_Exact ltac:(lia) Hmin) as Hm.
    pose proof (binary_round_aux_valid s (Zpos mz) ez loc_Exact ltac:(lia) Hc) as Hv.
    pose proof (binary_round_aux_finite s (Zpos mz) ez loc_Exact ltac:(lia) Hmin Hc) as Hf.
    cbn [Zdigits2] in *.
    destruct (binary_round_aux prec emax s (Zpos mz) ez loc_Exact)
      as [s'|s'| |s' m' e']; try contradiction.
    - specialize (Hf ltac:(unfold emax; lia)). discriminate Hf.
    - destruct Hm as [-> Hm]. exists m', e'. repeat split; try assumption; lia. }
  unfold of_Z, binary_normalize.
  destruct n as [|p|p]; [easy| |]; cbn [Z.ltb Z.compare]; apply H; cbn [Z.abs] in Hb; lia.
Qed.

(** *** Products and quotients that cannot vanish *)

Lemma mul_two_is_zero (a : float) :
  valid a = true -> is_zero (mul two a) = is_zero a.
Proof.
  intros Hv. destruct a as [s|s| |s m e]; try reflexivity.
  apply valid_finite in Hv. destruct Hv as [Hc _].
  unfold mul, two, SFmul. cbn [is_zero xorb].
  assert (Hmin : emin < Zdigits2 (Zpos (4503599627370496 * m)) + (-51 + e)).
  { cbn [Zdigits2]. rewrite digits2_pos_log2, Pos2Z.inj_mul.
    change (Zpos 4503599627370496) with (2 ^ 52).
    rewrite Z.mul_comm, Z.log2_mul_pow2 by lia.
    rewrite fexp_value in Hc. rewrite emin_value.
    pose proof (Z.log2_nonneg (Zpos m)). lia. }
  pose proof (binary_round_aux_mag s (Zpos (4503599627370496 * m)) (-51 + e)
                loc_Exact ltac:(lia) Hmin) as Hm.
  now destruct (binary_round_aux prec emax s _ _ loc_Exact).
Qed.

Lemma log2_div_upper (a b : Z) :
  0 < b -> 0 < a / b -> Z.log2 (a / b) <= Z.log2 a - Z.log2 b.
Proof.
  intros Hb Hq.
  assert (Ha : 0 < a).
  { destruct (Z.lt_ge_cases 0 a) as [|Hle]; [assumption|].
    pose proof (Z.div_le_upper_bound a b 0 Hb). lia. }
  pose proof (Z.mul_div_le a b Hb) as Hle.
  pose proof (Z.log2_le_mono _ _ Hle) as Hmono.
  pose proof (Z.log2_mul_below b (a / b) Hb Hq). lia.
Qed.

(** The quotient of two finite numbers whose magnitudes differ by more
    than the least magnitude is not zero, and its magnitude is within
    two of the difference. *)
Lemma div_magnitude (sa sb : bool) (ma mb : positive) (ea eb : Z) :
  let X := (Zpos (digits2_pos ma) + ea) - (Zpos (digits2_pos mb) + eb) in
  emin < X ->
  match div (S754_finite sa ma ea) (S754_finite sb mb eb) with
  | S754_finite s m e => X <= Zpos (digits2_pos m) + e <= X + 2
  | S754_infinity _ => emax <= X + 2
  | _ => False
  end.
Proof.
  intros X HX. unfold div, SFdiv.
  pose proof (SFdiv_core_binary_digits ma mb ea eb) as Hcore.
  unfold SFdiv_core_binary in *.
  assert (HXv : X = Z.log2 (Zpos ma) + 1 + ea - (Z.log2 (Zpos mb) + 1 + eb))
    by (subst X; now rewrite !digits2_pos_log2).
  clearbody X.
  rewrite !Zdigits2_log2 in * by lia.
  set (e' := Z.min (fexp (Z.log2 (Zpos ma) + 1 + ea - (Z.log2 (Zpos mb) + 1 + eb)))
                   (ea - eb)) in *.
  set (s := ea - eb - e') in *.
  assert (Hs : 0 <= s) by (subst s e'; lia).
  set (m' := match s with
             | 0 => Zpos ma
             | Zpos _ => Z.shiftl (Zpos ma) s
             | Zneg _ => 0
             end) in *.
  assert (Hm' : m' = Zpos ma * 2 ^ s).
  { subst m'. destruct s as [|p|p] eqn:Hsv; [lia| |lia].
    now rewrite Z.shiftl_mul_pow2. }
  assert (Hlog : Z.log2 m' = Z.log2 (Zpos ma) + s).
  { rewrite Hm', Z.log2_mul_pow2 by lia. lia. }
  assert (Hpos : 0 < m').
  { rewrite Hm'. apply Z.mul_pos_pos; [lia | apply Z.pow_pos_nonneg; lia]. }
  assert (Hq : fst (Z.div_eucl m' (Zpos mb)) = m' / Zpos mb) by reflexivity.
  destruct (Z.div_eucl m' (Zpos mb)) as [q r]. cbn [fst] in Hq. subst q.
  destruct Hcore as [Hq0 Hc].
  assert (Hgap : Z.log2 (Zpos mb) + 1 <= Z.log2 m').
  { subst s e' X. rewrite fexp_value, emin_value in *. lia. }
  assert (Hq1 : 0 < m' / Zpos mb).
  { apply Z.div_str_pos. split; [lia|].
    pose proof (Z.log2_spec (Zpos mb) ltac:(lia)) as [_ Hhi].
    pose proof (Z.log2_spec m' Hpos) as [Hlo _].
    assert (2 ^ Z.succ (Z.log2 (Zpos mb)) <= 2 ^ Z.log2 m')
      by (apply Z.pow_le_mono_r; lia).
    lia. }
  pose proof (log2_div_lower m' (Zpos mb) ltac:(lia) Hq1) as Hlow.
  pose proof (log2_div_upper m' (Zpos mb) ltac:(lia) Hq1) as Hup.
  assert (Hmin : emin < Zdigits2 (m' / Zpos mb) + e').
  { rewrite Zdigits2_log2 by assumption. subst s X. lia. }
  pose proof (binary_round_aux_mag (xorb sa sb) (m' / Zpos mb) e'
                (new_location (Zpos mb) r) Hq1 Hmin) as Hmag.
  pose proof (binary_round_aux_finite (xorb sa sb) (m' / Zpos mb) e'
                (new_location (Zpos mb) r) Hq1 Hmin Hc) as Hfin.
  rewrite Zdigits2_log2 in Hmag, Hfin by assumption.
  destruct (binary_round_aux prec emax (xorb sa sb) (m' / Zpos mb) e'
              (new_location (Zpos mb) r)) as [s0|s0| |s0 m0 e0]; try contradiction.
  - destruct (Z.le_gt_cases emax (X + 2)) as [|Hlt]; [assumption|].
    exfalso. assert (Hf : is_finite (S754_infinity s0) = true); [|discriminate Hf].
    apply Hfin. subst s X. lia.
  - destruct Hmag as [_ Hmag]. subst s X. lia.
Qed.

(** A finite number divided by itself is one. *)
Lemma div_same (s : bool) (m : positive) (e : Z) :
  div (S754_finite s m e) (S754_finite s m e) = one.
Proof.
  unfold div, SFdiv, SFdiv_core_binary.
  replace (Zdigits2 (Zpos m) + e - (Zdigits2 (Zpos m) + e)) with 0 by lia.
  rewrite Z.sub_diag.
  change (Z.min (fexp 0) 0) with (-53). change (0 - -53) with 53.
  rewrite Z.shiftl_mul_pow2 by lia.
  assert (Hdiv : Z.div_eucl (Zpos m * 2 ^ 53) (Zpos m) = (2 ^ 53, 0)).
  { pose proof (Z.div_eucl_eq (Zpos m * 2 ^ 53) (Zpos m) ltac:(lia)) as Heq.
    pose proof (Z.mod_pos_bound (Zpos m * 2 ^ 53) (Zpos m) ltac:(lia)) as Hmod.
    unfold Z.modulo in Hmod.
    destruct (Z.div_eucl (Zpos m * 2 ^ 53) (Zpos m)) as [q r].
    assert (r = 0 /\ q = 2 ^ 53) as [-> ->]; [|reflexivity].
    assert (Hr : Zpos m * (2 ^ 53 - q) = r) by lia.
    assert (2 ^ 53 - q = 0) by nia. lia. }
  rewrite Hdiv. destruct s; destruct (Z.even (Zpos m)) eqn:Hev;
    unfold new_location; rewrite Hev; reflexivity.
Qed.

(** *** Signs *)

Lemma binary_round_aux_opp (s : bool) (m e : Z) (l : location) :
  binary_round_aux prec emax (negb s) m e l = opp (binary_round_aux prec emax s m e l).
Proof.
  unfold binary_round_aux.
  destruct (shr_fexp prec emax m e l) as [r1 e1].
  destruct (shr_fexp prec emax _ e1 loc_Exact) as [r2 e2].
  destruct (shr_m r2); try reflexivity.
  now destruct (e2 <=? emax - prec).
Qed.

Lemma mul_opp_l (a b : float) : mul (opp a) b = opp (mul a b).
Proof.
  destruct a as [sa|sa| |sa ma ea], b as [sb|sb| |sb mb eb];
    try reflexivity; try (destruct sa, sb; reflexivity).
  unfold mul, opp, SFmul, SFopp at 1.
  replace (xorb (negb sa) sb) with (negb (xorb sa sb)) by now destruct sa, sb.
  apply binary_round_aux_opp.
Qed.

Lemma sub_zero_l (s : bool) (a : float) :
  is_zero a = false -> sub (S754_zero s) a = opp a.
Proof. destruct a as [sa|sa| |sa ma ea]; try discriminate; reflexivity. Qed.

Lemma add_zero_l (s : bool) (a : float) :
  is_zero a = false -> add (S754_zero s) a = a.
Proof. destruct a as [sa|sa| |sa ma ea]; try discriminate; reflexivity. Qed.

(** *** Quotients of integers *)

(** [float(n)] for an integer that is not zero: infinite, or a
    well-formed finite number with the sign of [n] and a magnitude
    between 1 and 1024. *)
Lemma of_Z_shape (n : Z) :
  n <> 0 ->
  match of_Z n with
  | S754_finite s m e =>
      s = (n <? 0) /\ valid (of_Z n) = true /\ 1 <= Zpos (digits2_pos m) + e <= 1024
  | S754_infinity _ => True
  | _ => False
  end.
Proof.
  intros Hn.
  assert (H : forall (s : bool) (p : positive),
             match binary_round prec emax s p 0 with
             | S754_finite s' m e =>
                 s' = s /\ valid (binary_round prec emax s p 0) = true
                 /\ 1 <= Zpos (digits2_pos m) + e <= 1024
             | S754_infinity _ => True
             | _ => False
             end).
  { intros s p. unfold binary_round.
    pose proof (shl_align_ready p 0) as Hready.
    destruct (shl_align p 0 (fexp (Zpos (digits2_pos p) + 0))) as [mz ez].
    destruct Hready as [Hc Hmag].
    assert (Hdig : 1 <= Zpos (digits2_pos p))
      by (rewrite digits2_pos_log2; pose proof (Z.log2_nonneg (Zpos p)); lia).
    assert (Hmin : emin < Zdigits2 (Zpos mz) + ez)
      by (cbn [Zdigits2]; rewrite emin_value; lia).
    pose proof (binary_round_aux_mag s (Zpos mz) ez loc_Exact ltac:(lia) Hmin) as Hm.
    pose proof (binary_round_aux_valid s (Zpos mz) ez loc_Exact ltac:(lia) Hc) as Hv.
    cbn [Zdigits2] in *.
    destruct (binary_round_aux prec emax s (Zpos mz) ez loc_Exact)
      as [s'|s'| |s' m' e']; try contradiction; [exact I|].
    destruct Hm as [-> Hm]. split; [reflexivity|]. split; [exact Hv|].
    apply valid_finite in Hv. destruct Hv as [Hcan Hbd].
    rewrite fexp_value in Hcan. unfold emax, prec in Hbd. lia. }
  unfold of_Z, binary_normalize.
  destruct n as [|p|p]; [easy| |]; cbn [Z.ltb Z.compare]; apply H.
Qed.

(** The quotient of the floats of two integers that are not zero is not
    zero. *)
Lemma div_of_Z_nonzero (a b : Z) :
  a <> 0 -> b <> 0 ->
  is_finite (of_Z a) = true -> is_finite (of_Z b) = true ->
  is_zero (div (of_Z a) (of_Z b)) = false.
Proof.
  intros Ha Hb Hfa Hfb.
  pose proof (of_Z_shape a Ha) as Sa. pose proof (of_Z_shape b Hb) as Sb.
  destruct (of_Z a) as [sa|sa| |sa ma ea]; try contradiction; try discriminate Hfa.
  destruct (of_Z b) as [sb|sb| |sb mb eb]; try contradiction; try discriminate Hfb.
  destruct Sa as (_ & _ & Ma), Sb as (_ & _ & Mb).
  pose proof (div_magnitude sa sb ma mb ea eb) as H. cbv zeta in H.
  specialize (H ltac:(rewrite emin_value; lia)).
  now destruct (div (S754_finite sa ma ea) (S754_finite sb mb eb)).
Qed.

(** The quotient of the floats of two integers that are not zero and
    below [2^1021] in absolute value is finite, and so is not zero and
    has an inverse that is not zero. *)
Lemma div_of_Z_inverse (a b : Z) :
  0 < Z.abs a < 2 ^ 1021 -> 0 < Z.abs b < 2 ^ 1021 ->
  is_zero (div (of_Z a) (of_Z b)) = false
  /\ is_finite (div (of_Z a) (of_Z b)) = true
  /\ is_zero (div one (div (of_Z a) (of_Z b))) = false.
Proof.
  intros Ha Hb.
  assert (H1023 : (2 : Z) ^ 1021 < 2 ^ 1023) by (apply Z.pow_lt_mono_r; lia).
  destruct (of_Z_finite a ltac:(lia) ltac:(lia)) as (ma & ea & Ea & _ & Ma).
  destruct (of_Z_finite b ltac:(lia) ltac:(lia)) as (mb & eb & Eb & _ & Mb).
  assert (Mau : Zpos (digits2_pos ma) + ea <= 1022).
  { revert Ea. unfold of_Z, binary_normalize.
    assert (H : forall (s : bool) (p : positive) s' m e,
               Zpos p < 2 ^ 1021 ->
               binary_round prec emax s p 0 = S754_finite s' m e ->
               Zpos (digits2_pos m) + e <= 1022).
    { intros s p s' m e Hp. unfold binary_round.
      pose proof (shl_align_ready p 0) as Hready.
      destruct (shl_align p 0 (fexp (Zpos (digits2_pos p) + 0))) as [mz ez].
      destruct Hready as [Hc Hmag].
      assert (Hdig : 1 <= Zpos (digits2_pos p) <= 1021).
      { rewrite digits2_pos_log2. pose proof (Z.log2_nonneg (Zpos p)).
        pose proof (proj1 (Z.log2_lt_pow2 (Zpos p) 1021 ltac:(lia)) Hp). lia. }
      assert (Hmin : emin < Zdigits2 (Zpos mz) + ez)
        by (cbn [Zdigits2]; rewrite emin_value; lia).
      pose proof (binary_round_aux_mag s (Zpos mz) ez loc_Exact ltac:(lia) Hmin) as Hm.
      cbn [Zdigits2] in *. intros E. rewrite E in Hm. lia. }
    destruct a as [|p|p]; [lia| |]; intros E; eapply H; try exact E; cbn [Z.abs] in Ha; lia. }
  rewrite Ea, Eb.
  pose proof (div_magnitude (a <? 0) (b <? 0) ma mb ea eb) as H. cbv zeta in H.
  specialize (H ltac:(rewrite emin_value; lia)).
  pose proof (div_valid (S754_finite (a <? 0) ma ea) (S754_finite (b <? 0) mb eb)) as Hv.
  destruct (div (S754_finite (a <? 0) ma ea) (S754_finite (b <? 0) mb eb))
    as [s|s| |s m e] eqn:Hd; try contradiction.
  - unfold emax in H. lia.
  - split; [reflexivity|]. split; [reflexivity|].
    apply valid_finite in Hv. destruct Hv as [Hcan Hbd].
    rewrite fexp_value in Hcan. unfold emax, prec in Hbd.
    pose proof (div_magnitude false s 4503599627370496 m (-52) e) as H1.
    cbv zeta in H1. change (Zpos (digits2_pos 4503599627370496)) with 53 in H1.
    specialize (H1 ltac:(rewrite emin_value; lia)).
    change one with (S754_finite false 4503599627370496 (-52)).
    now destruct (div (S754_finite false 4503599627370496 (-52)) (S754_finite s m e)).
Qed.

(** An integer of [2^1024] or more in absolute value has no float. *)
Lemma of_Z_huge (n : Z) : 2 ^ 1024 <= Z.abs n -> is_finite (of_Z n) = false.
Proof.
  intros Hn.
  assert (H : forall (s : bool) (p : positive),
             2 ^ 1024 <= Zpos p -> is_finite (binary_round prec emax s p 0) = false).
  { intros s p Hp. unfold binary_round.
    pose proof (shl_align_ready p 0) as Hready.
    destruct (shl_align p 0 (fexp (Zpos (digits2_pos p) + 0))) as [mz ez].
    destruct Hready as [Hc Hmag].
    assert (Hdig : 1025 <= Zpos (digits2_pos p)).
    { rewrite digits2_pos_log2.
      pose proof (Z.log2_le_mono _ _ Hp) as Hl.
      rewrite Z.log2_pow2 in Hl by lia. lia. }
    assert (Hmin : emin < Zdigits2 (Zpos mz) + ez)
      by (cbn [Zdigits2]; rewrite emin_value; lia).
    pose proof (binary_round_aux_mag s (Zpos mz) ez loc_Exact ltac:(lia) Hmin) as Hm.
    pose proof (binary_round_aux_valid s (Zpos mz) ez loc_Exact ltac:(lia) Hc) as Hv.
    cbn [Zdigits2] in *.
    destruct (binary_round_aux prec emax s (Zpos mz) ez loc_Exact)
      as [s'|s'| |s' m' e']; try contradiction; [reflexivity|].
    exfalso. apply valid_finite in Hv. destruct Hv as [Hcan Hbd].
    rewrite fexp_value in Hcan. unfold emax, prec in Hbd. lia. }
  assert (Hpos : 0 < 2 ^ 1024) by (apply Z.pow_pos_nonneg; lia).
  unfold of_Z, binary_normalize.
  destruct n as [|p|p]; cbn [Z.abs] in Hn; [lia | now apply H | now apply H].
Qed.

(** *** Rounding a mantissa of 53 or 54 digits *)

Lemma digits_53 (q : Z) : 2 ^ 52 <= q < 2 ^ 53 -> Zdigits2 q = 53.
Proof.
  intros Hq. rewrite Zdigits2_log2 by lia.
  rewrite (Z.log2_unique q 52); lia.
Qed.

Lemma digits_54 (q : Z) : 2 ^ 53 <= q < 2 ^ 54 -> Zdigits2 q = 54.
Proof.
  intros Hq. rewrite Zdigits2_log2 by lia.
  rewrite (Z.log2_unique q 53); lia.
Qed.

Lemma loc_of_shr_record_of_loc (m : Z) (l : location) :
  loc_of_shr_record (shr_record_of_loc m l) = l.
Proof. now destruct l as [|[| |]]. Qed.

Lemma shr_fexp_53 (q e : Z) (l : location) :
  2 ^ 52 <= q < 2 ^ 53 -> -1074 <= e ->
  shr_fexp prec emax q e l = (shr_record_of_loc q l, e).
Proof.
  intros Hq He. unfold shr_fexp. rewrite (digits_53 q Hq), fexp_value.
  replace (Z.max (53 + e - 53) (-1074) - e) with 0 by lia. reflexivity.
Qed.

Lemma shr_fexp_54 (q e : Z) (l : location) :
  2 ^ 53 <= q < 2 ^ 54 -> -1074 <= e ->
  shr_fexp prec emax q e l = (shr_1 (shr_record_of_loc q l), e + 1).
Proof.
  intros Hq He. unfold shr_fexp. rewrite (digits_54 q Hq), fexp_value.
  replace (Z.max (54 + e - 53) (-1074) - e) with 1 by lia. reflexivity.
Qed.

(** A mantissa of 53 digits is rounded in place; when that carries into
    a 54th digit the result is the next power of two. *)
Lemma binary_round_aux_53 (s : bool) (q e : Z) (l : location) :
  2 ^ 52 <= q < 2 ^ 53 -> -1074 <= e <= 970 ->
  binary_round_aux prec emax s q e l
  = if round_nearest_even q l <? 2 ^ 53
    then S754_finite s (Z.to_pos (round_nearest_even q l)) e
    else S754_finite s 4503599627370496 (e + 1).
Proof.
  intros Hq He. unfold binary_round_aux.
  rewrite (shr_fexp_53 q e l Hq) by lia.
  rewrite loc_of_shr_record_of_loc, shr_m_of_loc.
  pose proof (round_nearest_even_bounds q l) as Hr.
  destruct (Z.ltb_spec (round_nearest_even q l) (2 ^ 53)) as [Hlt | Hge].
  - rewrite (shr_fexp_53 _ e loc_Exact) by lia. cbn [shr_record_of_loc shr_m].
    destruct (round_nearest_even q l) as [|p|p] eqn:Hp; try lia.
    cbn [Z.to_pos]. unfold emax, prec.
    destruct (Z.leb_spec e (1024 - 53)); [reflexivity | lia].
  - replace (round_nearest_even q l) with (2 ^ 53) by lia.
    rewrite (shr_fexp_54 _ e loc_Exact) by lia. cbn [shr_record_of_loc].
    change (shr_m (shr_1 {| shr_m := 2 ^ 53; shr_r := false; shr_s := false |}))
      with (Zpos 4503599627370496).
    unfold emax, prec.
    destruct (Z.leb_spec (e + 1) (1024 - 53)); [reflexivity | lia].
Qed.

(** A mantissa of 54 digits first loses its last digit to the location. *)
Lemma binary_round_aux_54 (s : bool) (q e : Z) (l : location) :
  2 ^ 53 <= q < 2 ^ 54 -> -1074 <= e ->
  binary_round_aux prec emax s q e l
  = binary_round_aux prec emax s (q / 2) (e + 1)
      (loc_of_shr_record (shr_1 (shr_record_of_loc q l))).
Proof.
  intros Hq He.
  assert (Hh : 2 ^ 52 <= q / 2 < 2 ^ 53).
  { change (2 ^ 53) with (2 * 2 ^ 52) in Hq. change (2 ^ 54) with (2 * 2 ^ 53) in Hq.
    split; [apply Z.div_le_lower_bound | apply Z.div_lt_upper_bound]; lia. }
  unfold binary_round_aux.
  rewrite (shr_fexp_54 q e l Hq He), (shr_fexp_53 (q / 2) (e + 1) _ Hh) by lia.
  rewrite loc_of_shr_record_of_loc, shr_m_of_loc, shr_1_m by (rewrite shr_m_of_loc; lia).
  now rewrite shr_m_of_loc.
Qed.

(** The last digit and an inexact remainder together round up. *)
Lemma shr_1_odd_inexact (q : Z) (c : comparison) :
  0 < q -> Z.odd q = true ->
  loc_of_shr_record (shr_1 (shr_record_of_loc q (loc_Inexact c))) = loc_Inexact Gt.
Proof.
  intros Hq Ho. destruct q as [|[p|p|]|p]; try lia; try discriminate Ho;
    destruct c; reflexivity.
Qed.

Lemma new_location_nonzero (n k : Z) :
  k <> 0 -> exists c, new_location n k = loc_Inexact c.
Proof.
  intros Hk. unfold new_location.
  destruct (Z.even n); unfold new_location_even, new_location_odd;
    (destruct (Z.eqb_spec k 0) as [|_]; [contradiction|]); eauto.
Qed.

Lemma new_location_above_half (n k : Z) :
  0 <= n < 2 * k -> new_location n k = loc_Inexact Gt.
Proof.
  intros Hk. unfold new_location.
  destruct (Z.even n) eqn:He; unfold new_location_even, new_location_odd;
    (destruct (Z.eqb_spec k 0) as [-> | _]; [lia|]).
  - now rewrite (proj2 (Z.compare_gt_iff _ _) (proj2 Hk)).
  - assert (Hgt : n < 2 * k + 1) by lia.
    now rewrite (proj2 (Z.compare_gt_iff _ _) Hgt).
Qed.

(** Comparing one with a positive finite number. *)
Lemma ltb_one_finite (m : positive) (e : Z) :
  ltb one (S754_finite false m e)
  = ((-52 <? e) || ((e =? -52) && (2 ^ 52 <? Zpos m)))%bool.
Proof.
  unfold ltb, SFltb, one, SFcompare.
  destruct (Z.compare_spec (-52) e) as [<- | Hlt | Hgt].
  - cbn [Z.ltb Z.compare Z.eqb orb andb].
    change (Pos.compare_cont Eq 4503599627370496 m) with (4503599627370496 ?= m)%positive.
    change (2 ^ 52 <? Zpos m) with (4503599627370496 <? m)%positive.
    unfold Pos.ltb. now destruct (4503599627370496 ?= m)%positive.
  - now rewrite (proj2 (Z.ltb_lt _ _) Hlt).
  - rewrite (proj2 (Z.ltb_ge (-52) e)) by lia.
    now rewrite (proj2 (Z.eqb_neq e (-52))) by lia.
Qed.

(** *** Quotients of integers a float holds exactly *)

(** The float of a positive integer below [2^53] is the integer itself,
    held with a mantissa of 53 digits. *)
Lemma of_Z_exact (n : Z) :
  0 < n < 2 ^ 53 ->
  exists (m : positive) (k : Z),
    of_Z n = S754_finite false m (- k)
    /\ 0 <= k <= 52 /\ Zpos m = n * 2 ^ k /\ 2 ^ 52 <= Zpos m < 2 ^ 53.
Proof.
  intros Hn. destruct n as [|p|p]; try lia.
  unfold of_Z, binary_normalize, binary_round, shl_align.
  pose proof (Z.log2_spec (Zpos p) ltac:(lia)) as [Hlo Hhi].
  pose proof (Z.log2_nonneg (Zpos p)) as H0.
  assert (Hd : Z.log2 (Zpos p) <= 52).
  { pose proof (proj1 (Z.log2_lt_pow2 (Zpos p) 53 ltac:(lia)) ltac:(lia)). lia. }
  rewrite digits2_pos_log2, fexp_value.
  replace (Z.max (Z.log2 (Zpos p) + 1 + 0 - 53) (-1074) - 0)
    with (Z.log2 (Zpos p) - 52) by lia.
  replace (Z.max (Z.log2 (Zpos p) + 1 + 0 - 53) (-1074))
    with (Z.log2 (Zpos p) - 52) by lia.
  destruct (Z.log2 (Zpos p) - 52) as [|d|d] eqn:Hk; try lia.
  - assert (Hp : 2 ^ 52 <= Zpos p < 2 ^ 53).
    { replace (Z.log2 (Zpos p)) with 52 in * by lia. split; [exact Hlo | exact Hhi]. }
    exists p, 0. rewrite (binary_round_aux_53 false (Zpos p) 0 loc_Exact Hp) by lia.
    cbn [round_nearest_even]. rewrite (proj2 (Z.ltb_lt _ _) (proj2 Hp)).
    repeat split; try lia.
  - assert (Hp : 2 ^ 52 <= Zpos (Pos.iter xO p d) < 2 ^ 53).
    { rewrite pos_iter_xO.
      replace 52 with (Z.log2 (Zpos p) + Zpos d) at 1 by lia.
      replace 53 with (Z.succ (Z.log2 (Zpos p)) + Zpos d) by lia.
      rewrite !Z.pow_add_r by lia.
      assert (0 < 2 ^ Zpos d) by (apply Z.pow_pos_nonneg; lia).
      split; [apply Z.mul_le_mono_nonneg_r | apply Z.mul_lt_mono_pos_r]; lia. }
    exists (Pos.iter xO p d), (Zpos d).
    rewrite (binary_round_aux_53 false _ (Zneg d) loc_Exact Hp) by lia.
    cbn [round_nearest_even]. rewrite (proj2 (Z.ltb_lt _ _) (proj2 Hp)).
    cbn [Z.to_pos Z.opp]. rewrite pos_iter_xO in Hp |- *. repeat split; try lia.
Qed.

Lemma div_eucl_div_mod (a b : Z) : Z.div_eucl a b = (a / b, a mod b).
Proof. unfold Z.div, Z.modulo. now destruct (Z.div_eucl a b). Qed.

(** The quotient of two numbers with mantissas of 53 digits: the
    mantissa of the dividend is shifted by 53 digits and divided. *)
Lemma div_core_53 (ma mb : positive) (ka kb : Z) :
  2 ^ 52 <= Zpos ma < 2 ^ 53 -> 2 ^ 52 <= Zpos mb < 2 ^ 53 ->
  0 <= ka <= 52 -> 0 <= kb <= 52 ->
  div (S754_finite false ma (- ka)) (S754_finite false mb (- kb))
  = binary_round_aux prec emax false
      (Zpos ma * 2 ^ 53 / Zpos mb) (kb - ka - 53)
      (new_location (Zpos mb) (Zpos ma * 2 ^ 53 mod Zpos mb)).
Proof.
  intros Ha Hb Hka Hkb. unfold div, SFdiv, SFdiv_core_binary.
  rewrite (digits_53 _ Ha), (digits_53 _ Hb), fexp_value.
  replace (Z.min (Z.max (53 + - ka - (53 + - kb) - 53) (-1074)) (- ka - - kb))
    with (kb - ka - 53) by lia.
  replace (- ka - - kb - (kb - ka - 53)) with 53 by lia.
  rewrite Z.shiftl_mul_pow2 by lia.
  now rewrite div_eucl_div_mod.
Qed.

(** The quotient of two such numbers is above one exactly when the
    dividend is the larger: rounding never takes a quotient above one
    down to one, nor a quotient below one above it. *)
Lemma div_53_gt_one (ma mb : positive) (ka kb : Z) :
  2 ^ 52 <= Zpos ma < 2 ^ 53 -> 2 ^ 52 <= Zpos mb < 2 ^ 53 ->
  0 <= ka <= 52 -> 0 <= kb <= 52 ->
  ltb one (div (S754_finite false ma (- ka)) (S754_finite false mb (- kb)))
  = ((ka <? kb) || ((ka =? kb) && (Zpos mb <? Zpos ma)))%bool.
Proof.
  intros Ha Hb Hka Hkb. rewrite (div_core_53 ma mb ka kb Ha Hb Hka Hkb).
  pose proof (Z.div_mod (Zpos ma * 2 ^ 53) (Zpos mb) ltac:(lia)) as HQ.
  pose proof (Z.mod_pos_bound (Zpos ma * 2 ^ 53) (Zpos mb) ltac:(lia)) as Hr.
  set (q := Zpos ma * 2 ^ 53 / Zpos mb) in *.
  set (r := Zpos ma * 2 ^ 53 mod Zpos mb) in *.
  assert (Hq : 2 ^ 52 <= q < 2 ^ 54).
  { subst q. split; [apply Z.div_le_lower_bound | apply Z.div_lt_upper_bound]; lia. }
  destruct (Z.lt_ge_cases q (2 ^ 53)) as [Hsmall | Hbig].
  - (* the dividend has the smaller mantissa *)
    assert (Hab : Zpos ma < Zpos mb).
    { destruct (Z.lt_ge_cases (Zpos ma) (Zpos mb)) as [|Hge]; [assumption|].
      assert (2 ^ 53 <= q); [|lia].
      subst q. apply Z.div_le_lower_bound; lia. }
    rewrite (binary_round_aux_53 false q _ _ (conj (proj1 Hq) Hsmall)) by lia.
    pose proof (round_nearest_even_bounds q (new_location (Zpos mb) r)) as Hrd.
    rewrite (proj2 (Z.ltb_ge (Zpos mb) (Zpos ma))) by lia. rewrite andb_false_r, orb_false_r.
    destruct (Z.ltb_spec (round_nearest_even q (new_location (Zpos mb) r)) (2 ^ 53))
      as [Hlt | Hge].
    + rewrite ltb_one_finite, Z2Pos.id by lia.
      destruct (Z.ltb_spec ka kb) as [Hk | Hk].
      * destruct (Z.eq_dec kb (ka + 1)) as [-> | Hne].
        -- rewrite (proj2 (Z.ltb_ge (-52) (ka + 1 - ka - 53))) by lia.
           rewrite (proj2 (Z.eqb_eq (ka + 1 - ka - 53) (-52))) by lia.
           cbn [orb andb]. apply Z.ltb_lt.
           destruct (Z.eq_dec q (2 ^ 52)) as [Hq52 | Hq52]; [|lia].
           rewrite Hq52 in HQ.
           rewrite (new_location_above_half (Zpos mb) r) in Hrd |- * by lia.
           cbn [round_nearest_even]. lia.
        -- now rewrite (proj2 (Z.ltb_lt (-52) (kb - ka - 53))) by lia.
      * rewrite (proj2 (Z.ltb_ge (-52) (kb - ka - 53))) by lia.
        now rewrite (proj2 (Z.eqb_neq (kb - ka - 53) (-52))) by lia.
    + rewrite ltb_one_finite. change (2 ^ 52 <? Zpos 4503599627370496) with false.
      rewrite andb_false_r, orb_false_r.
      destruct (Z.ltb_spec ka kb) as [Hk | Hk].
      * apply Z.ltb_lt. lia.
      * apply Z.ltb_ge. lia.
  - (* the dividend has the larger mantissa, or the same *)
    assert (Hab : Zpos mb <= Zpos ma).
    { destruct (Z.le_gt_cases (Zpos mb) (Zpos ma)) as [|Hlt]; [assumption|].
      assert (q < 2 ^ 53); [|lia].
      subst q. apply Z.div_lt_upper_bound; lia. }
    rewrite (binary_round_aux_54 false q _ _ (conj Hbig (proj2 Hq))) by lia.
    set (l1 := loc_of_shr_record (shr_1 (shr_record_of_loc q (new_location (Zpos mb) r)))).
    assert (Hh : 2 ^ 52 <= q / 2 < 2 ^ 53).
    { split; [apply Z.div_le_lower_bound | apply Z.div_lt_upper_bound]; lia. }
    pose proof (Z.div_mod q 2 ltac:(lia)) as Hq2.
    pose proof (Z.mod_pos_bound q 2 ltac:(lia)) as Hq2b.
    rewrite (binary_round_aux_53 false (q / 2) _ l1 Hh) by lia.
    pose proof (round_nearest_even_bounds (q / 2) l1) as Hrd.
    destruct (Z.ltb_spec (round_nearest_even (q / 2) l1) (2 ^ 53)) as [Hlt | Hge].
    + rewrite ltb_one_finite, Z2Pos.id by lia.
      destruct (Z.ltb_spec ka kb) as [Hk | Hk].
      * now rewrite (proj2 (Z.ltb_lt (-52) (kb - ka - 53 + 1))) by lia.
      * rewrite (proj2 (Z.ltb_ge (-52) (kb - ka - 53 + 1))) by lia. cbn [orb].
        destruct (Z.eqb_spec ka kb) as [-> | Hne].
        -- rewrite (proj2 (Z.eqb_eq (kb - kb - 53 + 1) (-52))) by lia. cbn [andb].
           destruct (Z.ltb_spec (Zpos mb) (Zpos ma)) as [Hgt | Hle].
           ++ apply Z.ltb_lt.
              assert (Hq1 : 2 ^ 53 + 1 <= q).
              { subst q. apply Z.div_le_lower_bound; lia. }
              destruct (Z.eq_dec q (2 ^ 53 + 1)) as [Hqe | Hqn]; [|lia].
              assert (Hr0 : r <> 0) by (rewrite Hqe in HQ; lia).
              destruct (new_location_nonzero (Zpos mb) r Hr0) as [c Hc].
              subst l1. rewrite Hc, shr_1_odd_inexact in Hrd |- *;
                try (rewrite Hqe; reflexivity); try lia.
           ++ apply Z.ltb_ge.
              assert (Hsame : Zpos ma = Zpos mb) by lia.
              assert (Hq53 : q = 2 ^ 53).
              { subst q. rewrite Hsame, Z.mul_comm. apply Z.div_mul. lia. }
              assert (Hr0 : r = 0).
              { subst r. rewrite Hsame, Z.mul_comm. apply Z.mod_mul. lia. }
              subst l1. rewrite Hq53, Hr0. unfold new_location.
              destruct (Z.even (Zpos mb)); vm_compute; discriminate.
        -- now rewrite (proj2 (Z.eqb_neq (kb - ka - 53 + 1) (-52))) by lia.
    + rewrite ltb_one_finite. change (2 ^ 52 <? Zpos 4503599627370496) with false.
      rewrite andb_false_r, orb_false_r.
      assert (Hgt : Zpos mb < Zpos ma).
      { destruct (Z.eq_dec (Zpos ma) (Zpos mb)) as [Hsame | Hne]; [|lia].
        assert (Hq53 : q = 2 ^ 53).
        { subst q. rewrite Hsame, Z.mul_comm. apply Z.div_mul. lia. }
        rewrite Hq53 in Hrd, Hge.
        change (2 ^ 53 / 2) with (2 ^ 52) in Hrd, Hge. lia. }
      rewrite (proj2 (Z.ltb_lt _ _) Hgt), andb_true_r.
      destruct (Z.ltb_spec ka kb) as [Hk | Hk].
      * cbn [orb]. apply Z.ltb_lt. lia.
      * cbn [orb]. destruct (Z.eqb_spec ka kb) as [-> | Hne].
        -- apply Z.ltb_lt. lia.
        -- apply Z.ltb_ge. lia.
Qed.

(** For sizes a float holds exactly, the ratio is above one exactly when
    the width is the larger. *)
Lemma of_Z_ratio_gt_one (w h : Z) :
  0 < w < 2 ^ 53 -> 0 < h < 2 ^ 53 ->
  ltb one (div (of_Z w) (of_Z h)) = (h <? w).
Proof.
  intros Hw Hh.
  destruct (of_Z_exact w Hw) as (mw & kw & -> & Hkw & Ew & Bw).
  destruct (of_Z_exact h Hh) as (mh & kh & -> & Hkh & Eh & Bh).
  rewrite (div_53_gt_one mw mh kw kh Bw Bh Hkw Hkh).
  rewrite Ew, Eh in *. clear Ew Eh.
  assert (Hstep : forall a b ka kb : Z,
             0 < a -> 0 < b -> 0 <= ka < kb ->
             2 ^ 52 <= a * 2 ^ ka -> b * 2 ^ kb < 2 ^ 53 -> b < a).
  { intros a b ka kb Ha Hb Hk Hlo Hhi.
    replace kb with (ka + 1 + (kb - ka - 1)) in Hhi by lia.
    rewrite !Z.pow_add_r in Hhi by lia. change (2 ^ 1) with 2 in Hhi.
    assert (HT : 0 < 2 ^ ka) by (apply Z.pow_pos_nonneg; lia).
    assert (HU : 0 < 2 ^ (kb - ka - 1)) by (apply Z.pow_pos_nonneg; lia).
    set (T := 2 ^ ka) in *. set (U := 2 ^ (kb - ka - 1)) in *.
    destruct (Z.lt_ge_cases b a) as [|Hge]; [assumption|]. exfalso.
    assert (a * T <= b * T) by (apply Z.mul_le_mono_nonneg_r; lia).
    assert (b * T * 2 * 1 <= b * T * 2 * U).
    { apply Z.mul_le_mono_nonneg_l; [|lia].
      apply Z.mul_nonneg_nonneg; [apply Z.mul_nonneg_nonneg|]; lia. }
    replace (b * (T * 2 * U)) with (b * T * 2 * U) in Hhi by ring. lia. }
  destruct (Z.ltb_spec kw kh) as [Hk | Hk].
  - cbn [orb]. symmetry. apply Z.ltb_lt.
    apply (Hstep w h kw kh); lia.
  - cbn [orb]. destruct (Z.eqb_spec kw kh) as [-> | Hne].
    + cbn [andb].
      assert (HT : 0 < 2 ^ kh) by (apply Z.pow_pos_nonneg; lia).
      destruct (Z.ltb_spec h w) as [Hlt | Hge].
      * apply Z.ltb_lt. apply Z.mul_lt_mono_pos_r; assumption.
      * apply Z.ltb_ge. apply Z.mul_le_mono_nonneg_r; lia.
    + cbn [andb]. symmetry. apply Z.ltb_ge.
      assert (w < h); [|lia]. apply (Hstep h w kh kw); lia.
Qed.

End Rounding.

(** ** Facts about the monad and the buffer *)

Lemma addToOutput_emit (line : string) (w : World) :
  addToOutput line w = (Ok tt, emit w [line]).
Proof. reflexivity. Qed.

Lemma emit_emit (w : World) (a b : list string) :
  emit (emit w a) b = emit w (a ++ b).
Proof. unfold emit; simpl. now rewrite app_assoc. Qed.

Lemma getOutput_unfold (sc : Scene) (w : World) :
  getOutput sc w = (insertTypeBlock sc ;; InsertLookat sc) w.
Proof.
  unfold getOutput, insertTypeBlock, bind, getSelf.
  destruct (isOrtho (camera (self w))); reflexivity.
Qed.

Lemma bind_lift {A B} (r : result A) (k : A -> M B) (w : World) :
  (x <- lift r ;; k x) w =
  match r with Ok a => k a w | Raise e => (Raise e, w) end.
Proof. unfold bind, lift. now destruct r. Qed.

Lemma bind_getSelf {B} (k : Camera -> M B) (w : World) :
  (me <- getSelf ;; k me) w = k (self w) w.
Proof. reflexivity. Qed.

Lemma bind_addToOutput {B} (line : string) (k : M B) (w : World) :
  (addToOutput line ;; k) w = k (emit w [line]).
Proof. reflexivity. Qed.

Lemma bind_try_query {A B} (r : result A) (msg : string) (k : A -> M B) (w : World) :
  (v <- try_except (lift r) (fun e => displayError msg ;; raise e) ;; k v) w =
  match r with
  | Ok a => k a w
  | Raise e => (Raise e, logged w msg)
  end.
Proof. unfold bind, try_except, lift. now destruct r. Qed.

Lemma rescale_same (w : World) : rescale w (scale (self w)) = w.
Proof. destruct w as [c l]; destruct c; reflexivity. Qed.

(** ** The methods, block by block *)

Lemma float_of_int_Ok (n : Z) :
  is_finite (of_Z n) = true -> float_of_int n = Ok (of_Z n).
Proof. unfold float_of_int. now intros ->. Qed.

Lemma float_div_Ok (a b : float) :
  is_zero b = false -> float_div a b = Ok (PyFloat.div a b).
Proof. unfold float_div. now intros ->. Qed.

Lemma of_Z_is_zero (n : Z) : is_zero (of_Z n) = (n =? 0).
Proof.
  destruct (Z.eqb_spec n 0) as [->|Hn]; [reflexivity|].
  destruct (is_zero (of_Z n)) eqn:Hz; [|reflexivity].
  now apply of_Z_zero_iff in Hz.
Qed.

Lemma math_sqrt_ok (a : float) :
  is_negative a = false -> math_sqrt a = Ok (PyFloat.sqrt a).
Proof.
  intros Hneg. unfold math_sqrt.
  destruct a as [sa|[|]| |[|] ma ea]; try discriminate Hneg; try reflexivity.
  pose proof (sqrt_not_nan (S754_finite false ma ea) I) as Hn.
  now destruct (PyFloat.sqrt (S754_finite false ma ea)).
Qed.

(** [InsertCommon] with its first statement named. *)
Lemma InsertCommon_unfold (sc : Scene) (w : World) :
  InsertCommon sc w =
  (me <- getSelf ;;
   lens_radius <- lift (lensRadius sc me) ;;
   let shiftX := filmTranslateH (camera me) in
   let shiftY := filmTranslateV (camera me) in
   w <- lift (float_of_int (outWidth me)) ;;
   h <- lift (float_of_int (outHeight me)) ;;
   ratio <- lift (float_div w h) ;;
   invRatio <- lift (float_div one ratio) ;;
   addToOutput (screenwindow_line (screenwindow shiftX shiftY ratio invRatio (scale me))) ;;
   addToOutput (TAB ++ "scene.camera.shutteropen = " ++ fmt_f zero) ;;
   let exposure_time := camera_exposuretime (lux_settings sc) in
   addToOutput (TAB ++ "scene.camera.shutterclose = " ++ fmt_f exposure_time)) w.
Proof.
  unfold InsertCommon, lensRadius. rewrite !bind_getSelf.
  destruct (camera_infinite_focus (lux_settings sc) =? 0); [|reflexivity].
  unfold bind, lift, result_bind.
  destruct (float_of_int (DOF_CONST (self w))); [|reflexivity].
  destruct (float_div (focalLength (camera (self w))) a); reflexivity.
Qed.

Lemma InsertCommon_ok (sc : Scene) (w : World) :
  common_ok sc (self w) = true ->
  InsertCommon sc w = (Ok tt, emit w (commonLines sc (self w))).
Proof.
  unfold common_ok.
  rewrite <- (of_Z_is_zero (outHeight (self w))), <- (of_Z_is_zero (DOF_CONST (self w))).
  rewrite !andb_true_iff, !negb_true_iff.
  intros [[[[Hlens Hw] Hh] Hh0] Hr].
  assert (Hl : exists r, lensRadius sc (self w) = Ok r).
  { unfold lensRadius.
    destruct (camera_infinite_focus (lux_settings sc) =? 0); [|eauto].
    rewrite !andb_true_iff, !negb_true_iff in Hlens.
    destruct Hlens as [[Hd Hd0] Hf].
    rewrite (float_of_int_Ok _ Hd). cbn [result_bind].
    rewrite (float_div_Ok _ _ Hd0). cbn [result_bind].
    rewrite (float_div_Ok _ _ Hf). eauto. }
  destruct Hl as [r Hl].
  rewrite InsertCommon_unfold, bind_getSelf, bind_lift, Hl.
  rewrite bind_lift, (float_of_int_Ok _ Hw).
  rewrite bind_lift, (float_of_int_Ok _ Hh).
  rewrite bind_lift, (float_div_Ok _ _ Hh0). fold (aspect (self w)).
  rewrite bind_lift, (float_div_Ok _ _ Hr).
  now rewrite !bind_addToOutput, addToOutput_emit, !emit_emit.
Qed.

Lemma InsertCommon_raise (sc : Scene) (w : World) :
  common_ok sc (self w) = false ->
  exists e, InsertCommon sc w = (Raise e, w).
Proof.
  intros H.
  rewrite InsertCommon_unfold, bind_getSelf, bind_lift.
  destruct (lensRadius sc (self w)) as [r|e] eqn:Hl; [|eauto].
  rewrite bind_lift.
  destruct (float_of_int (outWidth (self w))) as [wf|e] eqn:Hw; [|eauto].
  rewrite bind_lift.
  destruct (float_of_int (outHeight (self w))) as [hf|e] eqn:Hh; [|eauto].
  rewrite bind_lift.
  destruct (float_div wf hf) as [ratio|e] eqn:Hr; [|eauto].
  rewrite bind_lift.
  destruct (float_div one ratio) as [inv|e] eqn:Hi; [|eauto].
  exfalso. unfold common_ok in H.
  rewrite <- (of_Z_is_zero (outHeight (self w))),
          <- (of_Z_is_zero (DOF_CONST (self w))) in H.
  unfold float_of_int in Hw, Hh.
  destruct (is_finite (of_Z (outWidth (self w)))); [|discriminate Hw].
  destruct (is_finite (of_Z (outHeight (self w)))); [|discriminate Hh].
  injection Hw as <-. injection Hh as <-.
  unfold float_div in Hr, Hi.
  destruct (is_zero (of_Z (outHeight (self w)))); [discriminate Hr|].
  injection Hr as <-. fold (aspect (self w)) in Hi, H.
  destruct (is_zero (aspect (self w))); [discriminate Hi|].
  unfold lensRadius in Hl.
  destruct (camera_infinite_focus (lux_settings sc) =? 0); [|discriminate H].
  unfold float_of_int, float_div in Hl.
  destruct (is_finite (of_Z (DOF_CONST (self w)))); [|discriminate Hl].
  cbn [result_bind] in Hl.
  destruct (is_zero (of_Z (DOF_CONST (self w)))); [discriminate Hl|].
  cbn [result_bind] in Hl.
  destruct (is_zero (two * fStop (camera (self w)))%F); [discriminate Hl|].
  discriminate H.
Qed.

(** The common block appends its three lines or nothing. *)
Lemma InsertCommon_cases (sc : Scene) (w : World) :
  InsertCommon sc w = (Ok tt, emit w (commonLines sc (self w)))
  \/ exists e, InsertCommon sc w = (Raise e, w).
Proof.
  destruct (common_ok sc (self w)) eqn:H.
  - left. now apply InsertCommon_ok.
  - right. now apply InsertCommon_raise.
Qed.

Lemma InsertOrtho_run (sc : Scene) (w : World) :
  InsertOrtho sc w =
  InsertCommon sc (emit (rescale w (PyFloat.div (orthoWidth (camera (self w))) two))
                        [ TAB ++ "scene.camera.type = orthographic" ]).
Proof. reflexivity. Qed.

Lemma InsertPerspective_run (sc : Scene) (w : World) :
  InsertPerspective sc w = InsertCommon sc (emit w (perspectiveLines sc (self w))).
Proof.
  unfold InsertPerspective. rewrite bind_addToOutput, bind_getSelf.
  now rewrite !bind_addToOutput, !emit_emit.
Qed.

Lemma InsertEnvironment_run (sc : Scene) (w : World) :
  InsertEnvironment sc w =
  InsertCommon sc (emit w [ TAB ++ "scene.camera.type = environment" ]).
Proof. reflexivity. Qed.

Lemma InsertRealistic_run (sc : Scene) (w : World) :
  InsertRealistic sc w =
  match realisticOptics (self w) with
  | Ok optics => InsertCommon sc (emit w (realisticLines optics))
  | Raise e => (Raise e, w)
  end.
Proof.
  unfold InsertRealistic, realisticOptics. rewrite bind_getSelf.
  cbv zeta. rewrite bind_lift.
  destruct (math_sqrt _) as [filmdiag|e]; [|reflexivity]. cbn [result_bind].
  rewrite bind_lift.
  destruct (float_of_int _) as [dof|e]; [|reflexivity]. cbn [result_bind].
  rewrite bind_lift.
  destruct (float_div (focalLength _) dof) as [focal|e]; [|reflexivity].
  cbn [result_bind]. rewrite bind_lift.
  destruct (float_div focal _) as [aperture|e]; [|reflexivity].
  cbn [result_bind]. rewrite bind_lift.
  destruct (float_div _ _) as [filmdistance|e]; [|reflexivity].
  cbn [result_bind realisticLines].
  now rewrite !bind_addToOutput, !emit_emit.
Qed.

(** The dispatch: the head lines, then the common block, unless the
    realistic lens computation raises after the marker line. *)
Lemma insertTypeBlock_run (sc : Scene) (w : World) :
  insertTypeBlock sc w =
  match cameraType sc (self w), realisticOptics (self w) with
  | Realistic, Raise e => (Raise e, emit w [ "#Camera" ])
  | _, _ => InsertCommon sc (afterHead sc w)
  end.
Proof.
  unfold insertTypeBlock, afterHead, headLines, cameraType, scaleFor.
  rewrite bind_getSelf.
  destruct (isOrtho (camera (self w))).
  - rewrite InsertOrtho_run. now destruct (realisticOptics (self w)).
  - rewrite bind_addToOutput, rescale_same.
    destruct (String.eqb (camera_persptype (lux_settings sc)) "Perspective").
    { rewrite InsertPerspective_run, emit_emit.
      now destruct (realisticOptics (self w)). }
    destruct (String.eqb (camera_persptype (lux_settings sc)) "Environment").
    { rewrite InsertEnvironment_run, emit_emit.
      now destruct (realisticOptics (self w)). }
    rewrite InsertRealistic_run. cbn [self emit].
    destruct (realisticOptics (self w)) as [optics|e] eqn:Ho.
    + replace (realisticOptics _) with (Ok optics).
      now rewrite emit_emit.
    + now replace (realisticOptics _) with (@Raise (float * float * float) e).
Qed.

Lemma InsertLookat_run (sc : Scene) (w : World) :
  InsertLookat sc w =
  match eyePoint (camera (self w)) kWorld with
  | Raise e => (Raise e, logged w eyePointMessage)
  | Ok eye =>
      match upDirection (camera (self w)) kWorld with
      | Raise e => (Raise e, logged w upDirectionMessage)
      | Ok up =>
          match centerOfInterestPoint (camera (self w)) kWorld with
          | Raise e => (Raise e, logged w centerOfInterestPointMessage)
          | Ok at_ => (Ok tt, emit w (lookatLines sc eye at_ up))
          end
      end
  end.
Proof.
  unfold InsertLookat. rewrite bind_getSelf, bind_try_query.
  destruct (eyePoint _ _) as [eye|e]; [|reflexivity].
  rewrite bind_try_query.
  destruct (upDirection _ _) as [up|e]; [|reflexivity].
  rewrite bind_try_query.
  destruct (centerOfInterestPoint _ _) as [at_|e]; [|reflexivity].
  cbv zeta. now rewrite !bind_addToOutput, addToOutput_emit, !emit_emit.
Qed.

(** Every call appends the head lines, then the common block or nothing,
    then the look-at block or nothing; it returns normally exactly when
    it has appended all three. *)
Lemma getOutput_shape (sc : Scene) (w : World) :
  exists c l : list string,
    output (snd (getOutput sc w)) = (output w ++ headLines sc (self w) ++ c ++ l)%list
    /\ (c = [] \/ c = commonLines sc (self (afterHead sc w)))
    /\ (l = [] \/
        c = commonLines sc (self (afterHead sc w)) /\
        exists eye at_ up,
          eyePoint (camera (self w)) kWorld = Ok eye /\
          upDirection (camera (self w)) kWorld = Ok up /\
          centerOfInterestPoint (camera (self w)) kWorld = Ok at_ /\
          l = lookatLines sc eye at_ up)
    /\ (fst (getOutput sc w) = Ok tt -> l <> [])
    /\ scale (self (snd (getOutput sc w))) = scaleFor sc (self w).
Proof.
  rewrite getOutput_unfold. unfold bind. rewrite insertTypeBlock_run.
  assert (Hcommon :
    exists c l : list string,
      output (snd (let (r, w') := InsertCommon sc (afterHead sc w) in
                   match r with
                   | Ok _ => InsertLookat sc w'
                   | Raise e => (Raise e, w')
                   end))
      = (output w ++ headLines sc (self w) ++ c ++ l)%list
      /\ (c = [] \/ c = commonLines sc (self (afterHead sc w)))
      /\ (l = [] \/
          c = commonLines sc (self (afterHead sc w)) /\
          exists eye at_ up,
            eyePoint (camera (self w)) kWorld = Ok eye /\
            upDirection (camera (self w)) kWorld = Ok up /\
            centerOfInterestPoint (camera (self w)) kWorld = Ok at_ /\
            l = lookatLines sc eye at_ up)
      /\ (fst (let (r, w') := InsertCommon sc (afterHead sc w) in
               match r with
               | Ok _ => InsertLookat sc w'
               | Raise e => (Raise e, w')
               end) = Ok tt -> l <> [])
      /\ scale (self (snd (let (r, w') := InsertCommon sc (afterHead sc w) in
                           match r with
                           | Ok _ => InsertLookat sc w'
                           | Raise e => (Raise e, w')
                           end))) = scaleFor sc (self w)).
  { destruct (InsertCommon_cases sc (afterHead sc w)) as [-> | [e ->]].
    - rewrite InsertLookat_run. cbn [self emit afterHead rescale camera].
      destruct (eyePoint _ _) as [eye|e] eqn:He;
        [destruct (upDirection _ _) as [up|e] eqn:Hu;
         [destruct (centerOfInterestPoint _ _) as [at_|e] eqn:Ha|]|].
      + exists (commonLines sc (self (afterHead sc w))), (lookatLines sc eye at_ up).
        repeat split.
        * unfold output. cbn [self emit afterHead rescale outputString snd].
          now rewrite <- !app_assoc.
        * now right.
        * right. split; [reflexivity|]. now exists eye, at_, up.
        * discriminate.
      + exists (commonLines sc (self (afterHead sc w))), [].
        repeat split; try (now left); try (now right); try discriminate.
        unfold output. cbn [self emit afterHead rescale outputString snd logged].
        now rewrite <- !app_assoc, app_nil_r.
      + exists (commonLines sc (self (afterHead sc w))), [].
        repeat split; try (now left); try (now right); try discriminate.
        unfold output. cbn [self emit afterHead rescale outputString snd logged].
        now rewrite <- !app_assoc, app_nil_r.
      + exists (commonLines sc (self (afterHead sc w))), [].
        repeat split; try (now left); try (now right); try discriminate.
        unfold output. cbn [self emit afterHead rescale outputString snd logged].
        now rewrite <- !app_assoc, app_nil_r.
    - exists [], []. repeat split; try (now left); try discriminate.
      unfold output. cbn [self emit afterHead rescale outputString snd].
      now rewrite !app_nil_r. }
  destruct (cameraType sc (self w)) eqn:Hct;
    destruct (realisticOptics (self w)) as [optics|e] eqn:Ho; try exact Hcommon.
  exists [], []. repeat split; try (now left); try discriminate.
  - unfold headLines. rewrite Hct, Ho. now rewrite !app_nil_r.
  - unfold scaleFor. cbn [snd self emit scale].
    unfold cameraType in Hct. now destruct (isOrtho (camera (self w))).
Qed.

(** The lens computation once the film diagonal and the aperture
    diameter are computed: only the film distance can still raise. *)
Lemma realisticOptics_run (me : Camera) :
  DOF_CONST me = 1000 ->
  is_negative (horizontalFilmAperture (camera me) * verticalFilmAperture (camera me))%F
  = false ->
  is_zero (fStop (camera me)) = false ->
  let focal := PyFloat.div (focalLength (camera me)) (of_Z 1000) in
  let dofdist := centerOfInterest (camera me) in
  realisticOptics me =
  if is_zero (dofdist - focal)%F then Raise ZeroDivisionError
  else Ok (PyFloat.div (dofdist * focal)%F (dofdist - focal)%F,
           PyFloat.div focal (fStop (camera me)),
           PyFloat.sqrt (horizontalFilmAperture (camera me)
                         * verticalFilmAperture (camera me))%F).
Proof.
  intros Hdof Hneg Hstop focal dofdist. unfold realisticOptics.
  rewrite (math_sqrt_ok _ Hneg), Hdof. cbn [result_bind].
  change (float_of_int 1000) with (Ok (of_Z 1000)). cbn [result_bind].
  change (float_div (focalLength (camera me)) (of_Z 1000)) with (Ok focal).
  cbn [result_bind]. rewrite (float_div_Ok _ _ Hstop). cbn [result_bind].
  fold dofdist. unfold float_div.
  now destruct (is_zero (dofdist - focal)%F).
Qed.

Lemma headLines_realistic (sc : Scene) (me : Camera) :
  let focal := PyFloat.div (focalLength (camera me)) (of_Z 1000) in
  let dofdist := centerOfInterest (camera me) in
  cameraType sc me = Realistic ->
  DOF_CONST me = 1000 ->
  is_negative (horizontalFilmAperture (camera me) * verticalFilmAperture (camera me))%F
  = false ->
  is_zero (fStop (camera me)) = false ->
  is_zero (dofdist - focal)%F = false ->
  headLines sc me
  = "#Camera"
    :: realisticLines (PyFloat.div (dofdist * focal)%F (dofdist - focal)%F,
                       PyFloat.div focal (fStop (camera me)),
                       PyFloat.sqrt (horizontalFilmAperture (camera me)
                                     * verticalFilmAperture (camera me))%F).
Proof.
  intros focal dofdist Hct Hdof Hneg Hstop Hden. unfold headLines.
  rewrite Hct, (realisticOptics_run me Hdof Hneg Hstop).
  fold focal dofdist. now rewrite Hden.
Qed.

(** ** Facts about the emitted lines *)

Lemma commonLines_not_lookat (sc : Scene) (me : Camera) :
  Forall (fun l => is_lookat_line l = false) (commonLines sc me).
Proof. unfold commonLines. all_lines. Qed.

Lemma commonLines_not_lens (sc : Scene) (me : Camera) :
  Forall (fun l => is_lens_line l = false) (commonLines sc me).
Proof. unfold commonLines. all_lines. Qed.

Lemma lookatLines_not_lens (sc : Scene) (eye at_ up : MVector) :
  Forall (fun l => is_lens_line l = false) (lookatLines sc eye at_ up).
Proof. unfold lookatLines. all_lines. Qed.

Lemma commonLines_common (sc : Scene) (me : Camera) :
  Forall (fun l => is_common_line l = true) (commonLines sc me).
Proof. unfold commonLines. all_lines. Qed.

Lemma lookatLines_lookat (sc : Scene) (eye at_ up : MVector) :
  Forall (fun l => is_lookat_line l = true) (lookatLines sc eye at_ up).
Proof. unfold lookatLines. all_lines. Qed.

Lemma headLines_not_lookat (sc : Scene) (me : Camera) :
  Forall (fun l => is_lookat_line l = false) (headLines sc me).
Proof.
  unfold headLines, perspectiveLines.
  destruct (cameraType sc me); [all_lines ..|].
  destruct (realisticOptics me) as [[[fd ad] diag]|e]; unfold realisticLines; all_lines.
Qed.

Lemma headLines_listed (sc : Scene) (me : Camera) :
  Forall (fun l => is_listed l = true) (headLines sc me)
  /\ Forall four_floats (headLines sc me)
  /\ (cameraType sc me <> Perspective ->
      Forall (fun l => is_perspective_key_line l = false) (headLines sc me))
  /\ (cameraType sc me <> Realistic ->
      Forall (fun l => is_realistic_param l = false) (headLines sc me)).
Proof.
  unfold headLines, perspectiveLines.
  destruct (cameraType sc me);
    [| | |destruct (realisticOptics me) as [[[fd ad] diag]|e]; unfold realisticLines];
    (split; [all_lines|]);
    (split; [all_lines; not_screenwindow|]);
    (split; intros Hct; try (now elim Hct); all_lines).
Qed.

Lemma commonLines_listed (sc : Scene) (me : Camera) :
  Forall (fun l => is_listed l = true) (commonLines sc me)
  /\ Forall four_floats (commonLines sc me)
  /\ Forall (fun l => is_perspective_key_line l = false) (commonLines sc me)
  /\ Forall (fun l => is_realistic_param l = false) (commonLines sc me).
Proof.
  unfold commonLines. repeat split; all_lines.
  - intros _. unfold screenwindow_line.
    destruct (screenwindow _ _ _ _ _) as [[[a b] c] d]. now exists a, b, c, d.
  - not_screenwindow.
  - not_screenwindow.
Qed.

Lemma lookatLines_listed (sc : Scene) (eye at_ up : MVector) :
  Forall (fun l => is_listed l = true) (lookatLines sc eye at_ up)
  /\ Forall four_floats (lookatLines sc eye at_ up)
  /\ Forall (fun l => is_perspective_key_line l = false) (lookatLines sc eye at_ up)
  /\ Forall (fun l => is_realistic_param l = false) (lookatLines sc eye at_ up).
Proof. unfold lookatLines. repeat split; all_lines; not_screenwindow. Qed.

(** * The claims of the specification *)

(** ** The common block (C1) *)

(** For the orthographic sample camera of width 10, at 1920x1080 and with
    no film offset, the export succeeds and its screen-window line carries
    the bounds scaled by 5, not the bounds (-1, 1, -1/ratio, 1/ratio).  And
    at an output height of 0 the export of the perspective sample camera
    raises [ZeroDivisionError] in the common block, which emits nothing. *)
Lemma common_block_scaled_or_missing :
  let w := freshWorld orthoScene 1920 1080 in
  let ratio := PyFloat.div (of_Z 1920) (of_Z 1080) in
  let invRatio := PyFloat.div one ratio in
  (filmTranslateH (camera (self w)) = zero
   /\ filmTranslateV (camera (self w)) = zero
   /\ ltb one ratio = true
   /\ fst (getOutput orthoScene w) = Ok tt
   /\ existsb (String.eqb
                 (TAB ++ "scene.camera.screenwindow = -5.000000 5.000000 -2.812500 2.812500"))
              (output (snd (getOutput orthoScene w))) = true
   /\ existsb (String.eqb
                 (screenwindow_line (PyFloat.opp one, one, PyFloat.opp invRatio, invRatio)))
              (output (snd (getOutput orthoScene w))) = false)
  /\ (let r := getOutput perspectiveScene (freshWorld perspectiveScene 1920 0) in
      fst r = Raise ZeroDivisionError
      /\ existsb (has_key "scene.camera.screenwindow") (output (snd r)) = false
      /\ existsb (has_key "scene.camera.shutteropen") (output (snd r)) = false
      /\ existsb (has_key "scene.camera.shutterclose") (output (snd r)) = false).
Proof. vm_compute. repeat split; reflexivity. Qed.

(** C1, amended.  The common block either raises before it emits
    anything, when its arithmetic fails (see [common_ok]), or appends
    exactly three lines: the screen window, whose four bounds are chosen
    by the test [ratio > 1] and are each multiplied by the exporter's
    scale; the shutter-open line with 0.0; and the shutter-close line with
    [camera_exposuretime].  With no film offset and scale 1, the bounds
    are (-1, 1, -1/ratio, 1/ratio) at 1920x1080 and (-ratio, ratio, -1, 1)
    at 1080x1920. *)
Theorem InsertCommon_block (sc : Scene) (w : World) :
  let me := self w in
  let shiftX := filmTranslateH (camera me) in
  let shiftY := filmTranslateV (camera me) in
  let ratio := PyFloat.div (of_Z (outWidth me)) (of_Z (outHeight me)) in
  let invRatio := PyFloat.div (of_Z 1) ratio in
  let bounds :=
    if ltb (of_Z 1) ratio then
      ((of_Z 2 * shiftX - of_Z 1) * scale me,
       (of_Z 2 * shiftX + of_Z 1) * scale me,
       (of_Z 2 * shiftY - invRatio) * scale me,
       (of_Z 2 * shiftY + invRatio) * scale me)%F
    else
      ((of_Z 2 * shiftX - ratio) * scale me,
       (of_Z 2 * shiftX + ratio) * scale me,
       (of_Z 2 * shiftY - of_Z 1) * scale me,
       (of_Z 2 * shiftY + of_Z 1) * scale me)%F in
  (common_ok sc me = true ->
   InsertCommon sc w
   = (Ok tt,
      emit w [ screenwindow_line bounds;
               TAB ++ "scene.camera.shutteropen = 0.000000";
               TAB ++ "scene.camera.shutterclose = "
                   ++ fmt_f (camera_exposuretime (lux_settings sc)) ]))
  /\ (common_ok sc me = false -> exists e, InsertCommon sc w = (Raise e, w))
  /\ (shiftX = zero -> shiftY = zero -> scale me = of_Z 1 ->
      outWidth me = 1920 -> outHeight me = 1080 ->
      ltb (of_Z 1) ratio = true
      /\ bounds = (PyFloat.opp (of_Z 1), of_Z 1, PyFloat.opp invRatio, invRatio))
  /\ (shiftX = zero -> shiftY = zero -> scale me = of_Z 1 ->
      outWidth me = 1080 -> outHeight me = 1920 ->
      ltb (of_Z 1) ratio = false
      /\ bounds = (PyFloat.opp ratio, ratio, PyFloat.opp (of_Z 1), of_Z 1)).
Proof.
  intros me shiftX shiftY ratio invRatio bounds. split; [|split; [|split]].
  - intros Hok. now rewrite (InsertCommon_ok sc w Hok).
  - apply InsertCommon_raise.
  - intros Hx Hy Hs Hw Hh. subst bounds invRatio ratio.
    rewrite Hx, Hy, Hs, Hw, Hh. vm_compute. now split.
  - intros Hx Hy Hs Hw Hh. subst bounds invRatio ratio.
    rewrite Hx, Hy, Hs, Hw, Hh. vm_compute. now split.
Qed.

Lemma InsertCommon_block_witness :
  let w := freshWorld perspectiveScene 1920 1080 in
  common_ok perspectiveScene (self w) = true
  /\ InsertCommon perspectiveScene w
     = (Ok tt,
        emit w [ TAB ++ "scene.camera.screenwindow = -1.000000 1.000000 -0.562500 0.562500";
                 TAB ++ "scene.camera.shutteropen = 0.000000";
                 TAB ++ "scene.camera.shutterclose = 0.010000" ]).
Proof.
  intros w.
  assert (Hok : common_ok perspectiveScene (self w) = true) by (vm_compute; reflexivity).
  split; [exact Hok|].
  rewrite (proj1 (InsertCommon_block perspectiveScene w) Hok).
  vm_compute. reflexivity.
Defined.

(** ** The order of the emitted lines (C2) *)

(** The look-at block is missing from an export call whose eye-point
    query fails: the call raises the host's failure and no line of its
    output is a look-at line. *)
Lemma lookat_block_missing_when_query_fails :
  let r := getOutput blindScene (freshWorld blindScene 1920 1080) in
  fst r = Raise hostFailure
  /\ existsb is_lookat_line (output (snd r)) = false.
Proof. vm_compute. split; reflexivity. Qed.

(** C2, amended.  Every export call that returns normally has appended,
    in this order: the type-specific block, which is the marker line
    (exactly for the cameras that are not orthographic), the
    [scene.camera.type] line naming the camera's type and the further
    lines of the camera, none of them a look-at line; and
    then, last and once, the look-at block: the origin, target and up
    lines, each with the three components of the converted query result,
    and an empty line. *)
Theorem getOutput_order (sc : Scene) (w : World) :
  fst (getOutput sc w) = Ok tt ->
  exists (marker block : list string) (kind : string) (eye at_ up : MVector),
    eyePoint (camera (self w)) kWorld = Ok eye
    /\ centerOfInterestPoint (camera (self w)) kWorld = Ok at_
    /\ upDirection (camera (self w)) kWorld = Ok up
    /\ marker = (if isOrtho (camera (self w)) then [] else ["#Camera"])
    /\ kind = match cameraType sc (self w) with
              | Orthographic => "orthographic"
              | Perspective => "perspective"
              | Environment => "environment"
              | Realistic => "realistic"
              end
    /\ Forall (fun line => is_lookat_line line = false)
              (marker +++ (TAB ++ "scene.camera.type = " ++ kind) :: block)
    /\ output (snd (getOutput sc w))
       = output w
          +++ (marker +++ (TAB ++ "scene.camera.type = " ++ kind) :: block)
          +++ [ TAB ++ "scene.camera.lookat.orig = " ++ fmt_f3 (pointCheckUpAxis sc eye);
               TAB ++ "scene.camera.lookat.target = " ++ fmt_f3 (pointCheckUpAxis sc at_);
               TAB ++ "scene.camera.up = " ++ fmt_f3 (pointCheckUpAxis sc up);
               EmptyString ].
Proof.
  intros Hok.
  destruct (getOutput_shape sc w) as (c & l & Hout & _ & Hl & Hne & _).
  destruct Hl as [-> | (-> & eye & at_ & up & He & Hu & Ha & ->)];
    [now elim (Hne Hok)|].
  assert (Hhead : exists marker kind block,
            marker = (if isOrtho (camera (self w)) then [] else ["#Camera"])
            /\ kind = match cameraType sc (self w) with
                      | Orthographic => "orthographic"
                      | Perspective => "perspective"
                      | Environment => "environment"
                      | Realistic => "realistic"
                      end
            /\ headLines sc (self w)
               = marker +++ (TAB ++ "scene.camera.type = " ++ kind) :: block).
  { assert (Hm : forall t, cameraType sc (self w) = t ->
                           (if isOrtho (camera (self w)) then [] else ["#Camera"])
                           = match t with Orthographic => [] | _ => ["#Camera"] end).
    { intros t <-. unfold cameraType.
      destruct (isOrtho (camera (self w))); [reflexivity|].
      destruct (String.eqb _ "Perspective"); [reflexivity|].
      now destruct (String.eqb _ "Environment"). }
    unfold headLines, perspectiveLines.
    destruct (cameraType sc (self w)) eqn:Hct; rewrite (Hm _ eq_refl).
    - exists [], "orthographic", []. repeat split.
    - exists ["#Camera"], "perspective". eexists. repeat split.
    - exists ["#Camera"], "environment", []. repeat split.
    - destruct (realisticOptics (self w)) as [[[fd ad] diag]|e] eqn:Hopt.
      + exists ["#Camera"], "realistic". eexists. repeat split.
      + exfalso. revert Hok. rewrite getOutput_unfold. unfold bind.
        rewrite insertTypeBlock_run, Hct, Hopt. discriminate. }
  destruct Hhead as (marker & kind & block & Hm & Hk & Hhead).
  exists marker, (block ++ commonLines sc (self (afterHead sc w)))%list, kind, eye, at_, up.
  repeat split; try assumption.
  - rewrite app_comm_cons, app_assoc, <- Hhead.
    apply Forall_app. split;
      [apply headLines_not_lookat | apply commonLines_not_lookat].
  - rewrite Hout. rewrite (app_comm_cons block), (app_assoc marker), <- Hhead.
    now rewrite <- !app_assoc.
Qed.

Lemma getOutput_order_witness :
  let w := freshWorld perspectiveScene 1920 1080 in
  fst (getOutput perspectiveScene w) = Ok tt
  /\ exists block : list string,
       output (snd (getOutput perspectiveScene w))
       = block
          +++ [ TAB ++ "scene.camera.lookat.orig = 0.000000 0.000000 0.000000";
               TAB ++ "scene.camera.lookat.target = 0.000000 0.000000 -5.000000";
               TAB ++ "scene.camera.up = 0.000000 1.000000 0.000000";
               EmptyString ].
Proof.
  intros w.
  assert (Hok : fst (getOutput perspectiveScene w) = Ok tt) by (vm_compute; reflexivity).
  split; [exact Hok|].
  destruct (getOutput_order perspectiveScene w Hok)
    as (marker & block & kind & eye & at_ & up & He & Ha & Hu & _ & _ & _ & Hout).
  exists (marker +++ (TAB ++ "scene.camera.type = " ++ kind) :: block).
  rewrite Hout.
  vm_compute in He, Ha, Hu.
  injection He as <-. injection Ha as <-. injection Hu as <-.
  vm_compute. reflexivity.
Defined.

(** ** Perspective and orthographic cameras (C3, C4) *)

(** C3.  For a perspective camera every export call appends, right after
    the marker line, the line [type = perspective], the autofocus line
    carrying the boolean text that [intToBoolString] gives for the integer
    flag [camera_autofocus], and the field-of-view line, whose angle is
    the horizontal field of view when the output is wider than tall and
    the vertical one otherwise, times [180 / pi]. *)
Theorem perspective_export (sc : Scene) (w : World) :
  cameraType sc (self w) = Perspective ->
  let me := self w in
  let angle := if outHeight me <? outWidth me
               then horizontalFieldOfView (camera me)
               else verticalFieldOfView (camera me) in
  exists rest,
    output (snd (getOutput sc w))
    = output w
       +++ [ "#Camera";
            TAB ++ "scene.camera.type = perspective";
            TAB ++ "scene.camera.autofocus.enable = "
                ++ intToBoolString (camera_autofocus (lux_settings sc));
            TAB ++ "scene.camera.fieldofview = "
                ++ fmt_f (angle * PyFloat.div (of_Z 180) pi)%F ]
       +++ rest.
Proof.
  intros Hct me angle.
  destruct (getOutput_shape sc w) as (c & l & Hout & _).
  exists (c ++ l)%list. rewrite Hout.
  unfold headLines. rewrite Hct. unfold perspectiveLines, fieldOfView, math_degrees.
  fold me. subst angle.
  now destruct (outHeight me <? outWidth me).
Qed.

Lemma perspective_export_witness :
  cameraType perspectiveScene (self (freshWorld perspectiveScene 1920 1080)) = Perspective
  /\ exists rest,
       output (snd (getOutput perspectiveScene (freshWorld perspectiveScene 1920 1080)))
       = [ "#Camera";
           TAB ++ "scene.camera.type = perspective";
           TAB ++ "scene.camera.autofocus.enable = true";
           TAB ++ "scene.camera.fieldofview = 57.295780" ] +++ rest.
Proof.
  split; [reflexivity|].
  destruct (perspective_export perspectiveScene (freshWorld perspectiveScene 1920 1080)
              eq_refl) as [rest Hrest].
  exists rest. rewrite Hrest. vm_compute. reflexivity.
Defined.

(** C4.  For an orthographic camera every export call sets the scale to
    half the ortho width (to 5 when the width is 10), appends the line
    [type = orthographic] first, and appends no field-of-view, focus or
    lens line at all: every other line it appends is a screen-window or
    shutter line of the common block or a line of the look-at block, and
    none has a field-of-view, autofocus or quoted lens key. *)
Theorem orthographic_export (sc : Scene) (w : World) :
  isOrtho (camera (self w)) = true ->
  let w' := snd (getOutput sc w) in
  scale (self w') = PyFloat.div (orthoWidth (camera (self w))) (of_Z 2)
  /\ (orthoWidth (camera (self w)) = of_Z 10 -> scale (self w') = of_Z 5)
  /\ exists rest,
       output w' = output w +++ (TAB ++ "scene.camera.type = orthographic") :: rest
       /\ Forall (fun line => is_common_line line || is_lookat_line line = true) rest
       /\ Forall (fun line => is_lens_line line = false) rest.
Proof.
  intros Ho w'.
  destruct (getOutput_shape sc w) as (c & l & Hout & Hc & Hl & _ & Hs).
  fold w' in Hout, Hs.
  assert (Hscale : scale (self w') = PyFloat.div (orthoWidth (camera (self w))) (of_Z 2)).
  { rewrite Hs. unfold scaleFor. now rewrite Ho. }
  split; [exact Hscale|]. split.
  - intros H10. rewrite Hscale, H10. reflexivity.
  - exists (c ++ l)%list. split; [|split].
    + rewrite Hout. unfold headLines, cameraType. now rewrite Ho.
    + apply Forall_app. split.
      * destruct Hc as [-> | ->]; [constructor|].
        eapply Forall_impl; [|apply commonLines_common].
        cbv beta. now intros line ->.
      * destruct Hl as [-> | (_ & eye & at_ & up & _ & _ & _ & ->)]; [constructor|].
        eapply Forall_impl; [|apply lookatLines_lookat].
        cbv beta. intros line ->. apply orb_true_r.
    + apply Forall_app. split.
      * destruct Hc as [-> | ->]; [constructor | apply commonLines_not_lens].
      * destruct Hl as [-> | (_ & eye & at_ & up & _ & _ & _ & ->)];
          [constructor | apply lookatLines_not_lens].
Qed.

Lemma orthographic_export_witness :
  let w := freshWorld orthoScene 1920 1080 in
  isOrtho (camera (self w)) = true
  /\ orthoWidth (camera (self w)) = of_Z 10
  /\ scale (self (snd (getOutput orthoScene w))) = of_Z 5.
Proof.
  intros w. split; [reflexivity|]. split; [reflexivity|].
  exact (proj1 (proj2 (orthographic_export orthoScene w eq_refl)) eq_refl).
Defined.

(** ** Failing look-at queries (C5) *)

(** C5.  If one of the three world-space queries fails, the look-at step
    raises the exception [e] of a failed query [q], unchanged: the first
    to fail in the order eye point, up direction, centre of interest.  On
    the way it shows one error message, which names [q] and no other
    query, and it leaves the exporter, and so the output buffer, as it
    was: no look-at line is emitted.  The export call that reached the
    look-at step ends the same way. *)
Theorem InsertLookat_failure (sc : Scene) (w : World) :
  (exists q e, runQuery q (camera (self w)) = Raise e) ->
  exists q e,
    runQuery q (camera (self w)) = Raise e
    /\ (forall q', (queryOrder q' < queryOrder q)%nat ->
                   exists v, runQuery q' (camera (self w)) = Ok v)
    /\ InsertLookat sc w
       = (Raise e,
          mkWorld (self w) (errorLog w +++ ["Failed to get camera." ++ queryName q ++ LF]))
    /\ (forall q', queryName q' = queryName q -> q' = q)
    /\ (forall w0, insertTypeBlock sc w0 = (Ok tt, w) ->
                   getOutput sc w0
                   = (Raise e,
                      mkWorld (self w)
                              (errorLog w +++ ["Failed to get camera." ++ queryName q ++ LF]))).
Proof.
  intros Hfail.
  assert (H : exists q e,
             runQuery q (camera (self w)) = Raise e
             /\ (forall q', (queryOrder q' < queryOrder q)%nat ->
                            exists v, runQuery q' (camera (self w)) = Ok v)
             /\ InsertLookat sc w = (Raise e, logged w (failureMessage q))).
  { rewrite InsertLookat_run. cbn [runQuery] in *.
    destruct (eyePoint _ _) as [eye|e] eqn:He.
    2:{ exists EyePoint, e. repeat split; try assumption.
        intros [| |]; cbn [queryOrder]; lia. }
    destruct (upDirection _ _) as [up|e] eqn:Hu.
    2:{ exists UpDirection, e. repeat split; try assumption.
        intros [| |]; cbn [queryOrder runQuery]; try lia. eauto. }
    destruct (centerOfInterestPoint _ _) as [at_|e] eqn:Ha.
    2:{ exists CenterOfInterestPoint, e. repeat split; try assumption.
        intros [| |]; cbn [queryOrder runQuery]; try lia; eauto. }
    destruct Hfail as [[| |] [e Hq]]; cbn [runQuery] in Hq; congruence. }
  destruct H as (q & e & Hq & Hfirst & Hrun). exists q, e.
  repeat split; try assumption.
  - intros q'. destruct q, q'; intros H; try reflexivity; discriminate H.
  - intros w0 Hblock. rewrite getOutput_unfold. unfold bind.
    now rewrite Hblock.
Qed.

Lemma InsertLookat_failure_witness :
  exists q e,
    runQuery q (camera (self (freshWorld blindScene 1920 1080))) = Raise e
    /\ InsertLookat blindScene (freshWorld blindScene 1920 1080)
       = (Raise e,
          mkWorld (self (freshWorld blindScene 1920 1080))
                  ["Failed to get camera." ++ queryName q ++ LF]).
Proof.
  destruct (InsertLookat_failure blindScene (freshWorld blindScene 1920 1080))
    as (q & e & Hq & _ & Hrun & _).
  - exists EyePoint, hostFailure. vm_compute; reflexivity.
  - exists q, e. split; [exact Hq | exact Hrun].
Defined.

(** ** The emitted keys (C6) *)

(** The export of the realistic sample camera succeeds and emits lines
    that set parameters outside the listed keys: lines that are neither an
    assignment to a listed key, nor the marker, nor blank; the film
    distance is one of them. *)
Lemma realistic_export_emits_unlisted_parameters :
  let r := getOutput realisticScene (freshWorld realisticScene 1920 1080) in
  fst r = Ok tt
  /\ existsb (String.eqb (TAB ++ DQ ++ "float filmdistance" ++ DQ ++ " [0.035247]"))
             (output (snd r)) = true
  /\ assigns_camera_key (TAB ++ DQ ++ "float filmdistance" ++ DQ ++ " [0.035247]") = false
  /\ List.length
       (filter (fun line => negb (assigns_camera_key line || is_marker line || is_blank line))
               (output (snd r))) = 4%nat.
Proof. vm_compute. repeat split; reflexivity. Qed.

(** C6, amended.  Every line an export call appends is an assignment to
    one of the nine listed [scene.camera] keys, or the [#Camera] marker,
    or the blank separator, or one of the four quoted parameters
    (specfile, filmdistance, aperture_diameter, filmdiag).  A
    screen-window assignment carries four floats; the autofocus and
    field-of-view keys occur for a perspective camera only, the quoted
    parameters for a realistic camera only. *)
Theorem getOutput_emitted_keys (sc : Scene) (w : World) :
  exists new : list string,
    output (snd (getOutput sc w)) = output w +++ new
    /\ Forall (fun line =>
                 assigns_camera_key line || is_marker line || is_blank line
                 || is_realistic_param line = true) new
    /\ Forall four_floats new
    /\ (cameraType sc (self w) <> Perspective ->
        Forall (fun line => is_perspective_key_line line = false) new)
    /\ (cameraType sc (self w) <> Realistic ->
        Forall (fun line => is_realistic_param line = false) new).
Proof.
  destruct (getOutput_shape sc w) as (c & l & Hout & Hc & Hl & _).
  exists (headLines sc (self w) +++ c +++ l). split; [exact Hout|].
  destruct (headLines_listed sc (self w)) as (Hh1 & Hh2 & Hh3 & Hh4).
  assert (Hcl : Forall (fun l => is_listed l = true) c
                /\ Forall four_floats c
                /\ Forall (fun l => is_perspective_key_line l = false) c
                /\ Forall (fun l => is_realistic_param l = false) c).
  { destruct Hc as [-> | ->]; [repeat split; constructor | apply commonLines_listed]. }
  assert (Hll : Forall (fun l => is_listed l = true) l
                /\ Forall four_floats l
                /\ Forall (fun l => is_perspective_key_line l = false) l
                /\ Forall (fun l => is_realistic_param l = false) l).
  { destruct Hl as [-> | (_ & eye & at_ & up & _ & _ & _ & ->)];
      [repeat split; constructor | apply lookatLines_listed]. }
  destruct Hcl as (Hc1 & Hc2 & Hc3 & Hc4). destruct Hll as (Hl1 & Hl2 & Hl3 & Hl4).
  repeat split; try intros Hct; repeat (apply Forall_app; split); auto.
Qed.

(** ** The realistic block (C7) *)

(** For the realistic camera that looks at a point one focal length away
    the export raises [ZeroDivisionError] after the marker line: it emits
    neither the type line nor any derived value.  And two realistic
    cameras with the same focal length, f-stop and focus distance emit
    different film diagonals when their film apertures differ. *)
Lemma realistic_values_missing_or_from_film :
  (let w := freshWorld focusAtLensScene 1920 1080 in
   cameraType focusAtLensScene (self w) = Realistic
   /\ getOutput focusAtLensScene w = (Raise ZeroDivisionError, emit w ["#Camera"])
   /\ output (emit w ["#Camera"]) = ["#Camera"])
  /\ (let cam := camera (self (freshWorld realisticScene 1920 1080)) in
      let cam' := camera (self (freshWorld wideFilmScene 1920 1080)) in
      let out := output (snd (getOutput realisticScene (freshWorld realisticScene 1920 1080))) in
      let out' := output (snd (getOutput wideFilmScene (freshWorld wideFilmScene 1920 1080))) in
      focalLength cam = focalLength cam'
      /\ fStop cam = fStop cam'
      /\ centerOfInterest cam = centerOfInterest cam'
      /\ filter (has_quoted_param "float filmdiag") out
         = [ TAB ++ DQ ++ "float filmdiag" ++ DQ ++ " [1.183216]" ]
      /\ filter (has_quoted_param "float filmdiag") out'
         = [ TAB ++ DQ ++ "float filmdiag" ++ DQ ++ " [2.000000]" ]).
Proof. vm_compute. repeat split; reflexivity. Qed.

(** C7, amended.  For a realistic camera whose lens arithmetic succeeds
    (the product of the film apertures is not negative, the f-stop is not
    zero, and the focus distance minus the focal length is not zero),
    every export call appends, after the marker line: the line
    [type = realistic]; the calibration file, by its path; the film
    distance [dofdist * focal / (dofdist - focal)] and the aperture
    diameter [focal / fstop], the thin-lens relations; and the film
    diagonal, the square root of the product of the two film apertures.
    Here [focal] is the focal length divided by 1000 and [dofdist] the
    centre-of-interest distance. *)
Theorem realistic_export (sc : Scene) (w : World) :
  let me := self w in
  let cam := camera me in
  let focal := PyFloat.div (focalLength cam) (of_Z 1000) in
  let dofdist := centerOfInterest cam in
  let fstop := fStop cam in
  cameraType sc me = Realistic ->
  DOF_CONST me = 1000 ->
  is_negative (horizontalFilmAperture cam * verticalFilmAperture cam)%F = false ->
  is_zero fstop = false ->
  is_zero (dofdist - focal)%F = false ->
  exists rest,
    output (snd (getOutput sc w))
    = output w
      +++ [ "#Camera";
            TAB ++ "scene.camera.type = realistic";
            TAB ++ DQ ++ "string specfile" ++ DQ ++ " [" ++ DQ
                ++ "E:/dev/luxrender/lux/cameras/realistic/wide.22mm.dat" ++ DQ ++ "]";
            TAB ++ DQ ++ "float filmdistance" ++ DQ ++ " ["
                ++ fmt_f (PyFloat.div (dofdist * focal)%F (dofdist - focal)%F) ++ "]";
            TAB ++ DQ ++ "float aperture_diameter" ++ DQ ++ " ["
                ++ fmt_f (PyFloat.div focal fstop) ++ "]";
            TAB ++ DQ ++ "float filmdiag" ++ DQ ++ " ["
                ++ fmt_f (PyFloat.sqrt (horizontalFilmAperture cam
                                        * verticalFilmAperture cam)%F) ++ "]" ]
      +++ rest.
Proof.
  intros me cam focal dofdist fstop Hct Hdof Hneg Hstop Hden.
  destruct (getOutput_shape sc w) as (c & l & Hout & _).
  exists (c +++ l). rewrite Hout.
  now rewrite (headLines_realistic sc (self w) Hct Hdof Hneg Hstop Hden).
Qed.

Lemma realistic_export_witness :
  let w := freshWorld realisticScene 1920 1080 in
  cameraType realisticScene (self w) = Realistic
  /\ exists rest,
       output (snd (getOutput realisticScene w))
       = [ "#Camera";
           TAB ++ "scene.camera.type = realistic";
           TAB ++ DQ ++ "string specfile" ++ DQ ++ " [" ++ DQ
               ++ "E:/dev/luxrender/lux/cameras/realistic/wide.22mm.dat" ++ DQ ++ "]";
           TAB ++ DQ ++ "float filmdistance" ++ DQ ++ " [0.035247]";
           TAB ++ DQ ++ "float aperture_diameter" ++ DQ ++ " [0.006250]";
           TAB ++ DQ ++ "float filmdiag" ++ DQ ++ " [1.183216]" ]
         +++ rest.
Proof.
  intros w. split; [reflexivity|].
  destruct (realistic_export realisticScene w) as [rest Hrest];
    try (vm_compute; reflexivity).
  exists rest. rewrite Hrest. vm_compute. reflexivity.
Defined.

(** ** The axis-convention converter (C8) *)

(** C8.  In every scene, Y-up or not, the converter is a function of
    the point and of the scene's up-axis configuration alone (it neither
    reads nor changes the exporter's state); and when the host is not
    Y-up, so that its up axis is the renderer's, it returns every point
    unchanged. *)
Theorem pointCheckUpAxis_identity (sc : Scene) (point : MVector) :
  (forall sc' : Scene,
     isYAxisUp sc' = isYAxisUp sc -> basisRemap sc' = basisRemap sc ->
     pointCheckUpAxis sc' point = pointCheckUpAxis sc point)
  /\ (isYAxisUp sc = false -> pointCheckUpAxis sc point = point).
Proof.
  split.
  - intros sc' Hup Hremap. unfold pointCheckUpAxis, checkUpAxis.
    now rewrite Hup, Hremap.
  - intros Hz. unfold pointCheckUpAxis, checkUpAxis. rewrite Hz. now destruct point.
Qed.

Lemma pointCheckUpAxis_identity_witness :
  isYAxisUp perspectiveScene = false
  /\ pointCheckUpAxis perspectiveScene ahead = ahead.
Proof.
  split; [reflexivity|].
  exact (proj2 (pointCheckUpAxis_identity perspectiveScene ahead) eq_refl).
Defined.

(** ** No rollback (C9) *)

(** C9.  When the type-specific block has completed and the look-at step
    then fails, the call fails in the world the look-at step leaves, whose
    output buffer is still the one the type-specific block produced: the
    caller's lines followed by the head lines and the common block. *)
Theorem getOutput_keeps_lines_on_lookat_failure
    (sc : Scene) (w w1 w2 : World) (e : exn) :
  insertTypeBlock sc w = (Ok tt, w1) ->
  InsertLookat sc w1 = (Raise e, w2) ->
  getOutput sc w = (Raise e, w2)
  /\ output w2 = output w1
  /\ output w1 = (output w ++ headLines sc (self w)
                           ++ commonLines sc (self (afterHead sc w)))%list.
Proof.
  intros Hblock Hlook. repeat split.
  - rewrite getOutput_unfold. unfold bind. now rewrite Hblock.
  - rewrite InsertLookat_run in Hlook.
    destruct (eyePoint _ _); [destruct (upDirection _ _);
      [destruct (centerOfInterestPoint _ _)|]|]; now inversion Hlook.
  - rewrite insertTypeBlock_run in Hblock.
    assert (Hc : InsertCommon sc (afterHead sc w) = (Ok tt, w1)).
    { destruct (cameraType sc (self w)); try exact Hblock.
      destruct (realisticOptics (self w)); [exact Hblock | discriminate Hblock]. }
    destruct (InsertCommon_cases sc (afterHead sc w)) as [Hok | [e' Hraise]];
      [|congruence].
    rewrite Hok in Hc. injection Hc as <-.
    unfold output. cbn [self emit afterHead rescale outputString].
    now rewrite <- app_assoc.
Qed.

Lemma getOutput_keeps_lines_on_lookat_failure_witness :
  let w := freshWorld blindScene 1920 1080 in
  exists w1 w2,
    insertTypeBlock blindScene w = (Ok tt, w1)
    /\ InsertLookat blindScene w1 = (Raise hostFailure, w2)
    /\ getOutput blindScene w = (Raise hostFailure, w2)
    /\ output w2 = output w1
    /\ List.length (output w1) = 7%nat.
Proof.
  intros w.
  exists (snd (insertTypeBlock blindScene w)), (snd (getOutput blindScene w)).
  assert (H1 : insertTypeBlock blindScene w
               = (Ok tt, snd (insertTypeBlock blindScene w)))
    by (vm_compute; reflexivity).
  assert (H2 : InsertLookat blindScene (snd (insertTypeBlock blindScene w))
               = (Raise hostFailure, snd (getOutput blindScene w)))
    by (vm_compute; reflexivity).
  destruct (getOutput_keeps_lines_on_lookat_failure blindScene w _ _ _ H1 H2)
    as (Hrun & Hsame & _).
  split; [exact H1|]. split; [exact H2|]. split; [exact Hrun|].
  split; [exact Hsame|]. vm_compute; reflexivity.
Defined.

(** ** The unguarded film-distance division (C10) *)

(** C10.  The realistic branch divides [dofdist * focal] by
    [dofdist - focal] without a guard.  There is a realistic camera, one
    whose centre-of-interest distance is its focal length over 1000, whose
    export raises [ZeroDivisionError] right after the marker line.  In
    general the division raises exactly when the centre-of-interest
    distance is finite and equal to the focal length over 1000, and for
    every other input it yields its quotient; a realistic export that
    reaches the division fails with that error in the first case and goes
    on to emit the type line in the second. *)
Theorem realistic_filmdistance_division :
  (exists (sc : Scene) (w : World),
     cameraType sc (self w) = Realistic
     /\ centerOfInterest (camera (self w))
        = PyFloat.div (focalLength (camera (self w))) (of_Z 1000)
     /\ getOutput sc w = (Raise ZeroDivisionError, emit w ["#Camera"]))
  /\ forall (sc : Scene) (w : World),
       let me := self w in
       let cam := camera me in
       let focal := PyFloat.div (focalLength cam) (of_Z 1000) in
       let dofdist := centerOfInterest cam in
       valid dofdist = true ->
       (float_div (dofdist * focal)%F (dofdist - focal)%F = Raise ZeroDivisionError
        <-> is_finite dofdist = true /\ PyFloat.eqb dofdist focal = true)
       /\ (~ (is_finite dofdist = true /\ PyFloat.eqb dofdist focal = true) ->
           float_div (dofdist * focal)%F (dofdist - focal)%F
           = Ok (PyFloat.div (dofdist * focal)%F (dofdist - focal)%F))
       /\ (cameraType sc me = Realistic ->
           DOF_CONST me = 1000 ->
           is_negative (horizontalFilmAperture cam * verticalFilmAperture cam)%F = false ->
           is_zero (fStop cam) = false ->
           (is_finite dofdist = true /\ PyFloat.eqb dofdist focal = true ->
            getOutput sc w = (Raise ZeroDivisionError, emit w ["#Camera"]))
           /\ (~ (is_finite dofdist = true /\ PyFloat.eqb dofdist focal = true) ->
               exists rest,
                 output (snd (getOutput sc w))
                 = output w
                   +++ [ "#Camera"; TAB ++ "scene.camera.type = realistic" ] +++ rest)).
Proof.
  split.
  - exists focusAtLensScene, (freshWorld focusAtLensScene 1920 1080).
    vm_compute. repeat split; reflexivity.
  - intros sc w me cam focal dofdist Hvalid.
    pose proof (sub_zero_iff dofdist focal Hvalid (div_valid _ _)) as Hzero.
    assert (Hden : ~ (is_finite dofdist = true /\ PyFloat.eqb dofdist focal = true) ->
                   is_zero (dofdist - focal)%F = false).
    { intros Hne. destruct (is_zero (dofdist - focal)%F) eqn:Hz; [|reflexivity].
      elim Hne. now apply Hzero. }
    split; [|split].
    + rewrite <- Hzero. unfold float_div.
      destruct (is_zero (dofdist - focal)%F); split; congruence.
    + intros Hne. now apply float_div_Ok, Hden.
    + intros Hct Hdof Hneg Hstop.
      pose proof (realisticOptics_run me Hdof Hneg Hstop) as Hrun.
      cbv zeta in Hrun. fold cam focal dofdist in Hrun. split.
      * intros Heq. apply Hzero in Heq. rewrite Heq in Hrun.
        rewrite getOutput_unfold. unfold bind.
        rewrite insertTypeBlock_run. fold me. now rewrite Hct, Hrun.
      * intros Hne.
        destruct (getOutput_shape sc w) as (c & l & Hout & _).
        rewrite Hout,
          (headLines_realistic sc (self w) Hct Hdof Hneg Hstop (Hden Hne)).
        eexists. cbn [realisticLines app]. reflexivity.
Qed.

Lemma realistic_filmdistance_division_witness :
  let w := freshWorld focusAtLensScene 1920 1080 in
  let dofdist := centerOfInterest (camera (self w)) in
  let focal := PyFloat.div (focalLength (camera (self w))) (of_Z 1000) in
  valid dofdist = true
  /\ (is_finite dofdist = true /\ PyFloat.eqb dofdist focal = true)
  /\ float_div (dofdist * focal)%F (dofdist - focal)%F = Raise ZeroDivisionError
  /\ getOutput focusAtLensScene w = (Raise ZeroDivisionError, emit w ["#Camera"]).
Proof.
  intros w dofdist focal.
  assert (Hvalid : valid dofdist = true) by (vm_compute; reflexivity).
  assert (Heq : is_finite dofdist = true /\ PyFloat.eqb dofdist focal = true)
    by (vm_compute; split; reflexivity).
  assert (Hct : cameraType focusAtLensScene (self w) = Realistic) by reflexivity.
  assert (Hdof : DOF_CONST (self w) = 1000) by reflexivity.
  assert (Hneg : is_negative (horizontalFilmAperture (camera (self w))
                              * verticalFilmAperture (camera (self w)))%F = false)
    by (vm_compute; reflexivity).
  assert (Hstop : is_zero (fStop (camera (self w))) = false) by (vm_compute; reflexivity).
  destruct (proj2 realistic_filmdistance_division focusAtLensScene w Hvalid)
    as (Hiff & _ & Hexport).
  destruct (Hexport Hct Hdof Hneg Hstop) as [Hfail _].
  split; [exact Hvalid|]. split; [exact Heq|].
  split; [exact (proj2 Hiff Heq) | exact (Hfail Heq)].
Defined.

(** * Further properties of the module *)

(** ** What a call can raise, and the world it leaves *)

Lemma float_of_int_raises (n : Z) (e : exn) :
  float_of_int n = Raise e -> e = OverflowError.
Proof.
  unfold float_of_int. destruct (is_finite (of_Z n)); [discriminate|].
  now intros [= <-].
Qed.

Lemma float_div_raises (a b : float) (e : exn) :
  float_div a b = Raise e -> e = ZeroDivisionError /\ is_zero b = true.
Proof.
  unfold float_div. destruct (is_zero b); [|discriminate].
  now intros [= <-].
Qed.

Lemma math_sqrt_raises (a : float) (e : exn) :
  math_sqrt a = Raise e -> e = ValueError.
Proof.
  unfold math_sqrt.
  destruct a as [s|s| |s m x];
    try match goal with
        | |- context [PyFloat.sqrt ?v] => destruct (PyFloat.sqrt v)
        end;
    try discriminate; now intros [= <-].
Qed.

Lemma lensRadius_raises (sc : Scene) (me : Camera) (e : exn) :
  lensRadius sc me = Raise e -> e = ZeroDivisionError \/ e = OverflowError.
Proof.
  unfold lensRadius.
  destruct (camera_infinite_focus (lux_settings sc) =? 0); [|discriminate].
  destruct (float_of_int (DOF_CONST me)) as [dof|e0] eqn:Hd; cbn [result_bind].
  2:{ intros [= <-]. right. now apply float_of_int_raises in Hd. }
  destruct (float_div (focalLength (camera me)) dof) as [fl|e0] eqn:Hf;
    cbn [result_bind].
  2:{ intros [= <-]. left. now apply float_div_raises in Hf. }
  intros H. left. now apply float_div_raises in H.
Qed.

Lemma realisticOptics_raises (me : Camera) (e : exn) :
  realisticOptics me = Raise e ->
  e = ValueError \/ e = ZeroDivisionError \/ e = OverflowError.
Proof.
  unfold realisticOptics. cbv zeta.
  destruct (math_sqrt _) as [diag|e0] eqn:Hs; cbn [result_bind].
  2:{ intros [= <-]. left. now apply math_sqrt_raises in Hs. }
  destruct (float_of_int (DOF_CONST me)) as [dof|e0] eqn:Hd; cbn [result_bind].
  2:{ intros [= <-]. right; right. now apply float_of_int_raises in Hd. }
  destruct (float_div (focalLength (camera me)) dof) as [focal|e0] eqn:Hf;
    cbn [result_bind].
  2:{ intros [= <-]. right; left. now apply float_div_raises in Hf. }
  destruct (float_div focal _) as [ad|e0] eqn:Ha; cbn [result_bind].
  2:{ intros [= <-]. right; left. now apply float_div_raises in Ha. }
  destruct (float_div (centerOfInterest (camera me) * focal)%F _) as [fd|e0] eqn:Hfd;
    cbn [result_bind]; intros H; [discriminate H|].
  injection H as <-. right; left. now apply float_div_raises in Hfd.
Qed.

(** When the common block fails it raises one of the two arithmetic
    errors and leaves the world as it found it. *)
Lemma InsertCommon_raise_kind (sc : Scene) (w : World) :
  common_ok sc (self w) = false ->
  InsertCommon sc w = (Raise ZeroDivisionError, w)
  \/ InsertCommon sc w = (Raise OverflowError, w).
Proof.
  intros H. destruct (InsertCommon_raise sc w H) as [e He]. rewrite He.
  revert He. rewrite InsertCommon_unfold, bind_getSelf, bind_lift.
  destruct (lensRadius sc (self w)) as [r|e0] eqn:Hl.
  2:{ intros [= <-]. destruct (lensRadius_raises _ _ _ Hl) as [-> | ->]; auto. }
  rewrite bind_lift.
  destruct (float_of_int (outWidth (self w))) as [wf|e0] eqn:Hw.
  2:{ intros [= <-]. apply float_of_int_raises in Hw. subst. auto. }
  rewrite bind_lift.
  destruct (float_of_int (outHeight (self w))) as [hf|e0] eqn:Hh.
  2:{ intros [= <-]. apply float_of_int_raises in Hh. subst. auto. }
  rewrite bind_lift.
  destruct (float_div wf hf) as [ratio|e0] eqn:Hr.
  2:{ intros [= <-]. apply float_div_raises in Hr. destruct Hr as [-> _]. auto. }
  rewrite bind_lift.
  destruct (float_div one ratio) as [inv|e0] eqn:Hi.
  2:{ intros [= <-]. apply float_div_raises in Hi. destruct Hi as [-> _]. auto. }
  rewrite !bind_addToOutput, addToOutput_emit. discriminate.
Qed.

(** The fields of the exporter that [common_ok], the head lines and the
    queries read are the same after the head lines as before. *)
Lemma common_ok_afterHead (sc : Scene) (w : World) :
  common_ok sc (self (afterHead sc w)) = common_ok sc (self w).
Proof. reflexivity. Qed.

Lemma insertTypeBlock_ok (sc : Scene) (w : World) :
  type_block_ok sc (self w) = true ->
  insertTypeBlock sc w
  = (Ok tt, emit (afterHead sc w) (commonLines sc (self (afterHead sc w)))).
Proof.
  unfold type_block_ok. intros H. rewrite insertTypeBlock_run.
  destruct (cameraType sc (self w)); destruct (realisticOptics (self w));
    try discriminate H; now apply InsertCommon_ok.
Qed.

Lemma getOutput_ok (sc : Scene) (w : World) (eye at_ up : MVector) :
  type_block_ok sc (self w) = true ->
  eyePoint (camera (self w)) kWorld = Ok eye ->
  upDirection (camera (self w)) kWorld = Ok up ->
  centerOfInterestPoint (camera (self w)) kWorld = Ok at_ ->
  getOutput sc w = (Ok tt, exported sc w eye at_ up).
Proof.
  intros Hok He Hu Ha. rewrite getOutput_unfold. unfold bind.
  rewrite (insertTypeBlock_ok sc w Hok), InsertLookat_run.
  cbn [self emit afterHead rescale camera].
  rewrite He, Hu, Ha. unfold exported. now rewrite emit_emit.
Qed.

(** A call whose type-specific block succeeded and whose look-at step
    fails: the world it leaves. *)
Lemma getOutput_lookat_fails (sc : Scene) (w : World) (q : LookatQuery) (e : exn) :
  type_block_ok sc (self w) = true ->
  runQuery q (camera (self w)) = Raise e ->
  (forall q', (queryOrder q' < queryOrder q)%nat ->
              exists v, runQuery q' (camera (self w)) = Ok v) ->
  getOutput sc w
  = (Raise e,
     logged (emit (afterHead sc w) (commonLines sc (self (afterHead sc w))))
            (failureMessage q)).
Proof.
  intros Hok Hq Hfirst. rewrite getOutput_unfold. unfold bind.
  rewrite (insertTypeBlock_ok sc w Hok), InsertLookat_run.
  cbn [self emit afterHead rescale camera].
  destruct q; cbn [runQuery] in Hq.
  - now rewrite Hq.
  - destruct (Hfirst EyePoint) as [eye He]; [cbn; lia|]. cbn [runQuery] in He.
    now rewrite He, Hq.
  - destruct (Hfirst EyePoint) as [eye He]; [cbn; lia|].
    destruct (Hfirst UpDirection) as [up Hu]; [cbn; lia|].
    cbn [runQuery] in He, Hu. now rewrite He, Hu, Hq.
Qed.

(** Either all three queries succeed or there is a first one that
    fails. *)
Lemma queries_cases (cam : MFnCamera) :
  (exists eye at_ up,
     eyePoint cam kWorld = Ok eye /\ upDirection cam kWorld = Ok up
     /\ centerOfInterestPoint cam kWorld = Ok at_)
  \/ (exists q e,
        runQuery q cam = Raise e
        /\ forall q', (queryOrder q' < queryOrder q)%nat ->
                      exists v, runQuery q' cam = Ok v).
Proof.
  destruct (eyePoint cam kWorld) as [eye|e] eqn:He.
  2:{ right. exists EyePoint, e. split; [exact He|].
      intros [| |]; cbn [queryOrder]; lia. }
  destruct (upDirection cam kWorld) as [up|e] eqn:Hu.
  2:{ right. exists UpDirection, e. split; [exact Hu|].
      intros [| |]; cbn [queryOrder runQuery]; try lia. eauto. }
  destruct (centerOfInterestPoint cam kWorld) as [at_|e] eqn:Ha.
  2:{ right. exists CenterOfInterestPoint, e. split; [exact Ha|].
      intros [| |]; cbn [queryOrder runQuery]; try lia; eauto. }
  left. now exists eye, at_, up.
Qed.

Lemma getOutput_type_block_fails (sc : Scene) (w : World) (e : exn) (w' : World) :
  insertTypeBlock sc w = (Raise e, w') -> getOutput sc w = (Raise e, w').
Proof. intros H. rewrite getOutput_unfold. unfold bind. now rewrite H. Qed.

(** Every call ends in one of four ways: the lens arithmetic of a
    realistic camera raises after the marker line; the common block
    raises after the head lines; a query of the look-at step fails after
    the common block; or all steps succeed. *)
Lemma getOutput_cases (sc : Scene) (w : World) :
  let me := self w in
  (exists e, cameraType sc me = Realistic /\ realisticOptics me = Raise e
             /\ getOutput sc w = (Raise e, emit w [ "#Camera" ]))
  \/ (common_ok sc me = false
      /\ exists e, (e = ZeroDivisionError \/ e = OverflowError)
                   /\ getOutput sc w = (Raise e, afterHead sc w))
  \/ (type_block_ok sc me = true
      /\ exists q e,
           runQuery q (camera me) = Raise e
           /\ getOutput sc w
              = (Raise e,
                 logged (emit (afterHead sc w) (commonLines sc (self (afterHead sc w))))
                        (failureMessage q)))
  \/ (type_block_ok sc me = true
      /\ exists eye at_ up,
           eyePoint (camera me) kWorld = Ok eye
           /\ upDirection (camera me) kWorld = Ok up
           /\ centerOfInterestPoint (camera me) kWorld = Ok at_
           /\ getOutput sc w = (Ok tt, exported sc w eye at_ up)).
Proof.
  intros me. subst me.
  destruct (type_block_ok sc (self w)) eqn:Hok.
  - right; right.
    destruct (queries_cases (camera (self w)))
      as [(eye & at_ & up & He & Hu & Ha) | (q & e & Hq & Hfirst)].
    + right. split; [reflexivity|]. exists eye, at_, up.
      repeat split; try assumption. now apply getOutput_ok.
    + left. split; [reflexivity|]. exists q, e. split; [assumption|].
      now apply getOutput_lookat_fails.
  - pose proof (insertTypeBlock_run sc w) as Hrun. unfold type_block_ok in Hok.
    assert (Hc : common_ok sc (self w) = false ->
                 insertTypeBlock sc w = InsertCommon sc (afterHead sc w) ->
                 common_ok sc (self w) = false
                 /\ exists e, (e = ZeroDivisionError \/ e = OverflowError)
                              /\ getOutput sc w = (Raise e, afterHead sc w)).
    { intros Hno Hi. split; [assumption|].
      rewrite <- common_ok_afterHead in Hno.
      destruct (InsertCommon_raise_kind sc (afterHead sc w) Hno) as [H | H];
        rewrite H in Hi; eexists; (split; [|apply getOutput_type_block_fails; exact Hi]);
        auto. }
    destruct (cameraType sc (self w)) eqn:Hct;
      destruct (realisticOptics (self w)) as [o|e] eqn:Ho; auto.
    left. exists e. repeat split. now apply getOutput_type_block_fails.
Qed.

(** ** Environment cameras *)

(** X1.  An environment camera whose common block and look-at queries
    succeed gets nine lines: the marker, [type = environment], the three
    lines of the common block at the unchanged scale, and the look-at
    block.  None of them is a field-of-view, focus or lens line, and
    nothing but the buffer changes. *)
Theorem environment_export (sc : Scene) (w : World) (eye at_ up : MVector) :
  cameraType sc (self w) = Environment ->
  common_ok sc (self w) = true ->
  eyePoint (camera (self w)) kWorld = Ok eye ->
  upDirection (camera (self w)) kWorld = Ok up ->
  centerOfInterestPoint (camera (self w)) kWorld = Ok at_ ->
  let block := [ "#Camera"; TAB ++ "scene.camera.type = environment" ]
               +++ commonLines sc (self w) +++ lookatLines sc eye at_ up in
  getOutput sc w = (Ok tt, emit w block)
  /\ Forall (fun line => is_lens_line line = false) block.
Proof.
  intros Hct Hok He Hu Ha block. split.
  - rewrite (getOutput_ok sc w eye at_ up); try assumption.
    2:{ unfold type_block_ok. rewrite Hct. exact Hok. }
    unfold exported, afterHead, headLines, scaleFor. rewrite Hct.
    assert (Hno : isOrtho (camera (self w)) = false).
    { unfold cameraType in Hct. now destruct (isOrtho (camera (self w))). }
    rewrite Hno, rescale_same, emit_emit. reflexivity.
  - subst block. apply Forall_app. split; [all_lines|].
    apply Forall_app. split; [apply commonLines_not_lens | apply lookatLines_not_lens].
Qed.

Lemma environment_export_witness :
  let w := freshWorld environmentScene 1920 1080 in
  getOutput environmentScene w
  = (Ok tt,
     emit w [ "#Camera";
              TAB ++ "scene.camera.type = environment";
              TAB ++ "scene.camera.screenwindow = -1.000000 1.000000 -0.562500 0.562500";
              TAB ++ "scene.camera.shutteropen = 0.000000";
              TAB ++ "scene.camera.shutterclose = 0.010000";
              TAB ++ "scene.camera.lookat.orig = 0.000000 0.000000 0.000000";
              TAB ++ "scene.camera.lookat.target = 0.000000 0.000000 -5.000000";
              TAB ++ "scene.camera.up = 0.000000 1.000000 0.000000";
              EmptyString ]).
Proof.
  intros w.
  assert (Hct : cameraType environmentScene (self w) = Environment) by reflexivity.
  assert (Hok : common_ok environmentScene (self w) = true) by (vm_compute; reflexivity).
  rewrite (proj1 (environment_export environmentScene w origin ahead unitY
                    Hct Hok eq_refl eq_refl eq_refl)).
  vm_compute. reflexivity.
Defined.

(** ** What a call leaves alone *)

(** X2.  Whatever a call does, it only appends to the buffer, shows at
    most one message (the one of a failed query), and leaves the path,
    the camera handle, the output size, the scene scale and the
    depth-of-field constant as they were; the scale field changes for an
    orthographic camera only. *)
Theorem getOutput_frame (sc : Scene) (w : World) :
  let me := self w in
  let w' := snd (getOutput sc w) in
  dagPath (self w') = dagPath me
  /\ camera (self w') = camera me
  /\ outWidth (self w') = outWidth me
  /\ outHeight (self w') = outHeight me
  /\ sceneScale (self w') = sceneScale me
  /\ DOF_CONST (self w') = DOF_CONST me
  /\ scale (self w')
     = (if isOrtho (camera me) then PyFloat.div (orthoWidth (camera me)) two
        else scale me)
  /\ (exists lines, output w' = output w +++ lines)
  /\ (errorLog w' = errorLog w
      \/ exists q, errorLog w' = errorLog w +++ [failureMessage q]).
Proof.
  intros me w'. subst me w'.
  destruct (getOutput_cases sc w)
    as [(e & Hct & _ & ->)
       | [(_ & e & _ & ->)
         | [(_ & q & e & _ & ->)
           | (_ & eye & at_ & up & _ & _ & _ & ->)]]];
    cbn [snd exported logged afterHead emit rescale self errorLog output
         dagPath camera outWidth outHeight sceneScale DOF_CONST scale outputString].
  - repeat split; try reflexivity; [| eauto | auto].
    unfold cameraType in Hct. now destruct (isOrtho (camera (self w))).
  - repeat split; try reflexivity; [eauto | auto].
  - repeat split; try reflexivity; [| eauto].
    rewrite <- app_assoc. eauto.
  - repeat split; try reflexivity; [| auto].
    rewrite <- app_assoc. eauto.
Qed.

(** ** The exceptions of a call *)

(** X3.  A call that raises either fails in its arithmetic, with a
    [ZeroDivisionError], an [OverflowError] or (for a realistic camera
    only) a [ValueError], in which case the host is shown nothing and no
    look-at line has been appended; or it raises the exception of a
    failed world-space query, after showing that query's message. *)
Theorem getOutput_raises (sc : Scene) (w : World) (e : exn) (w' : World) :
  getOutput sc w = (Raise e, w') ->
  (errorLog w' = errorLog w
   /\ (e = ZeroDivisionError \/ e = OverflowError
       \/ e = ValueError /\ cameraType sc (self w) = Realistic)
   /\ exists lines, output w' = output w +++ lines
                    /\ Forall (fun line => is_lookat_line line = false) lines)
  \/ (exists q, runQuery q (camera (self w)) = Raise e
                /\ errorLog w' = errorLog w +++ [failureMessage q]).
Proof.
  intros H.
  destruct (getOutput_cases sc w)
    as [(e0 & Hct & Ho & Hg)
       | [(_ & e0 & He0 & Hg)
         | [(_ & q & e0 & Hq & Hg)
           | (_ & eye & at_ & up & _ & _ & _ & Hg)]]];
    rewrite Hg in H; try discriminate H; injection H as <- <-.
  - left. split; [reflexivity|]. split.
    + destruct (realisticOptics_raises _ _ Ho) as [-> | [-> | ->]]; auto.
    + exists [ "#Camera" ]. split; [reflexivity | all_lines].
  - left. split; [reflexivity|]. split; [tauto|].
    exists (headLines sc (self w)). split; [reflexivity | apply headLines_not_lookat].
  - right. exists q. now split.
Qed.

Lemma getOutput_raises_witness :
  let w := freshWorld negativeFilmScene 1920 1080 in
  exists w', getOutput negativeFilmScene w = (Raise ValueError, w') /\ errorLog w' = [].
Proof.
  intros w.
  assert (H : getOutput negativeFilmScene w = (Raise ValueError, emit w [ "#Camera" ]))
    by (vm_compute; reflexivity).
  exists (emit w [ "#Camera" ]). split; [exact H|].
  destruct (getOutput_raises negativeFilmScene w ValueError _ H)
    as [(Hlog & _) | (q & Hq & _)]; [exact Hlog|].
  destruct q; discriminate Hq.
Defined.

(** ** When a fresh exporter succeeds *)

Lemma of_Z_small_finite (n : Z) :
  Z.abs n < 2 ^ 1023 -> is_finite (of_Z n) = true.
Proof.
  intros Hn. destruct (Z.eq_dec n 0) as [-> | Hnz]; [reflexivity|].
  destruct (of_Z_finite n Hnz Hn) as (m & e & -> & _). reflexivity.
Qed.

(** The ratio of two sizes that convert to floats is zero exactly when
    the width is zero (the height not being zero). *)
Lemma aspect_is_zero (me : Camera) :
  is_finite (of_Z (outWidth me)) = true ->
  is_finite (of_Z (outHeight me)) = true ->
  outHeight me <> 0 ->
  is_zero (aspect me) = (outWidth me =? 0).
Proof.
  intros Hw Hh Hhz. unfold aspect.
  destruct (Z.eqb_spec (outWidth me) 0) as [-> | Hwz].
  - pose proof (of_Z_shape (outHeight me) Hhz) as S.
    destruct (of_Z (outHeight me)); try contradiction; try discriminate Hh.
    reflexivity.
  - now apply div_of_Z_nonzero.
Qed.

(** The arithmetic of the common block in terms of the values read: with
    the constant [__init__] sets and sizes that convert to floats, the
    block succeeds exactly when neither size is zero and, unless infinite
    focus is set, the f-stop is not zero. *)
Lemma common_ok_inputs (sc : Scene) (me : Camera) :
  DOF_CONST me = 1000 ->
  valid (fStop (camera me)) = true ->
  is_finite (of_Z (outWidth me)) = true ->
  is_finite (of_Z (outHeight me)) = true ->
  common_ok sc me
  = ((negb (camera_infinite_focus (lux_settings sc) =? 0)
      || negb (is_zero (fStop (camera me))))
     && negb (outWidth me =? 0) && negb (outHeight me =? 0))%bool.
Proof.
  intros Hdof Hv Hw Hh. unfold common_ok.
  rewrite Hdof, Hw, Hh, (mul_two_is_zero _ Hv).
  change (is_finite (of_Z 1000)) with true. change (1000 =? 0) with false.
  destruct (Z.eqb_spec (outHeight me) 0) as [Hz | Hnz].
  - now rewrite !andb_false_r.
  - rewrite (aspect_is_zero me Hw Hh Hnz).
    destruct (camera_infinite_focus (lux_settings sc) =? 0),
             (is_zero (fStop (camera me))), (outWidth me =? 0); reflexivity.
Qed.

(** X4.  A freshly constructed exporter for a camera that is not of the
    realistic type, with an f-stop that is a float and sizes below
    [2^1023], exports successfully exactly when neither size is zero,
    the f-stop is not zero unless infinite focus is set, and the three
    world-space queries succeed. *)
Theorem fresh_export_succeeds_iff
    (sc : Scene) (path : string) (width height : Z) (buffer log : list string) :
  let w := mkWorld (init sc path width height buffer) log in
  let cam := fnCamera sc path in
  cameraType sc (self w) <> Realistic ->
  valid (fStop cam) = true ->
  Z.abs width < 2 ^ 1023 ->
  Z.abs height < 2 ^ 1023 ->
  fst (getOutput sc w) = Ok tt
  <-> (camera_infinite_focus (lux_settings sc) <> 0 \/ is_zero (fStop cam) = false)
      /\ width <> 0 /\ height <> 0
      /\ forall q, exists v, runQuery q cam = Ok v.
Proof.
  intros w cam Hct Hv Hw Hh.
  assert (Hok : type_block_ok sc (self w)
                = ((negb (camera_infinite_focus (lux_settings sc) =? 0)
                    || negb (is_zero (fStop cam)))
                   && negb (width =? 0) && negb (height =? 0))%bool).
  { transitivity (common_ok sc (self w)).
    - unfold type_block_ok.
      destruct (cameraType sc (self w)); try reflexivity. now contradiction Hct.
    - exact (common_ok_inputs sc (self w) eq_refl Hv
               (of_Z_small_finite width Hw) (of_Z_small_finite height Hh)). }
  assert (Hin : type_block_ok sc (self w) = true
                <-> (camera_infinite_focus (lux_settings sc) <> 0
                     \/ is_zero (fStop cam) = false)
                    /\ width <> 0 /\ height <> 0).
  { rewrite Hok, !andb_true_iff, orb_true_iff, !negb_true_iff, !Z.eqb_neq. tauto. }
  destruct (getOutput_cases sc w)
    as [(e & Hr & _)
       | [(Hno & e & _ & Hg)
         | [(Hyes & q & e & Hq & Hg)
           | (Hyes & eye & at_ & up & He & Hu & Ha & Hg)]]].
  - now contradiction Hct.
  - assert (Hf : type_block_ok sc (self w) = false).
    { unfold type_block_ok.
      destruct (cameraType sc (self w)); try exact Hno. now contradiction Hct. }
    rewrite Hg. cbn [fst]. split; [discriminate|].
    intros (H1 & H2 & H3 & _).
    rewrite (proj2 Hin (conj H1 (conj H2 H3))) in Hf. discriminate Hf.
  - rewrite Hg. cbn [fst]. split; [discriminate|].
    intros (_ & _ & _ & Hall). destruct (Hall q) as [v Hv'].
    change (camera (self w)) with cam in Hq. rewrite Hq in Hv'. discriminate Hv'.
  - rewrite Hg. cbn [fst]. split; [|reflexivity]. intros _.
    destruct (proj1 Hin Hyes) as (H1 & H2 & H3).
    repeat split; try assumption.
    intros [| |]; cbn [runQuery]; eauto.
Qed.

Lemma fresh_export_succeeds_iff_witness :
  fst (getOutput environmentScene (freshWorld environmentScene 1920 1080)) = Ok tt.
Proof.
  assert (Hct : cameraType environmentScene
                  (self (mkWorld (init environmentScene "perspShape" 1920 1080 []) []))
                <> Realistic) by discriminate.
  assert (Hv : valid (fStop (fnCamera environmentScene "perspShape")) = true)
    by (vm_compute; reflexivity).
  assert (Hw : Z.abs 1920 < 2 ^ 1023) by (vm_compute; reflexivity).
  assert (Hh : Z.abs 1080 < 2 ^ 1023) by (vm_compute; reflexivity).
  apply (proj2 (fresh_export_succeeds_iff environmentScene "perspShape" 1920 1080 [] []
                  Hct Hv Hw Hh)).
  split; [right; vm_compute; reflexivity|].
  split; [discriminate|]. split; [discriminate|].
  intros [| |]; cbn; eauto.
Defined.

(** ** Repeated calls and the size of a block *)

(** What the type dispatch and the arithmetic read is the same after a
    successful call as before it. *)
Lemma afterHead_exported (sc : Scene) (w : World) (eye at_ up : MVector) :
  afterHead sc (exported sc w eye at_ up)
  = emit (exported sc w eye at_ up) (headLines sc (self w)).
Proof.
  unfold afterHead at 1.
  replace (scaleFor sc (self (exported sc w eye at_ up)))
    with (scale (self (exported sc w eye at_ up))).
  - now rewrite rescale_same.
  - unfold scaleFor.
    cbn [exported afterHead emit rescale self camera scale].
    unfold scaleFor. now destruct (isOrtho (camera (self w))).
Qed.

(** X5.  A second call on the exporter a successful call has left
    succeeds too and appends the same lines again: the scale an
    orthographic camera has set is set to the same value, and nothing
    else the call reads has changed. *)
Theorem getOutput_twice (sc : Scene) (w w1 : World) :
  getOutput sc w = (Ok tt, w1) ->
  exists block,
    w1 = emit (rescale w (scaleFor sc (self w))) block
    /\ getOutput sc w1 = (Ok tt, emit w1 block).
Proof.
  intros H.
  destruct (getOutput_cases sc w)
    as [(e & _ & _ & Hg)
       | [(_ & e & _ & Hg)
         | [(_ & q & e & _ & Hg)
           | (Hok & eye & at_ & up & He & Hu & Ha & Hg)]]];
    rewrite Hg in H; try discriminate H.
  injection H as <-.
  exists (headLines sc (self w) +++ commonLines sc (self (afterHead sc w))
          +++ lookatLines sc eye at_ up).
  split.
  - unfold exported, afterHead. now rewrite emit_emit.
  - rewrite (getOutput_ok sc (exported sc w eye at_ up) eye at_ up);
      try assumption.
    unfold exported at 1. rewrite afterHead_exported, emit_emit. reflexivity.
Qed.

Lemma getOutput_twice_witness :
  let w := freshWorld orthoScene 1920 1080 in
  exists w1 w2,
    getOutput orthoScene w = (Ok tt, w1)
    /\ getOutput orthoScene w1 = (Ok tt, w2)
    /\ output w2 = output w1 +++ output w1.
Proof.
  intros w.
  assert (H : getOutput orthoScene w = (Ok tt, snd (getOutput orthoScene w)))
    by (vm_compute; reflexivity).
  destruct (getOutput_twice orthoScene w _ H) as (block & Hw1 & Hw2).
  exists (snd (getOutput orthoScene w)), (emit (snd (getOutput orthoScene w)) block).
  split; [exact H|]. split; [exact Hw2|].
  rewrite Hw1. reflexivity.
Defined.

(** X6.  A successful call appends 8 lines for an orthographic camera,
    11 for a perspective one, 9 for an environment camera and 13 for a
    realistic one. *)
Theorem getOutput_line_count (sc : Scene) (w w1 : World) :
  getOutput sc w = (Ok tt, w1) ->
  List.length (output w1)
  = (List.length (output w)
     + match cameraType sc (self w) with
       | Orthographic => 8
       | Perspective => 11
       | Environment => 9
       | Realistic => 13
       end)%nat.
Proof.
  intros H.
  destruct (getOutput_cases sc w)
    as [(e & _ & _ & Hg)
       | [(_ & e & _ & Hg)
         | [(_ & q & e & _ & Hg)
           | (Hok & eye & at_ & up & _ & _ & _ & Hg)]]];
    rewrite Hg in H; try discriminate H.
  injection H as <-.
  unfold exported, afterHead, output. cbn [emit rescale self outputString].
  rewrite !length_app. cbn [commonLines lookatLines List.length].
  unfold headLines. unfold type_block_ok in Hok.
  destruct (cameraType sc (self w)); cbn [perspectiveLines List.length]; try lia.
  destruct (realisticOptics (self w)) as [[[fd ad] diag]|e]; [|discriminate Hok].
  cbn [realisticLines List.length]. lia.
Qed.

Lemma getOutput_line_count_witness :
  List.length (output (snd (getOutput realisticScene (freshWorld realisticScene 1920 1080))))
  = 13%nat.
Proof.
  assert (H : getOutput realisticScene (freshWorld realisticScene 1920 1080)
              = (Ok tt, snd (getOutput realisticScene
                               (freshWorld realisticScene 1920 1080))))
    by (vm_compute; reflexivity).
  rewrite (getOutput_line_count realisticScene _ _ H). reflexivity.
Defined.

(** ** The screen window *)

(** The float of an integer that is not zero, when it is finite. *)
Lemma of_Z_finite_shape (n : Z) :
  n <> 0 -> is_finite (of_Z n) = true ->
  exists s m e, of_Z n = S754_finite s m e.
Proof.
  intros Hn Hf. pose proof (of_Z_shape n Hn) as S.
  destruct (of_Z n) as [s|s| |s m e]; try contradiction; try discriminate Hf.
  now exists s, m, e.
Qed.

(** X7.  A square output has ratio exactly 1, which the test
    [ratio > 1.0] sends to the second branch: the window is
    [2 * shift - 1] to [2 * shift + 1] on both axes, times the scale, and
    the field of view of a lens is the vertical one. *)
Theorem square_output (sc : Scene) (w : World) :
  let me := self w in
  let shiftX := filmTranslateH (camera me) in
  let shiftY := filmTranslateV (camera me) in
  outWidth me = outHeight me ->
  common_ok sc me = true ->
  aspect me = one
  /\ fieldOfView me = math_degrees (verticalFieldOfView (camera me))
  /\ InsertCommon sc w
     = (Ok tt,
        emit w [ screenwindow_line ((two * shiftX - one) * scale me,
                                    (two * shiftX + one) * scale me,
                                    (two * shiftY - one) * scale me,
                                    (two * shiftY + one) * scale me)%F;
                 TAB ++ "scene.camera.shutteropen = " ++ fmt_f zero;
                 TAB ++ "scene.camera.shutterclose = "
                     ++ fmt_f (camera_exposuretime (lux_settings sc)) ]).
Proof.
  intros me shiftX shiftY Hsq Hok.
  assert (Hone : aspect me = one).
  { unfold common_ok in Hok. rewrite !andb_true_iff, !negb_true_iff in Hok.
    destruct Hok as ((((_ & _) & Hh) & Hhz) & _). apply Z.eqb_neq in Hhz.
    destruct (of_Z_finite_shape _ Hhz Hh) as (s & m & e & E).
    unfold aspect. rewrite Hsq, E. apply div_same. }
  split; [exact Hone|]. split.
  - unfold fieldOfView. rewrite Hsq, Z.ltb_irrefl. reflexivity.
  - rewrite (InsertCommon_ok sc w Hok). unfold commonLines. fold me.
    rewrite Hone. reflexivity.
Qed.

Lemma square_output_witness :
  aspect (self (freshWorld perspectiveScene 1024 1024)) = one.
Proof.
  assert (Hok : common_ok perspectiveScene (self (freshWorld perspectiveScene 1024 1024))
                = true) by (vm_compute; reflexivity).
  exact (proj1 (square_output perspectiveScene (freshWorld perspectiveScene 1024 1024)
                  eq_refl Hok)).
Defined.

Lemma mul_two_zero (a : float) :
  is_zero a = true -> exists s, (two * a)%F = S754_zero s.
Proof. destruct a as [s|s| |s m e]; try discriminate. intros _. now eexists. Qed.

(** A window bound below and the bound above it, around a centre that is
    zero, are opposite. *)
Lemma bounds_opposite (centre half scale : float) :
  is_zero centre = true -> is_zero half = false ->
  ((two * centre - half) * scale)%F = opp ((two * centre + half) * scale)%F.
Proof.
  intros Hc Hh. destruct (mul_two_zero centre Hc) as [s ->].
  rewrite (sub_zero_l s half Hh), (add_zero_l s half Hh). apply mul_opp_l.
Qed.

(** X8.  With no film offset and sizes that are not zero and below
    [2^1021], the screen window is symmetric about the centre: the left
    bound is the opposite of the right one and the bottom bound the
    opposite of the top one, whatever the ratio and the scale. *)
Theorem screenwindow_symmetric (me : Camera) :
  is_zero (filmTranslateH (camera me)) = true ->
  is_zero (filmTranslateV (camera me)) = true ->
  0 < Z.abs (outWidth me) < 2 ^ 1021 ->
  0 < Z.abs (outHeight me) < 2 ^ 1021 ->
  let '(l, r, b, t) :=
    screenwindow (filmTranslateH (camera me)) (filmTranslateV (camera me))
                 (aspect me) (PyFloat.div one (aspect me)) (scale me) in
  l = opp r /\ b = opp t.
Proof.
  intros Hx Hy Hw Hh.
  destruct (div_of_Z_inverse _ _ Hw Hh) as (Hr & _ & Hi). fold (aspect me) in Hr, Hi.
  unfold screenwindow. destruct (ltb one (aspect me)).
  - split; apply bounds_opposite; try assumption; reflexivity.
  - split; apply bounds_opposite; try assumption; reflexivity.
Qed.

Lemma screenwindow_symmetric_witness :
  let me := self (freshWorld orthoScene 1920 1080) in
  let '(l, r, b, t) :=
    screenwindow (filmTranslateH (camera me)) (filmTranslateV (camera me))
                 (aspect me) (PyFloat.div one (aspect me)) (scale me) in
  l = opp r /\ b = opp t.
Proof.
  intros me.
  assert (Hw : 0 < Z.abs (outWidth me) < 2 ^ 1021) by (vm_compute; split; reflexivity).
  assert (Hh : 0 < Z.abs (outHeight me) < 2 ^ 1021) by (vm_compute; split; reflexivity).
  exact (screenwindow_symmetric me eq_refl eq_refl Hw Hh).
Defined.

(** X14.  For positive sizes a float holds exactly (below [2^53]) the
    two orientation tests of the module agree: the test [ratio > 1.0] of
    the common block holds exactly when [outHeight < outWidth], the test
    of the lens blocks.  So a camera gets the horizontal field of view
    together with the window whose horizontal bounds are [-1] and [1]
    around the shift, and the vertical field of view together with the
    window whose vertical bounds are. *)
Theorem orientation_tests_agree (me : Camera) :
  0 < outWidth me < 2 ^ 53 ->
  0 < outHeight me < 2 ^ 53 ->
  let shiftX := filmTranslateH (camera me) in
  let shiftY := filmTranslateV (camera me) in
  let ratio := aspect me in
  let invRatio := PyFloat.div one ratio in
  ltb one ratio = (outHeight me <? outWidth me)
  /\ (fieldOfView me, screenwindow shiftX shiftY ratio invRatio (scale me))
     = if outHeight me <? outWidth me
       then (math_degrees (horizontalFieldOfView (camera me)),
             ((two * shiftX - one) * scale me,
              (two * shiftX + one) * scale me,
              (two * shiftY - invRatio) * scale me,
              (two * shiftY + invRatio) * scale me)%F)
       else (math_degrees (verticalFieldOfView (camera me)),
             ((two * shiftX - ratio) * scale me,
              (two * shiftX + ratio) * scale me,
              (two * shiftY - one) * scale me,
              (two * shiftY + one) * scale me)%F).
Proof.
  intros Hw Hh shiftX shiftY ratio invRatio.
  assert (Hr : ltb one ratio = (outHeight me <? outWidth me))
    by (apply of_Z_ratio_gt_one; assumption).
  split; [exact Hr|].
  unfold fieldOfView, screenwindow. rewrite Hr.
  now destruct (outHeight me <? outWidth me).
Qed.

Lemma orientation_tests_agree_witness :
  ltb one (aspect (self (freshWorld perspectiveScene 1080 1920))) = false.
Proof.
  assert (Hw : 0 < outWidth (self (freshWorld perspectiveScene 1080 1920)) < 2 ^ 53)
    by (vm_compute; split; reflexivity).
  assert (Hh : 0 < outHeight (self (freshWorld perspectiveScene 1080 1920)) < 2 ^ 53)
    by (vm_compute; split; reflexivity).
  exact (proj1 (orientation_tests_agree _ Hw Hh)).
Defined.

(** ** The f-stop *)

Lemma lensRadius_zero_stop (sc : Scene) (me : Camera) :
  camera_infinite_focus (lux_settings sc) = 0 ->
  DOF_CONST me = 1000 ->
  is_zero (fStop (camera me)) = true ->
  lensRadius sc me = Raise ZeroDivisionError.
Proof.
  intros Hf Hd Hz. unfold lensRadius. rewrite Hf, Hd.
  change (float_of_int 1000) with (Ok (of_Z 1000)). cbn [Z.eqb result_bind].
  change (float_div (focalLength (camera me)) (of_Z 1000))
    with (Ok (PyFloat.div (focalLength (camera me)) (of_Z 1000))).
  cbn [result_bind]. unfold float_div.
  destruct (mul_two_zero _ Hz) as [s ->]. reflexivity.
Qed.

(** X9.  The lens radius is written to no line, yet with infinite focus
    unset a zero f-stop stops the export of any camera that is not of the
    realistic type: the call raises [ZeroDivisionError] in the common
    block, after the head lines, shows nothing and makes no look-at
    query's result visible. *)
Theorem zero_fstop_aborts_export (sc : Scene) (w : World) :
  cameraType sc (self w) <> Realistic ->
  camera_infinite_focus (lux_settings sc) = 0 ->
  DOF_CONST (self w) = 1000 ->
  is_zero (fStop (camera (self w))) = true ->
  getOutput sc w = (Raise ZeroDivisionError, afterHead sc w).
Proof.
  intros Hct Hf Hd Hz.
  apply getOutput_type_block_fails. rewrite insertTypeBlock_run.
  assert (Hc : InsertCommon sc (afterHead sc w)
               = (Raise ZeroDivisionError, afterHead sc w)).
  { rewrite InsertCommon_unfold, bind_getSelf, bind_lift.
    now rewrite (lensRadius_zero_stop sc (self (afterHead sc w)) Hf Hd Hz). }
  destruct (cameraType sc (self w)); try exact Hc. now contradiction Hct.
Qed.

Lemma zero_fstop_aborts_export_witness :
  let sc := zeroStopScene "Perspective" in
  let w := freshWorld sc 1920 1080 in
  fst (getOutput sc w) = Raise ZeroDivisionError
  /\ List.length (output (snd (getOutput sc w))) = 4%nat.
Proof.
  intros sc w.
  assert (Hct : cameraType sc (self w) <> Realistic) by discriminate.
  rewrite (zero_fstop_aborts_export sc w Hct eq_refl eq_refl eq_refl).
  split; reflexivity.
Defined.

(** ** The realistic lens arithmetic *)

(** [math.sqrt] raises for the numbers below zero and for no others. *)
Lemma math_sqrt_raises_iff (a : float) (e : exn) :
  math_sqrt a = Raise e <-> e = ValueError /\ is_negative a = true.
Proof.
  split.
  - intros H. split; [now apply math_sqrt_raises in H|].
    destruct (is_negative a) eqn:Hn; [reflexivity|].
    rewrite (math_sqrt_ok a Hn) in H. discriminate H.
  - intros [-> Hn]. destruct a as [s|[|]| |[|] m x]; try discriminate Hn; reflexivity.
Qed.

Lemma realisticOptics_ValueError (me : Camera) :
  realisticOptics me = Raise ValueError
  <-> is_negative (horizontalFilmAperture (camera me)
                   * verticalFilmAperture (camera me))%F = true.
Proof.
  unfold realisticOptics. cbv zeta.
  destruct (math_sqrt _) as [diag|e0] eqn:Hs; cbn [result_bind].
  - assert (Hn : is_negative (horizontalFilmAperture (camera me)
                              * verticalFilmAperture (camera me))%F = false).
    { destruct (is_negative _) eqn:Hn; [|reflexivity].
      rewrite (proj2 (math_sqrt_raises_iff _ ValueError) (conj eq_refl Hn)) in Hs.
      discriminate Hs. }
    rewrite Hn. split; [|discriminate]. intros H. exfalso. revert H.
    destruct (float_of_int (DOF_CONST me)) as [dof|e1] eqn:Hd; cbn [result_bind].
    2:{ intros [= ->]. now apply float_of_int_raises in Hd. }
    destruct (float_div (focalLength (camera me)) dof) as [focal|e1] eqn:Hf;
      cbn [result_bind].
    2:{ intros [= ->]. now apply float_div_raises in Hf. }
    destruct (float_div focal _) as [ad|e1] eqn:Ha; cbn [result_bind].
    2:{ intros [= ->]. now apply float_div_raises in Ha. }
    destruct (float_div (centerOfInterest (camera me) * focal)%F _) as [fd|e1] eqn:Hfd;
      cbn [result_bind]; intros H; [discriminate H|].
    injection H as ->. now apply float_div_raises in Hfd.
  - apply math_sqrt_raises_iff in Hs. destruct Hs as [-> Hn]. now rewrite Hn.
Qed.

(** X10.  A call ends in [ValueError] with nothing but the marker line
    appended exactly when the camera is of the realistic type and the
    product of its two film apertures is below zero: the square root for
    the film diagonal is the first thing [InsertRealistic] computes that
    can fail, and the only source of this exception in the module. *)
Theorem realistic_negative_film (sc : Scene) (w : World) :
  getOutput sc w = (Raise ValueError, emit w [ "#Camera" ])
  <-> cameraType sc (self w) = Realistic
      /\ is_negative (horizontalFilmAperture (camera (self w))
                      * verticalFilmAperture (camera (self w)))%F = true.
Proof.
  split.
  - intros H.
    destruct (getOutput_cases sc w)
      as [(e & Hct & Ho & Hg)
         | [(_ & e & He & Hg)
           | [(_ & q & e & _ & Hg)
             | (_ & eye & at_ & up & _ & _ & _ & Hg)]]];
      rewrite Hg in H; try discriminate H.
    + injection H as ->. split; [exact Hct|]. now apply realisticOptics_ValueError.
    + injection H as -> _. destruct He as [He | He]; discriminate He.
    + exfalso.
      apply (f_equal (fun r => List.length (errorLog (snd r)))) in H.
      cbn [snd logged emit errorLog] in H. rewrite length_app in H.
      cbn [List.length] in H.
      change (errorLog (afterHead sc w)) with (errorLog w) in H. lia.
  - intros [Hct Hn]. apply getOutput_type_block_fails.
    rewrite insertTypeBlock_run, Hct.
    now rewrite (proj2 (realisticOptics_ValueError (self w)) Hn).
Qed.

Lemma realistic_negative_film_witness :
  let w := freshWorld negativeFilmScene 1920 1080 in
  getOutput negativeFilmScene w = (Raise ValueError, emit w [ "#Camera" ]).
Proof.
  intros w.
  assert (Hn : is_negative (horizontalFilmAperture (camera (self w))
                            * verticalFilmAperture (camera (self w)))%F = true)
    by (vm_compute; reflexivity).
  exact (proj2 (realistic_negative_film negativeFilmScene w) (conj eq_refl Hn)).
Defined.

(** X11.  A realistic camera with a zero f-stop cannot be exported,
    whether or not infinite focus is set: the aperture diameter is the
    focal length divided by the f-stop.  With a film-aperture product
    that is not below zero the call raises [ZeroDivisionError] after the
    marker line. *)
Theorem realistic_zero_fstop (sc : Scene) (w : World) :
  cameraType sc (self w) = Realistic ->
  DOF_CONST (self w) = 1000 ->
  is_negative (horizontalFilmAperture (camera (self w))
               * verticalFilmAperture (camera (self w)))%F = false ->
  is_zero (fStop (camera (self w))) = true ->
  getOutput sc w = (Raise ZeroDivisionError, emit w [ "#Camera" ]).
Proof.
  intros Hct Hd Hn Hz. apply getOutput_type_block_fails.
  rewrite insertTypeBlock_run, Hct.
  assert (Ho : realisticOptics (self w) = Raise ZeroDivisionError).
  { unfold realisticOptics. rewrite (math_sqrt_ok _ Hn), Hd. cbn [result_bind].
    change (float_of_int 1000) with (Ok (of_Z 1000)). cbn [result_bind].
    change (float_div (focalLength (camera (self w))) (of_Z 1000))
      with (Ok (PyFloat.div (focalLength (camera (self w))) (of_Z 1000))).
    cbn [result_bind]. unfold float_div at 1. now rewrite Hz. }
  now rewrite Ho.
Qed.

Lemma realistic_zero_fstop_witness :
  let sc := zeroStopScene "Realistic" in
  let w := freshWorld sc 1920 1080 in
  getOutput sc w = (Raise ZeroDivisionError, emit w [ "#Camera" ]).
Proof.
  intros sc w.
  assert (Hn : is_negative (horizontalFilmAperture (camera (self w))
                            * verticalFilmAperture (camera (self w)))%F = false)
    by (vm_compute; reflexivity).
  exact (realistic_zero_fstop sc w eq_refl eq_refl Hn eq_refl).
Defined.

(** ** Sizes too large for a float *)

(** The lens radius can be computed when infinite focus is set, or when
    the f-stop is a float that is not zero (with the constant [__init__]
    sets). *)
Lemma lensRadius_ok (sc : Scene) (me : Camera) :
  camera_infinite_focus (lux_settings sc) <> 0
  \/ DOF_CONST me = 1000 /\ valid (fStop (camera me)) = true
     /\ is_zero (fStop (camera me)) = false ->
  exists r, lensRadius sc me = Ok r.
Proof.
  unfold lensRadius.
  destruct (Z.eqb_spec (camera_infinite_focus (lux_settings sc)) 0) as [Hz | Hnz];
    [|eauto].
  intros [H | (Hd & Hv & Hs)]; [contradiction|].
  rewrite Hd. change (float_of_int 1000) with (Ok (of_Z 1000)). cbn [result_bind].
  change (float_div (focalLength (camera me)) (of_Z 1000))
    with (Ok (PyFloat.div (focalLength (camera me)) (of_Z 1000))).
  cbn [result_bind]. unfold float_div.
  rewrite (mul_two_is_zero _ Hv), Hs. eauto.
Qed.

(** X12.  An output width of [2^1024] or more, of either sign, stops the
    common block with an [OverflowError] before it appends a line: the
    conversion [float(self.outWidth)] is the first step after the lens
    radius. *)
Theorem huge_width_overflows (sc : Scene) (w : World) :
  camera_infinite_focus (lux_settings sc) <> 0
  \/ DOF_CONST (self w) = 1000 /\ valid (fStop (camera (self w))) = true
     /\ is_zero (fStop (camera (self w))) = false ->
  2 ^ 1024 <= Z.abs (outWidth (self w)) ->
  InsertCommon sc w = (Raise OverflowError, w).
Proof.
  intros Hlens Hw.
  destruct (lensRadius_ok sc (self w) Hlens) as [r Hr].
  rewrite InsertCommon_unfold, bind_getSelf, bind_lift, Hr.
  unfold bind, lift, float_of_int. now rewrite (of_Z_huge _ Hw).
Qed.

Lemma huge_width_overflows_witness :
  let w := freshWorld perspectiveScene (2 ^ 1024) 1080 in
  InsertCommon perspectiveScene w = (Raise OverflowError, w).
Proof.
  intros w.
  assert (Hlens : camera_infinite_focus (lux_settings perspectiveScene) <> 0
                  \/ DOF_CONST (self w) = 1000
                     /\ valid (fStop (camera (self w))) = true
                     /\ is_zero (fStop (camera (self w))) = false).
  { right. split; [reflexivity|]. split; vm_compute; reflexivity. }
  assert (Hw : 2 ^ 1024 <= Z.abs (outWidth (self w))) by (vm_compute; discriminate).
  exact (huge_width_overflows perspectiveScene w Hlens Hw).
Defined.

(** ** The scene scale factor *)

Lemma InsertCommon_sceneScale (sc : Scene) (w : World) (s : float) :
  InsertCommon sc (withSceneScale w s)
  = (fst (InsertCommon sc w), withSceneScale (snd (InsertCommon sc w)) s).
Proof.
  rewrite !InsertCommon_unfold, !bind_getSelf, !bind_lift.
  change (lensRadius sc (self (withSceneScale w s))) with (lensRadius sc (self w)).
  destruct (lensRadius sc (self w)) as [r|e]; [|reflexivity].
  unfold bind, lift.
  change (outWidth (self (withSceneScale w s))) with (outWidth (self w)).
  destruct (float_of_int (outWidth (self w))) as [wf|e]; [|reflexivity].
  change (outHeight (self (withSceneScale w s))) with (outHeight (self w)).
  destruct (float_of_int (outHeight (self w))) as [hf|e]; [|reflexivity].
  destruct (float_div wf hf) as [ratio|e]; [|reflexivity].
  destruct (float_div one ratio) as [inv|e]; reflexivity.
Qed.

Lemma insertTypeBlock_sceneScale (sc : Scene) (w : World) (s : float) :
  insertTypeBlock sc (withSceneScale w s)
  = (fst (insertTypeBlock sc w), withSceneScale (snd (insertTypeBlock sc w)) s).
Proof.
  rewrite !insertTypeBlock_run.
  change (cameraType sc (self (withSceneScale w s))) with (cameraType sc (self w)).
  change (realisticOptics (self (withSceneScale w s))) with (realisticOptics (self w)).
  change (afterHead sc (withSceneScale w s)) with (withSceneScale (afterHead sc w) s).
  destruct (cameraType sc (self w)); destruct (realisticOptics (self w));
    try apply InsertCommon_sceneScale; reflexivity.
Qed.

Lemma InsertLookat_sceneScale (sc : Scene) (w : World) (s : float) :
  InsertLookat sc (withSceneScale w s)
  = (fst (InsertLookat sc w), withSceneScale (snd (InsertLookat sc w)) s).
Proof.
  rewrite !InsertLookat_run.
  change (camera (self (withSceneScale w s))) with (camera (self w)).
  destruct (eyePoint (camera (self w)) kWorld); [|reflexivity].
  destruct (upDirection (camera (self w)) kWorld); [|reflexivity].
  destruct (centerOfInterestPoint (camera (self w)) kWorld); reflexivity.
Qed.

(** X13.  No method reads the scene scale factor that [__init__] stores:
    a call on an exporter with any other value in [sceneScale] returns
    or raises the same and appends the same lines; positions and
    distances are written unscaled. *)
Theorem sceneScale_never_read (sc : Scene) (w : World) (s : float) :
  getOutput sc (withSceneScale w s)
  = (fst (getOutput sc w), withSceneScale (snd (getOutput sc w)) s).
Proof.
  rewrite !getOutput_unfold. unfold bind.
  rewrite insertTypeBlock_sceneScale.
  destruct (insertTypeBlock sc w) as [[[]|e] w1]; cbn [fst snd]; [|reflexivity].
  rewrite InsertLookat_sceneScale.
  now destruct (InsertLookat sc w1) as [[[]|e] w2].
Qed.
